(** * Visually Script: a shallow embedding of [visually-script.ts]

    The library builds a presentation in memory: a [Presentation] owns a media
    queue and a source list, a [Slide] builder owns one slide object.  The
    embedding follows the TypeScript source function by function.

    - JavaScript objects built with spread syntax are finite maps from
      property names to values ([gmap string JsVal]).
    - The slide object of a [Slide] builder lives in a store and is named by
      a location: [addSlide] puts that location in the queue, as the source
      puts the object reference there.
    - [Date.now()], [Math.random()] and [console.warn] are the only contacts
      with the outside; the first two are read from the [World], the third
      appends to it.
    - Strings are sequences of code units below 256 (Rocq's [string]).
    - A finite number is the rational it denotes; [Number] rounds what it
      reads to binary64 with the Standard Library's specification of
      IEEE 754.
    - Arrays and nested objects other than the slide object are values:
      the library never writes to them after it has built them.
    - [toJSON] only prints the two lists and is not embedded. *)

From Stdlib Require Import ZArith NArith QArith String Ascii List Lia Sorted.
From Stdlib Require SpecFloat.
From stdpp Require Import gmap strings list fin_maps.

#[local] Set Warnings "-register-all".
#[local] Open Scope string_scope.

(** ** JavaScript values *)

(** A finite number is the rational it denotes, but for -0, which no
    rational tells from 0. *)
Inductive JsNum :=
  | NaN
  | Infinity (negative : bool)
  | NegZero
  | Num (q : Q).

Definition int (z : Z) : JsNum := Num (inject_Z z).

Abbreviation loc := positive.

Inductive JsVal :=
  | VUndef
  | VNull
  | VBool (b : bool)
  | VNum (n : JsNum)
  | VStr (s : string)
  | VArr (l : list JsVal)
  | VObj (o : gmap string JsVal)
  | VRef (l : loc).

Abbreviation JsObject := (gmap string JsVal).

(** ToBoolean: [if (v)], [!v], [v || d]. *)
Definition num_truthy (n : JsNum) : bool :=
  match n with
  | NaN => false
  | Infinity _ => true
  | NegZero => false
  | Num q => negb (Qeq_bool q 0)
  end.

Definition str_truthy (s : string) : bool :=
  match s with EmptyString => false | String _ _ => true end.

Definition truthy (v : JsVal) : bool :=
  match v with
  | VUndef | VNull => false
  | VBool b => b
  | VNum n => num_truthy n
  | VStr s => str_truthy s
  | VArr _ | VObj _ | VRef _ => true
  end.

(** [a || d] on an optional property: an absent property reads [undefined]. *)
Definition get (o : JsObject) (k : string) : JsVal :=
  default VUndef (o !! k).

Definition or_else (v d : JsVal) : JsVal := if truthy v then v else d.

(** [{ ...a, ...b }]: the properties of [b] win. *)
Definition spread (a b : JsObject) : JsObject := b ∪ a.

(** ** Number.prototype.toString(36) on a non-negative integer *)

Definition digit36 (d : N) : ascii :=
  ascii_of_N (if (d <? 10)%N then 48 + d else 87 + d).

Fixpoint radix36 (fuel : nat) (n : N) : string :=
  match fuel with
  | O => ""
  | S f =>
      (if (n <? 36)%N then "" else radix36 f (n / 36))
        ++ String (digit36 (n mod 36)) ""
  end.

Definition toString36 (n : N) : string := radix36 (S (N.to_nat (N.size n))) n.

(** The value a base-36 numeral denotes (used to read [toString36] back). *)
Definition value36 (c : ascii) : N :=
  let k := N_of_ascii c in
  if (k <? 58)%N then k - 48 else k - 87.

Fixpoint parse36 (acc : N) (s : string) : N :=
  match s with
  | EmptyString => acc
  | String c s' => parse36 (36 * acc + value36 c) s'
  end.

(** [s.substr(start, len)] for non-negative arguments. *)
Definition substr (start len : nat) (s : string) : string :=
  substring start len s.

(** ** The world outside the library

    [clock k] and [random k] are what [Date.now()] and
    [Math.random().toString(36)] return at the [k]-th call of [generateId];
    [draws] counts those calls.  [store] holds the slide objects,
    [console] the lines written by [console.warn]. *)

Inductive BorderStyle :=
  | border_none | border_solid | border_ants | border_poop
  | border_ants_normal | border_ants_glow | border_poop_normal
  | border_poop_glow | border_spiders | border_spider_normal
  | border_spider_glow.

Record PresentationSlide := {
  slide_id : string;
  title : string;
  elements : list JsObject;
  backgroundColor : option string;
  backgroundImageUrl : option string;
  borderStyle : option BorderStyle;
  borderColor : option string;
  borderWidth : option JsNum;
}.

Record World := {
  clock : nat -> N;
  random : nat -> string;
  draws : nat;
  store : gmap loc PresentationSlide;
  console : list string;
}.

Definition M (A : Type) : Type := World -> A * World.

Definition ret {A} (a : A) : M A := fun w => (a, w).

Definition bind {A B} (m : M A) (k : A -> M B) : M B :=
  fun w => let (a, w') := m w in k a w'.

Notation "'let!' x ':=' m 'in' k" := (bind m (fun x => k))
  (at level 10, x pattern, m at level 100, k at level 200).
Notation "m ';;' k" := (bind m (fun _ => k))
  (at level 100, right associativity).

(** ** generateId *)

Definition make_id (now : N) (rnd36 : string) : string :=
  toString36 now ++ "-" ++ substr 2 9 rnd36.

Definition generateId : M string := fun w =>
  (make_id (clock w (draws w)) (random w (draws w)),
   {| clock := clock w; random := random w; draws := S (draws w);
      store := store w; console := console w |}).

(** [n] consecutive calls, identifiers in call order. *)
Fixpoint generateIds (n : nat) : M (list string) :=
  match n with
  | O => ret []
  | S n' => let! i := generateId in let! rest := generateIds n' in ret (i :: rest)
  end.

Definition warn (msg : string) : M unit := fun w =>
  (tt, {| clock := clock w; random := random w; draws := draws w;
          store := store w; console := console w ++ [msg] |}).

Definition with_store (h : gmap loc PresentationSlide) (w : World) : World :=
  {| clock := clock w; random := random w; draws := draws w;
     store := h; console := console w |}.

Definition set_store (h : gmap loc PresentationSlide) : M unit := fun w =>
  (tt, with_store h w).

Definition get_store : M (gmap loc PresentationSlide) := fun w => (store w, w).

(** ** String.prototype.trim, split, join *)

(** WhiteSpace and LineTerminator code units below 256:
    TAB, LF, VT, FF, CR, SP, NBSP. *)
Definition isWhiteSpace (c : ascii) : bool :=
  let k := N_of_ascii c in
  ((9 <=? k) && (k <=? 13) || (k =? 32) || (k =? 160))%N.

Fixpoint trimStart (s : string) : string :=
  match s with
  | EmptyString => EmptyString
  | String c s' => if isWhiteSpace c then trimStart s' else s
  end.

Fixpoint trimEnd (s : string) : string :=
  match s with
  | EmptyString => EmptyString
  | String c s' =>
      match trimEnd s' with
      | EmptyString => if isWhiteSpace c then EmptyString else String c EmptyString
      | t => String c t
      end
  end.

Definition trim (s : string) : string := trimEnd (trimStart s).

(** [s.split(sep)] for a one-character separator: never the empty list. *)
Fixpoint split (sep : ascii) (s : string) : list string :=
  match s with
  | EmptyString => [EmptyString]
  | String c s' =>
      if Ascii.eqb c sep then EmptyString :: split sep s'
      else match split sep s' with
           | h :: t => String c h :: t
           | [] => [String c EmptyString]
           end
  end.

(** [a.join(sep)] on an array of strings. *)
Definition join (sep : string) (l : list string) : string := String.concat sep l.

(** ** Number(string) and isNaN

    StringToNumber of ECMAScript: surrounding white space is dropped, the
    empty string is 0, then a signed decimal literal (with [Infinity],
    fraction and exponent) or an unsigned literal in base 16, 8 or 2;
    everything else is NaN.  The result is the Number value for the
    mathematical value of the literal: the binary64 value nearest to it, ties
    to even, Infinity past the largest finite value, and -0 for a negative
    literal that rounds to zero.  (For a literal of more than twenty
    significant digits ECMAScript leaves the last unit to the engine; the
    engines round the literal itself, as here.) *)

Definition isDigit (c : ascii) : bool :=
  let k := N_of_ascii c in ((48 <=? k) && (k <=? 57))%N.

(** Value of a digit in base 16 (also used for bases 8 and 2 and 10). *)
Definition digitValue (c : ascii) : option Z :=
  let k := Z.of_N (N_of_ascii c) in
  if ((48 <=? k) && (k <=? 57))%Z then Some (k - 48)%Z
  else if ((97 <=? k) && (k <=? 102))%Z then Some (k - 87)%Z
  else if ((65 <=? k) && (k <=? 70))%Z then Some (k - 55)%Z
  else None.

(** Reads a non-empty run of digits of the base to the end of the string. *)
Fixpoint digitsValue (base acc : Z) (s : string) : option Z :=
  match s with
  | EmptyString => Some acc
  | String c s' =>
      match digitValue c with
      | Some d => if (d <? base)%Z then digitsValue base (base * acc + d) s' else None
      | None => None
      end
  end.

Definition wholeDigits (base : Z) (s : string) : option Z :=
  match s with
  | EmptyString => None
  | _ => digitsValue base 0 s
  end.

(** Longest prefix of decimal digits, and what follows it. *)
Fixpoint spanDigits (s : string) : string * string :=
  match s with
  | String c s' =>
      if isDigit c then let (d, r) := spanDigits s' in (String c d, r) else (EmptyString, s)
  | EmptyString => (EmptyString, EmptyString)
  end.

Definition decimalValue (s : string) : Z := default 0%Z (digitsValue 10 0 s).

(** ExponentPart, or nothing, up to the end of the string. *)
Definition exponentPart (s : string) : option Z :=
  match s with
  | EmptyString => Some 0%Z
  | String c s' =>
      if Ascii.eqb c "e" || Ascii.eqb c "E" then
        match s' with
        | String "+" d => wholeDigits 10 d
        | String "-" d => Z.opp <$> wholeDigits 10 d
        | d => wholeDigits 10 d
        end
      else None
  end.

(** StrUnsignedDecimalLiteral other than [Infinity]: mantissa and power of ten. *)
Definition unsignedDecimal (s : string) : option (Z * Z) :=
  let (ip, r1) := spanDigits s in
  let (fp, r2) :=
    match r1 with
    | String "." r => spanDigits r
    | _ => (EmptyString, r1)
    end in
  if str_truthy ip || str_truthy fp then
    e ← exponentPart r2;
    Some (decimalValue (ip ++ fp), (e - Z.of_nat (String.length fp))%Z)
  else None.

(** Binary64 is the format of precision 53 whose infinities have exponent
    1024.  [binary_round] rounds an integer times a power of two and [SFdiv]
    a quotient to the nearest value of the format, ties to even. *)
Definition prec64 : Z := 53.
Definition emax64 : Z := 1024.

Definition fromBinary64 (f : SpecFloat.spec_float) : JsNum :=
  match f with
  | SpecFloat.S754_zero false => int 0
  | SpecFloat.S754_zero true => NegZero
  | SpecFloat.S754_infinity negative => Infinity negative
  | SpecFloat.S754_nan => NaN
  | SpecFloat.S754_finite negative m e =>
      Num (Qred (inject_Z (if negative then Z.neg m else Z.pos m) * Qpower (2 # 1) e))
  end.

(** The Number value for [m * 10 ^ e], negated when [negative]. *)
Definition numberValue (negative : bool) (m e : Z) : JsNum :=
  fromBinary64
    match m, e with
    | Z.pos p, Z.neg k =>
        SpecFloat.SFdiv prec64 emax64
          (SpecFloat.S754_finite negative p 0)
          (SpecFloat.S754_finite false (10 ^ k) 0)
    | Z.pos p, _ =>
        SpecFloat.binary_round prec64 emax64 negative (p * Z.to_pos (10 ^ e)) 0
    | _, _ => SpecFloat.S754_zero negative
    end.

Definition strDecimalLiteral (s : string) : JsNum :=
  let (negative, u) :=
    match s with
    | String "+" u => (false, u)
    | String "-" u => (true, u)
    | _ => (false, s)
    end in
  if String.eqb u "Infinity" then Infinity negative
  else match unsignedDecimal u with
       | Some (m, e) => numberValue negative m e
       | None => NaN
       end.

Definition nonDecimalLiteral (s : string) : option JsNum :=
  match s with
  | String "0" (String p d) =>
      let based (b : Z) :=
        Some (from_option (fun m => numberValue false m 0) NaN (wholeDigits b d)) in
      if Ascii.eqb p "x" || Ascii.eqb p "X" then based 16%Z
      else if Ascii.eqb p "o" || Ascii.eqb p "O" then based 8%Z
      else if Ascii.eqb p "b" || Ascii.eqb p "B" then based 2%Z
      else None
  | _ => None
  end.

Definition Number (s : string) : JsNum :=
  let t := trim s in
  match t with
  | EmptyString => int 0
  | _ => match nonDecimalLiteral t with
         | Some n => n
         | None => strDecimalLiteral t
         end
  end.

Definition isNaN (n : JsNum) : bool :=
  match n with NaN => true | _ => false end.

(** ** Regular expressions, as [String.prototype.match] runs them

    A backtracking matcher given as the list of its successes in priority
    order: the head of the list is the match JavaScript reports.  A state is
    the rest of the input and the text of capture group 1. *)

Inductive Regex :=
  | Eps
  | Chr (c : ascii)
  | Cls (f : ascii -> bool)
  | Cat (r1 r2 : Regex)
  | Alt (r1 r2 : Regex)
  | Opt (r : Regex)
  | Times (n : nat) (r : Regex)
  | Grp (r : Regex).

Abbreviation MatchState := (string * option string)%type.

Fixpoint lit (s : string) : Regex :=
  match s with
  | EmptyString => Eps
  | String c s' => Cat (Chr c) (lit s')
  end.

(** The text between the start [s] of a match and its end [rest]. *)
Definition consumed (s rest : string) : string :=
  substring 0 (String.length s - String.length rest) s.

Fixpoint times (n : nat) (step : MatchState -> list MatchState) (st : MatchState)
  : list MatchState :=
  match n with
  | O => [st]
  | S n' => flat_map (times n' step) (step st)
  end.

Fixpoint run (r : Regex) (st : MatchState) : list MatchState :=
  match r with
  | Eps => [st]
  | Chr c =>
      match st.1 with
      | String a s' => if Ascii.eqb a c then [(s', st.2)] else []
      | EmptyString => []
      end
  | Cls f =>
      match st.1 with
      | String a s' => if f a then [(s', st.2)] else []
      | EmptyString => []
      end
  | Cat r1 r2 => flat_map (run r2) (run r1 st)
  | Alt r1 r2 => run r1 st ++ run r2 st
  | Opt r1 => run r1 st ++ [st]
  | Times n r1 => times n (run r1) st
  | Grp r1 => map (fun st' => (st'.1, Some (consumed st.1 st'.1))) (run r1 st)
  end.

(** Unanchored search from the leftmost start position; the result is
    [match[1]] of the first match, [None] when [match] returns null. *)
Fixpoint search (r : Regex) (s : string) : option (option string) :=
  match run r (s, None) with
  | st :: _ => Some st.2
  | [] =>
      match s with
      | EmptyString => None
      | String _ s' => search r s'
      end
  end.

(** [[a-zA-Z0-9_-]] *)
Definition idChar (c : ascii) : bool :=
  let k := N_of_ascii c in
  ((97 <=? k) && (k <=? 122) || (65 <=? k) && (k <=? 90)
   || (48 <=? k) && (k <=? 57) || (k =? 95) || (k =? 45))%N.

(** [/(?:https?:\/\/)?(?:www\.)?(?:youtube\.com\/(?:watch\?v=|embed\/|v\/)|youtu\.be\/)([a-zA-Z0-9_-]{11})/] *)
Definition youtubeRegex : Regex :=
  Cat (Opt (Cat (lit "http") (Cat (Opt (Chr "s")) (lit "://"))))
 (Cat (Opt (lit "www."))
 (Cat (Alt (Cat (lit "youtube.com/")
                (Alt (lit "watch?v=") (Alt (lit "embed/") (lit "v/"))))
           (lit "youtu.be/"))
      (Grp (Times 11 (Cls idChar))))).

Definition getYouTubeEmbedUrl (url : string) : option string :=
  match search youtubeRegex url with
  | Some (Some v) =>
      if str_truthy v then Some ("https://www.youtube-nocookie.com/embed/" ++ v) else None
  | _ => None
  end.

(** The URL shapes the regular expression is written for, in words: the
    text contains one of the four markers followed by eleven id
    characters. *)
Definition youtubeShapes : list string :=
  ["youtube.com/watch?v="; "youtube.com/embed/"; "youtube.com/v/"; "youtu.be/"].

Fixpoint allChars (f : ascii -> bool) (s : string) : bool :=
  match s with
  | EmptyString => true
  | String c s' => f c && allChars f s'
  end.

(** [v] is an id at position [pos] of [url]: a marker starts there and
    the eleven id characters [v] follow it. *)
Definition occursAt (url : string) (pos : nat) (v : string) : Prop :=
  exists before shape after : string,
    url = before ++ shape ++ v ++ after /\ String.length before = pos
    /\ In shape youtubeShapes
    /\ String.length v = 11 /\ allChars idChar v = true.

Definition recognizedYouTube (url v : string) : Prop :=
  exists pos : nat, occursAt url pos v.

(** [v] is the id of the leftmost marker of [url] that has one. *)
Definition firstRecognized (url v : string) : Prop :=
  exists pos : nat,
    occursAt url pos v /\ forall pos' v', occursAt url pos' v' -> pos <= pos'.

Definition str (s : string) : JsVal := VStr s.
Definition num (z : Z) : JsVal := VNum (int z).

(** ** class Slide

    A [Slide.t] is the private field [this.slide]: the location of a
    [PresentationSlide] in the store.  Every method returns [this]. *)

Module Slide.

Abbreviation t := loc.

(** [new Slide(title, backgroundColor = '#FFFFFF')] *)
Definition new (title : string) (backgroundColor : option string) : M t :=
  let! i := generateId in
  let! h := get_store in
  let l := fresh (dom h) in
  set_store (<[l := {| slide_id := i;
                       title := title;
                       elements := [];
                       backgroundColor := Some (default "#FFFFFF" backgroundColor);
                       backgroundImageUrl := None;
                       borderStyle := Some border_none;
                       borderColor := None;
                       borderWidth := None |}]> h) ;;
  ret l.

(** Assignment to the fields of [this.slide]. *)
Definition update (f : PresentationSlide -> PresentationSlide) (this : t) : M t :=
  let! h := get_store in
  set_store (alter f this h) ;;
  ret this.

Definition push_element (e : JsObject) (s : PresentationSlide) : PresentationSlide :=
  {| slide_id := slide_id s; title := title s;
     elements := elements s ++ [e];
     backgroundColor := backgroundColor s;
     backgroundImageUrl := backgroundImageUrl s;
     borderStyle := borderStyle s; borderColor := borderColor s;
     borderWidth := borderWidth s |}.

Definition addElement (element : JsObject) (this : t) : M t :=
  update (push_element element) this.

(** [{ ...defaults, ...props, id: generateId(), type: t }] *)
Definition element (defaults props : JsObject) (i t : string) : JsObject :=
  <["type" := str t]> (<["id" := str i]> (spread defaults props)).

Definition textDefaults : JsObject :=
  list_to_map
    [("content", str "New Text");
     ("x", num 10); ("y", num 10); ("width", num 300); ("height", num 50);
     ("fontSize", num 24); ("color", str "#000000");
     ("fontFamily", str "Alegreya"); ("animation", str "none")].

Definition addText (props : JsObject) (this : t) : M t :=
  let! i := generateId in
  addElement (element textDefaults props i "text") this.

Definition imageDefaults : JsObject :=
  list_to_map
    [("src", str "https://placehold.co/300x200.png");
     ("x", num 10); ("y", num 10); ("width", num 300); ("height", num 200)].

Definition addImage (props : JsObject) (this : t) : M t :=
  let! i := generateId in
  addElement (element imageDefaults props i "image") this.

(** [const { content, x, y, size = 100, rotation = 0 } = props]: a default
    stands in for a property that is absent or [undefined]. *)
Definition destructure (props : JsObject) (k : string) (d : JsVal) : JsVal :=
  match get props k with
  | VUndef => d
  | v => v
  end.

Definition addSticker (props : JsObject) (this : t) : M t :=
  let content := get props "content" in
  let x := get props "x" in
  let y := get props "y" in
  let size := destructure props "size" (num 100) in
  let rotation := destructure props "rotation" (num 0) in
  let! i := generateId in
  let newElement : JsObject :=
    list_to_map
      [("id", str i); ("type", str "sticker"); ("content", content);
       ("x", x); ("y", y); ("width", size); ("height", size);
       ("fontSize", size); ("rotation", rotation)] in
  addElement newElement this.

Definition mathDefaults : JsObject :=
  list_to_map
    [("content", str "E = mc^2");
     ("x", num 10); ("y", num 10); ("width", num 200); ("height", num 60);
     ("fontSize", num 24); ("color", str "#000000")].

Definition addMath (props : JsObject) (this : t) : M t :=
  let! i := generateId in
  addElement (element mathDefaults props i "math") this.

Definition shapeDefaults : JsObject :=
  list_to_map
    [("shape", str "rectangle");
     ("x", num 10); ("y", num 10); ("width", num 150); ("height", num 100);
     ("strokeColor", str "#000000"); ("strokeWidth", num 2);
     ("fillColor", str "transparent")].

Definition addShape (props : JsObject) (this : t) : M t :=
  let! i := generateId in
  addElement (element shapeDefaults props i "shape") this.

(** The defaults of a character hold a fresh action, so they take an
    identifier of their own before the element does. *)
Definition characterDefaults (actionId : string) : JsObject :=
  list_to_map
    [("character", str "char1");
     ("x", num 50); ("y", num 350); ("width", num 150); ("height", num 200);
     ("actions",
      VArr [VObj (list_to_map
                    [("id", str actionId); ("type", str "text");
                     ("text", str "Hello!")])])].

Definition addCharacter (props : JsObject) (this : t) : M t :=
  let! a := generateId in
  let! i := generateId in
  addElement (element (characterDefaults a) props i "gamification") this.

Definition setBackgroundColor (color : string) (this : t) : M t :=
  update (fun s =>
    {| slide_id := slide_id s; title := title s; elements := elements s;
       backgroundColor := Some color;
       backgroundImageUrl := backgroundImageUrl s;
       borderStyle := borderStyle s; borderColor := borderColor s;
       borderWidth := borderWidth s |}) this.

Definition setBackgroundImageUrl (url : string) (this : t) : M t :=
  update (fun s =>
    {| slide_id := slide_id s; title := title s; elements := elements s;
       backgroundColor := backgroundColor s;
       backgroundImageUrl := Some url;
       borderStyle := borderStyle s; borderColor := borderColor s;
       borderWidth := borderWidth s |}) this.

(** [{ style, color?, width? }] *)
Record BorderProps := {
  style : option BorderStyle;
  color : option string;
  width : option JsNum;
}.

(** [if (props.color)] and [if (props.width)]: an absent property is falsy,
    and so are the empty string, 0 and NaN. *)
Definition given_color (c : option string) : bool :=
  match c with Some s => str_truthy s | None => false end.

Definition given_width (n : option JsNum) : bool :=
  match n with Some k => num_truthy k | None => false end.

Definition assign_border (props : BorderProps) (s : PresentationSlide) : PresentationSlide :=
  {| slide_id := slide_id s; title := title s; elements := elements s;
     backgroundColor := backgroundColor s;
     backgroundImageUrl := backgroundImageUrl s;
     borderStyle := style props;
     borderColor := if given_color (color props) then color props else borderColor s;
     borderWidth := if given_width (width props) then width props else borderWidth s |}.

Definition setBorder (props : BorderProps) (this : t) : M t :=
  update (assign_border props) this.

(** [getSlideObject] returns the internal slide object itself. *)
Definition getSlideObject (this : t) : loc := this.

End Slide.

(** ** class Presentation *)

Inductive Transition := transition_fade | transition_slide | transition_zoom | transition_none.

Definition transitionName (t : Transition) : string :=
  match t with
  | transition_fade => "fade"
  | transition_slide => "slide"
  | transition_zoom => "zoom"
  | transition_none => "none"
  end.

(** An optional property of a typed argument, as the value read from it. *)
Definition reading {A} (f : A -> JsVal) (o : option A) : JsVal :=
  match o with
  | Some a => f a
  | None => VUndef
  end.

(** Truthiness of an optional array: an array is truthy, also when empty;
    an absent property is [undefined]. *)
Definition given {A} (o : option A) : bool :=
  match o with
  | Some _ => true
  | None => false
  end.

(** [(string | number)] cells of a CSV row. *)
Inductive Cell :=
  | CellStr (s : string)
  | CellNum (n : JsNum).

Definition cellVal (c : Cell) : JsVal :=
  match c with
  | CellStr s => VStr s
  | CellNum n => VNum n
  end.

(** [cell => { const trimmed = cell.trim();
               return isNaN(Number(trimmed)) ? trimmed : Number(trimmed); }] *)
Definition coerceCell (cell : string) : Cell :=
  let trimmed := trim cell in
  if isNaN (Number trimmed) then CellStr trimmed else CellNum (Number trimmed).

(** [line => line.trim() !== ''] *)
Definition nonBlank (line : string) : bool := str_truthy (trim line).

Definition newline : ascii := ascii_of_N 10.

(** The three derivations of [addCsv] from [content]. *)
Definition csvLines (content : string) : list string :=
  List.filter nonBlank (split newline content).

Definition csvHeaders (lines : list string) : list string :=
  match lines with
  | l0 :: _ => List.map trim (split "," l0)
  | [] => []
  end.

Definition csvRows (lines : list string) : list (list Cell) :=
  List.map (fun line => List.map coerceCell (split "," line)) (skipn 1 lines).

Module Presentation.

Record t := {
  mediaQueue : list JsObject;
  sources : list JsObject;
}.

Definition new : t := {| mediaQueue := []; sources := [] |}.

Definition addMediaItem (item : JsObject) (this : t) : M t :=
  let! i := generateId in
  ret {| mediaQueue :=
           mediaQueue this ++
             [<["transition" := or_else (get item "transition") (str "fade")]>
                (<["id" := str i]> item)];
         sources := sources this |}.

Definition addPdf (props : JsObject) (this : t) : M t :=
  addMediaItem
    (spread (list_to_map [("type", str "pdf"); ("currentPage", num 1)]) props) this.

Definition addImage (props : JsObject) (this : t) : M t :=
  addMediaItem (spread {[ "type" := str "image" ]} props) this.

(** [props: { name: string; url: string; notes?: string; transition?: ... }]
    is the caller's object: its [url] is a string, and [yt_others] holds every
    other property the object carries, declared or not.  The spread
    [...props] copies them all. *)
Record YouTubeProps := {
  yt_url : string;
  yt_others : JsObject;
}.

Definition youTubeObject (props : YouTubeProps) : JsObject :=
  <["url" := str (yt_url props)]> (yt_others props).

(** [{ type: 'youtube', embedUrl, ...props }] *)
Definition addYouTube (props : YouTubeProps) (this : t) : M t :=
  match getYouTubeEmbedUrl (yt_url props) with
  | Some embedUrl =>
      addMediaItem
        (spread (list_to_map [("type", str "youtube"); ("embedUrl", str embedUrl)])
                (youTubeObject props)) this
  | None =>
      warn ("Invalid YouTube URL provided, skipping: " ++ yt_url props) ;;
      ret this
  end.

Definition addVideo (props : JsObject) (this : t) : M t :=
  addMediaItem
    (spread (list_to_map
               [("type", str "video"); ("startTime", num 0); ("timestamps", VArr [])])
            props) this.

Definition addOfficeFile (props : JsObject) (this : t) : M t :=
  addMediaItem (spread {[ "type" := str "office" ]} props) this.

Definition addUrl (props : JsObject) (this : t) : M t :=
  addMediaItem (spread {[ "type" := str "url" ]} props) this.

(** The queued item holds what [getSlideObject] returns: the reference. *)
Definition addSlide (slide : Slide.t) (this : t) : M t :=
  let! h := get_store in
  addMediaItem
    (list_to_map
       [("type", str "created-slide");
        ("name", reading (fun s => str (title s)) (h !! Slide.getSlideObject slide));
        ("slide", VRef (Slide.getSlideObject slide))]) this.

Definition addSource (source : JsObject) (this : t) : M t :=
  let! i := generateId in
  ret {| mediaQueue := mediaQueue this;
         sources := sources this ++ [<["id" := str i]> source] |}.

Definition addQuiz (quizData : JsObject) (this : t) : M t :=
  let! i := generateId in
  addMediaItem
    (list_to_map
       [("type", str "quiz");
        ("name", get quizData "title");
        ("quiz", VObj (<["id" := str i]> quizData))]) this.

Definition addCodeProject (projectData : JsObject) (this : t) : M t :=
  let! i := generateId in
  addMediaItem
    (list_to_map
       [("type", str "code-project");
        ("name", get projectData "title");
        ("project", VObj (<["id" := str i]> projectData));
        ("viewMode", str "overview")]) this.

Definition addCodeFile (fileData : JsObject) (this : t) : M t :=
  addMediaItem
    (spread (list_to_map [("type", str "code-file"); ("name", get fileData "name")])
            fileData) this.

(** [{ name; content?; headers?; rows?; notes?; transition? }] *)
Record CsvData := {
  csv_name : string;
  csv_content : option string;
  csv_headers : option (list string);
  csv_rows : option (list (list Cell));
  csv_notes : option string;
  csv_transition : option Transition;
}.

Section Csv.

(** [row.join(',')] prints the numbers of a row with Number::toString, the
    shortest decimal that reads back as the number: the printer is a
    parameter. *)
Variable numberToString : JsNum -> string.

Definition cellToString (c : Cell) : string :=
  match c with
  | CellStr s => s
  | CellNum n => numberToString n
  end.

Definition csvContent (headers : list string) (rows : list (list Cell)) : string :=
  join (String newline "")
       (join "," headers :: List.map (fun row => join "," (List.map cellToString row)) rows).

Definition csvItem (csvData : CsvData) (headers : list string)
    (rows : list (list Cell)) (content : string) : JsObject :=
  list_to_map
    [("type", str "csv");
     ("name", str (csv_name csvData));
     ("headers", VArr (List.map VStr headers));
     ("rows", VArr (List.map (fun row => VArr (List.map cellVal row)) rows));
     ("content", str content);
     ("notes", reading str (csv_notes csvData));
     ("transition", reading (fun x => str (transitionName x)) (csv_transition csvData))].

Definition addCsv (csvData : CsvData) (this : t) : M t :=
  if negb (from_option str_truthy false (csv_content csvData))
     && negb (given (csv_rows csvData))
  then
    warn "CSV item requires either content (raw string) or rows/headers." ;;
    ret this
  else
    let headers := default [] (csv_headers csvData) in
    let rows := default [] (csv_rows csvData) in
    let content := default "" (csv_content csvData) in
    if str_truthy content
       && (negb (given (csv_headers csvData)) || negb (given (csv_rows csvData)))
    then
      let lines := csvLines content in
      addMediaItem (csvItem csvData (csvHeaders lines) (csvRows lines) content) this
    else if (0 <? List.length rows)%nat && negb (str_truthy content) then
      addMediaItem (csvItem csvData headers rows (csvContent headers rows)) this
    else
      addMediaItem (csvItem csvData headers rows content) this.

End Csv.

Definition qrDefaults : JsObject :=
  list_to_map
    [("description", str "Scan the code"); ("backgroundColor", str "#FFFFFF");
     ("scanCount", num 0); ("qrOptions", VObj ∅)].

Definition addQrCode (qrCodeData : JsObject) (this : t) : M t :=
  addMediaItem
    (spread (spread (list_to_map [("type", str "qr-code"); ("name", get qrCodeData "title")])
                    qrDefaults)
            qrCodeData) this.

(** What a reader of the queue (such as [toJSON]) finds under the [slide]
    property of an item: the slide object the reference leads to. *)
Definition queuedSlide (w : World) (item : JsObject) : option PresentationSlide :=
  match item !! "slide" with
  | Some (VRef l) => store w !! l
  | _ => None
  end.

End Presentation.

(** ** Vocabulary of the statements *)

(** What distinguishes two calls of [generateId]: the clock reading and the
    nine digits kept of the random number. *)
Definition idKey (w : World) (k : nat) : N * string :=
  (clock w k, substr 2 9 (random w k)).

Definition notDash (c : ascii) : bool := negb (Ascii.eqb c "-").

(** Two calls in the same millisecond whose random numbers agree on the
    nine digits that [substr(2, 9)] keeps. *)
Definition sameMillisecond : World :=
  {| clock := fun _ => 1793000000000%N;
     random := fun k => match k with O => "0.4fzyo82mvyr" | _ => "0.4fzyo82mvzz" end;
     draws := 0;
     store := ∅;
     console := [] |}.

(** [slide.setBorder(p1).setBorder(p2)...]: a chain of calls on one slide. *)
Fixpoint setBorders (calls : list Slide.BorderProps) (this : Slide.t) : M Slide.t :=
  match calls with
  | [] => ret this
  | p :: ps => let! s := Slide.setBorder p this in setBorders ps s
  end.

(** The slide of a chain of [setBorder] calls, call by call. *)
Definition borders (calls : list Slide.BorderProps) (s : PresentationSlide)
  : PresentationSlide :=
  fold_left (fun s p => Slide.assign_border p s) calls s.

Definition solid (c : option string) (n : option JsNum) : Slide.BorderProps :=
  {| Slide.style := Some border_solid; Slide.color := c; Slide.width := n |}.

Definition ants : Slide.BorderProps :=
  {| Slide.style := Some border_ants; Slide.color := None; Slide.width := None |}.

(** A world with nothing in it, at a fixed instant. *)
Definition emptyWorld : World :=
  {| clock := fun _ => 1793000000000%N;
     random := fun _ => "0.4fzyo82mvyr";
     draws := 0;
     store := ∅;
     console := [] |}.

(** C7 read literally: a call overwrites color and width whenever it
    carries them. *)
Definition overwritesWhenProvided (p : Slide.BorderProps)
    (before after : PresentationSlide) : Prop :=
  borderStyle after = Slide.style p
  /\ borderColor after = from_option Some (borderColor before) (Slide.color p)
  /\ borderWidth after = from_option Some (borderWidth before) (Slide.width p).

Definition noColor (q : Slide.BorderProps) : Prop :=
  Slide.given_color (Slide.color q) = false.

Definition noWidth (q : Slide.BorderProps) : Prop :=
  Slide.given_width (Slide.width q) = false.

(** The element builders that merge [props] over a table of defaults. *)
Inductive MergedKind := kind_text | kind_image | kind_math | kind_shape.

Definition kindName (t : MergedKind) : string :=
  match t with
  | kind_text => "text"
  | kind_image => "image"
  | kind_math => "math"
  | kind_shape => "shape"
  end.

Definition build (t : MergedKind) : JsObject -> Slide.t -> M Slide.t :=
  match t with
  | kind_text => Slide.addText
  | kind_image => Slide.addImage
  | kind_math => Slide.addMath
  | kind_shape => Slide.addShape
  end.

(** The table of defaults of section 4.2 of the specification, row by row. *)
Definition tableDefaults (t : MergedKind) : list (string * JsVal) :=
  match t with
  | kind_text =>
      [("content", str "New Text"); ("x", num 10); ("y", num 10);
       ("width", num 300); ("height", num 50); ("fontSize", num 24);
       ("color", str "#000000"); ("fontFamily", str "Alegreya");
       ("animation", str "none")]
  | kind_image =>
      [("src", str "https://placehold.co/300x200.png"); ("x", num 10);
       ("y", num 10); ("width", num 300); ("height", num 200)]
  | kind_math =>
      [("content", str "E = mc^2"); ("x", num 10); ("y", num 10);
       ("width", num 200); ("height", num 60); ("fontSize", num 24);
       ("color", str "#000000")]
  | kind_shape =>
      [("shape", str "rectangle"); ("x", num 10); ("y", num 10);
       ("width", num 150); ("height", num 100); ("strokeColor", str "#000000");
       ("strokeWidth", num 2); ("fillColor", str "transparent")]
  end.

Definition tableCharacter : list (string * JsVal) :=
  [("character", str "char1"); ("x", num 50); ("y", num 350);
   ("width", num 150); ("height", num 200)].

(** Lookup in a table of the specification. *)
Fixpoint tableLookup (k : string) (table : list (string * JsVal)) : option JsVal :=
  match table with
  | [] => None
  | (k', v) :: rest => if String.eqb k k' then Some v else tableLookup k rest
  end.

(** The identifier [generateId] hands out at its [k]-th call. *)
Definition idAt (w : World) (k : nat) : string := make_id (clock w k) (random w k).

(** [e] is [props] laid over the defaults [table], with identifier [i] and
    discriminant [t] set by the builder. *)
Definition mergedOver (table : string -> option JsVal) (props e : JsObject)
    (i t : string) : Prop :=
  e !! "id" = Some (str i)
  /\ e !! "type" = Some (str t)
  /\ forall k : string, k <> "id" -> k <> "type" ->
       e !! k = match props !! k with
                | Some v => Some v
                | None => table k
                end.

(** A destructured property: its value when the caller gave one other than
    [undefined], the default otherwise. *)
Definition givenOr (props : JsObject) (k : string) (d : JsVal) (v : JsVal) : Prop :=
  match props !! k with
  | None | Some VUndef => v = d
  | Some x => v = x
  end.

(** The one element a builder call appends to the slide at [this]. *)
Definition appendsElement (w w' : World) (this : Slide.t) (e : JsObject) : Prop :=
  exists s : PresentationSlide,
    store w !! this = Some s /\ store w' !! this = Some (Slide.push_element e s).

(** The default action of a character, and the defaults of a character
    with it. *)
Definition defaultAction (i : string) : JsObject :=
  list_to_map [("id", str i); ("type", str "text"); ("text", str "Hello!")].

Definition characterTable (actionId : string) (k : string) : option JsVal :=
  if String.eqb k "actions" then Some (VArr [VObj (defaultAction actionId)])
  else tableLookup k tableCharacter.

(** What [addSticker] builds from [props]. *)
Definition stickerOf (props e : JsObject) (i : string) : Prop :=
  exists size rotation : JsVal,
    givenOr props "size" (num 100) size
    /\ givenOr props "rotation" (num 0) rotation
    /\ e !! "id" = Some (str i)
    /\ e !! "type" = Some (str "sticker")
    /\ e !! "content" = Some (get props "content")
    /\ e !! "x" = Some (get props "x")
    /\ e !! "y" = Some (get props "y")
    /\ e !! "width" = Some size
    /\ e !! "height" = Some size
    /\ e !! "fontSize" = Some size
    /\ e !! "rotation" = Some rotation.

(** Properties a script passes to [addText], with an [id] and a [type] of
    its own. *)
Definition welcomeProps : JsObject :=
  list_to_map
    [("content", str "Welcome"); ("fontSize", num 60);
     ("id", str "mine"); ("type", str "image")].

(** C1 read literally: the slide found under a queued item is the same
    before and after a later step of the script. *)
Definition snapshotKept (item : JsObject) (before after : World) : Prop :=
  Presentation.queuedSlide after item = Presentation.queuedSlide before item.

(** A world [w] with [n] more identifiers drawn. *)
Definition drawn (n : nat) (w : World) : World :=
  {| clock := clock w; random := random w; draws := n + draws w;
     store := store w; console := console w |}.

(** The item [addMediaItem] queues for a payload. *)
Definition queuedItem (item : JsObject) (i : string) : JsObject :=
  <["transition" := or_else (get item "transition") (str "fade")]>
    (<["id" := str i]> item).

(** The objects of an array, the questions of a quiz, the answer options
    of a question, and whether each of them has an identifier. *)
Definition objectsOf (v : JsVal) : list JsObject :=
  match v with
  | VArr l => omap (fun x => match x with VObj o => Some o | _ => None end) l
  | _ => []
  end.

Definition questionsOf (quiz : JsObject) : list JsObject :=
  objectsOf (get quiz "questions").

Definition optionsOf (question : JsObject) : list JsObject :=
  objectsOf (get question "options").

Definition hasId (o : JsObject) : bool :=
  match o !! "id" with Some _ => true | None => false end.

Definition fullyIdentified (quiz : JsObject) : bool :=
  forallb (fun q => hasId q && forallb hasId (optionsOf q)) (questionsOf quiz).

(** The quiz of the README: no identifier on its question or options. *)
Definition popQuiz : JsObject :=
  list_to_map
    [("title", str "Pop Quiz!");
     ("questions",
      VArr [VObj (list_to_map
                    [("type", str "multiple-choice");
                     ("questionText", str "Is scripting cool?");
                     ("timer", num 15);
                     ("options",
                      VArr [VObj (list_to_map
                                    [("text", str "Yes!"); ("isCorrect", VBool true)]);
                            VObj (list_to_map
                                    [("text", str "Absolutely!");
                                     ("isCorrect", VBool true)])])])])].

(** A world after one line of [console.warn]. *)
Definition warned (msg : string) (w : World) : World :=
  {| clock := clock w; random := random w; draws := draws w;
     store := store w; console := (console w ++ [msg])%list |}.

(** A presentation after one more item. *)
Definition queued (item : JsObject) (this : Presentation.t) : Presentation.t :=
  {| Presentation.mediaQueue := (Presentation.mediaQueue this ++ [item])%list;
     Presentation.sources := Presentation.sources this |}.

(** The derivation of C3 in the words of the claim: the lines of the
    content that are not blank, the first one split at commas and trimmed,
    and each cell of the later ones as a number when it parses as one. *)
Definition derivedLines (content : string) : list string :=
  List.filter (fun line => negb (String.eqb (trim line) "")) (split newline content).

Definition derivedHeaders (content : string) : list JsVal :=
  match derivedLines content with
  | first :: _ => List.map (fun h => VStr (trim h)) (split "," first)
  | [] => []
  end.

Definition derivedCell (cell : string) : JsVal :=
  match Number (trim cell) with
  | NaN => VStr (trim cell)
  | n => VNum n
  end.

Definition derivedRows (content : string) : list JsVal :=
  List.map (fun line => VArr (List.map derivedCell (split "," line)))
           (List.tl (derivedLines content)).

(** C3 read literally: the call queues one csv item whose headers and rows
    are the ones derived from the content. *)
Definition queuesDerived (numberToString : JsNum -> string) (d : Presentation.CsvData)
    (this : Presentation.t) (w : World) (content : string) : Prop :=
  exists item : JsObject,
    Presentation.mediaQueue (Presentation.addCsv numberToString d this w).1
    = (Presentation.mediaQueue this ++ [item])%list
    /\ item !! "headers" = Some (VArr (derivedHeaders content))
    /\ item !! "rows" = Some (VArr (derivedRows content)).

(** The argument of [addCsv] without its [headers] and [rows]. *)
Definition contentOnly (d : Presentation.CsvData) : Presentation.CsvData :=
  {| Presentation.csv_name := Presentation.csv_name d;
     Presentation.csv_content := Presentation.csv_content d;
     Presentation.csv_headers := None;
     Presentation.csv_rows := None;
     Presentation.csv_notes := Presentation.csv_notes d;
     Presentation.csv_transition := Presentation.csv_transition d |}.

Definition csvOf (name0 : string) (content : option string)
    (headers : option (list string)) (rows : option (list (list Cell)))
  : Presentation.CsvData :=
  {| Presentation.csv_name := name0;
     Presentation.csv_content := content;
     Presentation.csv_headers := headers;
     Presentation.csv_rows := rows;
     Presentation.csv_notes := None;
     Presentation.csv_transition := None |}.

Definition lines3 (a b c : string) : string :=
  a ++ String newline (b ++ String newline c).

(** The language of a regular expression: [matchedBy r m cap cap'] says
    that [r] matches exactly the text [m] and takes capture group 1 from
    [cap] to [cap']. *)
Fixpoint repeated (step : string -> option string -> option string -> Prop)
    (n : nat) (m : string) (cap cap' : option string) : Prop :=
  match n with
  | O => m = "" /\ cap' = cap
  | S n' =>
      exists (m1 m2 : string) (c1 : option string),
        m = m1 ++ m2 /\ step m1 cap c1 /\ repeated step n' m2 c1 cap'
  end.

Fixpoint matchedBy (r : Regex) (m : string) (cap cap' : option string) : Prop :=
  match r with
  | Eps => m = "" /\ cap' = cap
  | Chr c => m = String c "" /\ cap' = cap
  | Cls f => exists a : ascii, f a = true /\ m = String a "" /\ cap' = cap
  | Cat r1 r2 =>
      exists (m1 m2 : string) (c1 : option string),
        m = m1 ++ m2 /\ matchedBy r1 m1 cap c1 /\ matchedBy r2 m2 c1 cap'
  | Alt r1 r2 => matchedBy r1 m cap cap' \/ matchedBy r2 m cap cap'
  | Opt r1 => matchedBy r1 m cap cap' \/ (m = "" /\ cap' = cap)
  | Times n r1 => repeated (matchedBy r1) n m cap cap'
  | Grp r1 => exists c1 : option string, matchedBy r1 m cap c1 /\ cap' = Some m
  end.

(** A YouTube address as the README writes it. *)
Definition watchUrl : string := "https://www.youtube.com/watch?v=dQw4w9WgXcQ".

Definition youTube (url : string) : Presentation.YouTubeProps :=
  {| Presentation.yt_url := url;
     Presentation.yt_others := {[ "name" := str "Next.js Conf" ]} |}.

(** The same address in an object that carries a kind and a player address
    of its own. *)
Definition ownPlayer : Presentation.YouTubeProps :=
  {| Presentation.yt_url := watchUrl;
     Presentation.yt_others :=
       list_to_map
         [("name", str "Next.js Conf"); ("type", str "video");
          ("embedUrl", str "https://example.com/player")] |}.

(** C2 read literally: the call queues one item of kind youtube whose
    [embedUrl] is the nocookie embed address of the id [v]. *)
Definition embedsVideo (props : Presentation.YouTubeProps) (this : Presentation.t)
    (w : World) (v : string) : Prop :=
  exists item : JsObject,
    Presentation.mediaQueue (Presentation.addYouTube props this w).1
    = (Presentation.mediaQueue this ++ [item])%list
    /\ item !! "type" = Some (str "youtube")
    /\ item !! "embedUrl" = Some (str ("https://www.youtube-nocookie.com/embed/" ++ v)).

(** The properties the library writes into a youtube item. *)
Definition youTubeKeys : list string := ["type"; "embedUrl"; "url"; "id"; "transition"].

(** ** Chains of calls

    A script is a chain of method calls on one slide or on one
    presentation; the calls below name the methods with their arguments. *)

Inductive SlideCall :=
  | call_addText (props : JsObject)
  | call_addImage (props : JsObject)
  | call_addSticker (props : JsObject)
  | call_addMath (props : JsObject)
  | call_addShape (props : JsObject)
  | call_addCharacter (props : JsObject)
  | call_setBackgroundColor (color : string)
  | call_setBackgroundImageUrl (url : string)
  | call_setBorder (props : Slide.BorderProps).

Definition callSlide (c : SlideCall) : Slide.t -> M Slide.t :=
  match c with
  | call_addText props => Slide.addText props
  | call_addImage props => Slide.addImage props
  | call_addSticker props => Slide.addSticker props
  | call_addMath props => Slide.addMath props
  | call_addShape props => Slide.addShape props
  | call_addCharacter props => Slide.addCharacter props
  | call_setBackgroundColor color => Slide.setBackgroundColor color
  | call_setBackgroundImageUrl url => Slide.setBackgroundImageUrl url
  | call_setBorder props => Slide.setBorder props
  end.

(** [slide.m1(a1).m2(a2)...] *)
Fixpoint chainSlide (calls : list SlideCall) (this : Slide.t) : M Slide.t :=
  match calls with
  | [] => ret this
  | c :: rest => let! s := callSlide c this in chainSlide rest s
  end.

(** The discriminant of the element a call builds, if it builds one. *)
Definition builtType (c : SlideCall) : option string :=
  match c with
  | call_addText _ => Some "text"
  | call_addImage _ => Some "image"
  | call_addSticker _ => Some "sticker"
  | call_addMath _ => Some "math"
  | call_addShape _ => Some "shape"
  | call_addCharacter _ => Some "gamification"
  | _ => None
  end.

(** How many identifiers a call draws. *)
Definition idsDrawn (c : SlideCall) : nat :=
  match c with
  | call_addCharacter _ => 2
  | call_setBackgroundColor _ | call_setBackgroundImageUrl _ | call_setBorder _ => 0
  | _ => 1
  end.

Definition typeOf (e : JsObject) : option JsVal := e !! "type".

Section PresentationCalls.

Variable numberToString : JsNum -> string.

Inductive Call :=
  | call_addMediaItem (item : JsObject)
  | call_addPdf (props : JsObject)
  | call_addImageItem (props : JsObject)
  | call_addYouTube (props : Presentation.YouTubeProps)
  | call_addVideo (props : JsObject)
  | call_addOfficeFile (props : JsObject)
  | call_addUrl (props : JsObject)
  | call_addSlide (slide : Slide.t)
  | call_addSource (source : JsObject)
  | call_addQuiz (quizData : JsObject)
  | call_addCodeProject (projectData : JsObject)
  | call_addCodeFile (fileData : JsObject)
  | call_addCsv (csvData : Presentation.CsvData)
  | call_addQrCode (qrCodeData : JsObject).

Definition callPresentation (c : Call) : Presentation.t -> M Presentation.t :=
  match c with
  | call_addMediaItem item => Presentation.addMediaItem item
  | call_addPdf props => Presentation.addPdf props
  | call_addImageItem props => Presentation.addImage props
  | call_addYouTube props => Presentation.addYouTube props
  | call_addVideo props => Presentation.addVideo props
  | call_addOfficeFile props => Presentation.addOfficeFile props
  | call_addUrl props => Presentation.addUrl props
  | call_addSlide slide => Presentation.addSlide slide
  | call_addSource source => Presentation.addSource source
  | call_addQuiz quizData => Presentation.addQuiz quizData
  | call_addCodeProject projectData => Presentation.addCodeProject projectData
  | call_addCodeFile fileData => Presentation.addCodeFile fileData
  | call_addCsv csvData => Presentation.addCsv numberToString csvData
  | call_addQrCode qrCodeData => Presentation.addQrCode qrCodeData
  end.

(** [pres.m1(a1).m2(a2)...] *)
Fixpoint chainPresentation (calls : list Call) (this : Presentation.t)
  : M Presentation.t :=
  match calls with
  | [] => ret this
  | c :: rest => let! p := callPresentation c this in chainPresentation rest p
  end.

End PresentationCalls.

(** A presentation after one more source. *)
Definition sourced (source : JsObject) (this : Presentation.t) : Presentation.t :=
  {| Presentation.mediaQueue := Presentation.mediaQueue this;
     Presentation.sources := (Presentation.sources this ++ [source])%list |}.

(** An object carries a non-empty string under [id]. *)
Definition identified (o : JsObject) : Prop :=
  exists i : string, o !! "id" = Some (VStr i) /\ i <> "".

(** A queued item carries an identifier and a truthy transition. *)
Definition wellFormedItem (item : JsObject) : Prop :=
  identified item /\ truthy (get item "transition") = true.

(** The appearance of a slide: background and border. *)
Definition appearance (s : PresentationSlide)
  : option string * option string * option BorderStyle * option string * option JsNum :=
  (backgroundColor s, backgroundImageUrl s, borderStyle s, borderColor s, borderWidth s).

(** The world after a call on a slide: [n] identifiers drawn and [f]
    applied to the slide at [this]. *)
Definition slideStep (n : nat) (f : PresentationSlide -> PresentationSlide)
    (this : Slide.t) (w : World) : World :=
  {| clock := clock w; random := random w; draws := n + draws w;
     store := alter f this (store w); console := console w |}.

(** The calls of the README on its title slide. *)
Definition rocket : JsObject :=
  list_to_map [("content", str "R"); ("x", num 850); ("y", num 50); ("size", num 80)].

Definition readmeChain : list SlideCall :=
  [call_setBackgroundColor "#5B8E7D"; call_setBorder ants;
   call_addText welcomeProps; call_addSticker rocket].

(** The wrappers of [addMediaItem] that spread their argument over a
    base object, and the base each one writes before the spread. *)
Inductive WrapperKind :=
  | wrap_pdf | wrap_image | wrap_video | wrap_office | wrap_url
  | wrap_codeFile | wrap_qrCode.

Definition wrapper (kind : WrapperKind) : JsObject -> Presentation.t -> M Presentation.t :=
  match kind with
  | wrap_pdf => Presentation.addPdf
  | wrap_image => Presentation.addImage
  | wrap_video => Presentation.addVideo
  | wrap_office => Presentation.addOfficeFile
  | wrap_url => Presentation.addUrl
  | wrap_codeFile => Presentation.addCodeFile
  | wrap_qrCode => Presentation.addQrCode
  end.

Definition wrapperBase (kind : WrapperKind) (data : JsObject) : list (string * JsVal) :=
  match kind with
  | wrap_pdf => [("type", str "pdf"); ("currentPage", num 1)]
  | wrap_image => [("type", str "image")]
  | wrap_video => [("type", str "video"); ("startTime", num 0); ("timestamps", VArr [])]
  | wrap_office => [("type", str "office")]
  | wrap_url => [("type", str "url")]
  | wrap_codeFile => [("type", str "code-file"); ("name", get data "name")]
  | wrap_qrCode =>
      [("type", str "qr-code"); ("name", get data "title");
       ("description", str "Scan the code"); ("backgroundColor", str "#FFFFFF");
       ("scanCount", num 0); ("qrOptions", VObj ∅)]
  end.

(** A QR code slide as the README adds it. *)
Definition scanMe : JsObject :=
  list_to_map
    [("title", str "Scan Me!");
     ("description", str "Learn more about Visually Script.");
     ("url", str "https://github.com/your-repo/visually-script")].

(** What one call on a presentation comes to: one item queued, one source
    listed, or one warning written. *)
Inductive Outcome (this : Presentation.t) (w : World) : Presentation.t * World -> Prop :=
  | outcome_item (item : JsObject) (n : nat) :
      wellFormedItem item -> Outcome this w (queued item this, drawn n w)
  | outcome_source (source : JsObject) :
      identified source -> Outcome this w (sourced source this, drawn 1 w)
  | outcome_warning (msg : string) :
      Outcome this w (this, warned msg w).

(** A script on a presentation: media of several kinds, an invalid
    address, a source and a table without data. *)
Definition sampleScript : list Call :=
  [call_addImageItem (list_to_map [("name", str "A beautiful landscape")]);
   call_addYouTube (youTube "not-a-url");
   call_addYouTube (youTube watchUrl);
   call_addSource (list_to_map [("title", str "Visually Script Documentation")]);
   call_addCsv (csvOf "t" None None None);
   call_addQuiz popQuiz].

(** Texts that survive a trip through a line of CSV: trimmed, not empty,
    without comma or line feed; a text cell is moreover not a number. *)
Definition noneOf (c : ascii) (s : string) : bool :=
  allChars (fun a => negb (Ascii.eqb a c)) s.

Definition cleanText (s : string) : bool :=
  String.eqb (trim s) s && str_truthy s && noneOf "," s && noneOf newline s.

Definition textCell (s : string) : bool := cleanText s && isNaN (Number s).

Definition textTable (headers : list string) (rows : list (list string)) : bool :=
  given (head headers) && forallb cleanText headers
  && forallb (fun row => given (head row) && forallb textCell row) rows.

(** A table of texts. *)
Definition peopleHeaders : list string := ["name"; "city"].

Definition peopleRows : list (list string) :=
  [["Ada"; "London"]; ["Alan"; "Wilmslow"]].

(** The cells of the queue for rows and headers of the argument. *)
Definition rowsVal (rows : list (list Cell)) : JsVal :=
  VArr (List.map (fun row => VArr (List.map cellVal row)) rows).

Definition headersVal (headers : list string) : JsVal := VArr (List.map VStr headers).

(** The address of the privacy-enhanced player, the prefix of every
    [embedUrl]. *)
Definition embedPrefix : string := "https://www.youtube-nocookie.com/embed/".

(** The digits of base 36: [0-9a-z]. *)
Definition isBase36 (c : ascii) : bool :=
  let k := N_of_ascii c in
  ((48 <=? k) && (k <=? 57) || (97 <=? k) && (k <=? 122))%N.


(** The same text with Windows line ends: a carriage return before every
    line feed. *)
Definition carriageReturn : ascii := ascii_of_N 13.

Fixpoint crlf (s : string) : string :=
  match s with
  | EmptyString => EmptyString
  | String c s' =>
      if Ascii.eqb c newline then String carriageReturn (String newline (crlf s'))
      else String c (crlf s')
  end.

(** A function applied to the last element of a list, and to all but the
    last. *)
Fixpoint mapLast {A} (f : A -> A) (l : list A) : list A :=
  match l with
  | [] => []
  | [x] => [f x]
  | x :: rest => x :: mapLast f rest
  end.

Fixpoint mapInit {A} (f : A -> A) (l : list A) : list A :=
  match l with
  | [] => []
  | [x] => [x]
  | x :: rest => f x :: mapInit f rest
  end.

(** The cells of a line, trimmed, and a trimmed cell made a number or kept
    a text. *)
Definition trimmedCells (line : string) : list string :=
  List.map trim (split "," line).

Definition coerceTrimmed (t : string) : Cell :=
  if isNaN (Number t) then CellStr t else CellNum (Number t).

(** The property names of a sticker. *)
Definition stickerKeys : list string :=
  ["id"; "type"; "content"; "x"; "y"; "width"; "height"; "fontSize"; "rotation"].

(** A sticker passed a width, a height and an animation of its own. *)
Definition wideRocket : JsObject :=
  list_to_map
    [("content", str "R"); ("x", num 850); ("y", num 50); ("size", num 80);
     ("width", num 500); ("height", num 10); ("animation", str "bounce")].

(** ** Construction operations

    Every operation of the library that builds something: [new Slide], a
    call on a slide, a call on a presentation.  A script is a list of them,
    run on one presentation and the slides of the store. *)

Inductive Construction :=
  | new_Slide (title : string) (backgroundColor : option string)
  | on_Slide (slide : Slide.t) (c : SlideCall)
  | on_Presentation (c : Call).

(** The identifier of an object, and of the object under a property. *)
Definition idOf (o : JsObject) : JsVal := get o "id".

Definition idUnder (k : string) (o : JsObject) : list JsVal :=
  match o !! k with
  | Some (VObj inner) => [idOf inner]
  | _ => []
  end.

(** What a step has appended: the elements of the slide at [l], the items
    of the queue, the sources. *)
Definition newElements (l : loc) (w w' : World) : list JsObject :=
  match store w !! l, store w' !! l with
  | Some s, Some s' => drop (List.length (elements s)) (elements s')
  | _, _ => []
  end.

Definition newItems (this this' : Presentation.t) : list JsObject :=
  drop (List.length (Presentation.mediaQueue this)) (Presentation.mediaQueue this').

Definition newSources (this this' : Presentation.t) : list JsObject :=
  drop (List.length (Presentation.sources this)) (Presentation.sources this').

Section Constructions.

Variable numberToString : JsNum -> string.

Definition construct (op : Construction) (this : Presentation.t) : M Presentation.t :=
  match op with
  | new_Slide title backgroundColor => Slide.new title backgroundColor ;; ret this
  | on_Slide slide c => callSlide c slide ;; ret this
  | on_Presentation c => callPresentation numberToString c this
  end.

Fixpoint script (ops : list Construction) (this : Presentation.t) : M Presentation.t :=
  match ops with
  | [] => ret this
  | op :: rest => let! p := construct op this in script rest p
  end.

(** The identifiers an operation assigns, read off what it has built, in
    the order it drew them: the identifier of the new slide; of the new
    element, after that of the default action of a character when the
    caller gave no actions; of the new item, after that of its quiz or its
    project; of the new source. *)
Definition assigned (op : Construction) (this : Presentation.t) (w : World)
  : list JsVal :=
  let (this', w') := construct op this w in
  match op with
  | new_Slide _ _ =>
      match store w' !! fresh (dom (store w)) with
      | Some s => [str (slide_id s)]
      | None => []
      end
  | on_Slide l (call_addCharacter props) =>
      flat_map
        (fun e =>
           (if given (props !! "actions") then []
            else List.map idOf (objectsOf (get e "actions")))
           ++ [idOf e])%list
        (newElements l w w')
  | on_Slide l _ => List.map idOf (newElements l w w')
  | on_Presentation (call_addQuiz _) =>
      flat_map (fun item => idUnder "quiz" item ++ [idOf item])%list (newItems this this')
  | on_Presentation (call_addCodeProject _) =>
      flat_map (fun item => idUnder "project" item ++ [idOf item])%list
        (newItems this this')
  | on_Presentation _ =>
      (List.map idOf (newItems this this') ++ List.map idOf (newSources this this'))%list
  end.

(** The identifiers a script assigns, operation by operation. *)
Fixpoint assignedBy (ops : list Construction) (this : Presentation.t) (w : World)
  : list JsVal :=
  match ops with
  | [] => []
  | op :: rest =>
      (assigned op this w
       ++ let (this', w') := construct op this w in assignedBy rest this' w')%list
  end.

End Constructions.

(** The identifier [generateId] hands out at its [k]-th call is well
    formed: not empty, the clock reading in base 36, a dash, and at most
    nine characters of the random number. *)
Definition wellFormedId (w : World) (k : nat) : Prop :=
  idAt w k <> ""
  /\ idAt w k = toString36 (clock w k) ++ "-" ++ substr 2 9 (random w k)
  /\ String.length (substr 2 9 (random w k)) <= 9.

(** A script that builds one object of each kind: a slide with a text and
    two characters, queued, then a quiz, a code project, a source and an
    image; its border, an unrecognized address and a table without data
    take no identifier. *)
Definition tour : list Construction :=
  [new_Slide "Title Slide" None;
   on_Slide 1%positive (call_addText welcomeProps);
   on_Slide 1%positive (call_setBorder ants);
   on_Slide 1%positive (call_addCharacter ∅);
   on_Slide 1%positive (call_addCharacter {[ "actions" := VArr [] ]});
   on_Presentation (call_addSlide 1%positive);
   on_Presentation (call_addQuiz popQuiz);
   on_Presentation (call_addCodeProject {[ "title" := str "Demo" ]});
   on_Presentation (call_addYouTube (youTube "not-a-url"));
   on_Presentation (call_addCsv (csvOf "t" None None None));
   on_Presentation (call_addSource {[ "title" := str "Docs" ]});
   on_Presentation (call_addImageItem {[ "name" := str "a" ]})].

(** A world whose clock advances by one millisecond at every draw. *)
Definition tickingWorld : World :=
  {| clock := fun k => (1793000000000 + N.of_nat k)%N;
     random := fun _ => "0.4fzyo82mvyr";
     draws := 0;
     store := ∅;
     console := [] |}.

(** The identifiers [ids] were drawn between the worlds [w] and [w']: each
    is what [generateId] returned at a draw of its own, in the order of the
    draws. *)
Definition DrawnBy (w w' : World) (ids : list JsVal) : Prop :=
  exists ks : list nat,
    ids = List.map (fun k => str (idAt w k)) ks
    /\ StronglySorted lt ks
    /\ Forall (fun k => draws w <= k < draws w') ks.

(** * Properties *)

#[local] Arguments String.append !_ _ / : simpl nomatch.

(** ** The built-ins on examples *)

Example toString36_examples :
  List.map toString36 [0; 35; 36; 1000; 1793000000000]%N
  = ["0"; "z"; "10"; "rs"; "mvoxwmbk"].
Proof. reflexivity. Qed.

Example make_id_example :
  make_id 1793000000000 "0.4fzyo82mvyr" = "mvoxwmbk-4fzyo82mv"
  /\ make_id 1793000000000 "0" = "mvoxwmbk-".
Proof. split; reflexivity. Qed.

Example split_examples :
  split "," "" = [""] /\ split "," "a," = ["a"; ""]
  /\ split "," ",a,,b" = [""; "a"; ""; "b"] /\ split "," "ab" = ["ab"].
Proof. repeat split. Qed.

Example trim_examples :
  trim "  a b  " = "a b" /\ trim "   " = "" /\ trim "x" = "x"
  /\ trim (String (ascii_of_N 9) (String "1" (String (ascii_of_N 13) ""))) = "1".
Proof. repeat split. Qed.

Example Number_examples :
  List.map Number
    ["1"; ""; " 12 "; "1.5"; ".5"; "1."; "1e3"; "-2"; "+3"; "00012";
     "0x1F"; "0b101"; "0o17"; "Infinity"; "-Infinity"; "-0"; "0.0"]
  = [int 1; int 0; int 12; Num (3 # 2); Num (1 # 2); int 1; int 1000; int (-2);
     int 3; int 12; int 31; int 5; int 15;
     Infinity false; Infinity true; NegZero; int 0].
Proof. vm_compute. reflexivity. Qed.

(** Rounding: 0.1 and 1E-2 are not binary fractions, 2^53 + 1 is not a
    binary64 value, 1e400 is past the largest one and 1e-400 below the
    smallest. *)
Example Number_rounding_examples :
  List.map Number
    ["0.1"; "1E-2"; "9007199254740993"; "0x20000000000001"; "1e400"; "-1e400";
     "1e-400"; "-1e-400"; "5e-324"; "1.7976931348623157e308";
     "1.7976931348623159e308"]
  = [Num (3602879701896397 # 36028797018963968);
     Num (5764607523034235 # 576460752303423488);
     int 9007199254740992; int 9007199254740992;
     Infinity false; Infinity true; int 0; NegZero;
     Num (Qred (1 # 2 ^ 1074));
     int ((2 ^ 53 - 1) * 2 ^ 971); Infinity false].
Proof. vm_compute. reflexivity. Qed.

Example Number_NaN_examples :
  List.map (fun s => isNaN (Number s))
    ["x"; "1x"; "1e"; "."; "-"; "0x"; "1_0"; "1 2"; "-0x1"; "1,5"; "e5"; "infinity"]
  = List.repeat true 12.
Proof. reflexivity. Qed.

Example getYouTubeEmbedUrl_examples :
  List.map getYouTubeEmbedUrl
    ["https://www.youtube.com/watch?v=dQw4w9WgXcQ"; "youtu.be/dQw4w9WgXcQabc";
     "see http://youtube.com/v/dQw4w9WgX_-&t=1"; "not-a-url";
     "https://www.youtube.com/watch?v=dQw4w9WgXc";
     "https://www.youtube.com/watch?list=x&v=dQw4w9WgXcQ"]
  = [Some "https://www.youtube-nocookie.com/embed/dQw4w9WgXcQ";
     Some "https://www.youtube-nocookie.com/embed/dQw4w9WgXcQ";
     Some "https://www.youtube-nocookie.com/embed/dQw4w9WgX_-";
     None; None; None].
Proof. reflexivity. Qed.

(** ** split and trim *)

Lemma split_not_nil (sep : ascii) (s : string) : split sep s <> [].
Proof.
  destruct s as [|c s]; cbn; [discriminate |].
  destruct (Ascii.eqb c sep); [discriminate |]. destruct (split sep s); discriminate.
Qed.

(** Joining the pieces with the separator gives the text back. *)
Lemma join_split (sep : ascii) (s : string) :
  join (String sep "") (split sep s) = s.
Proof.
  unfold join. induction s as [|c s IH]; [reflexivity |]. cbn [split].
  pose proof (split_not_nil sep s) as Hne.
  destruct (Ascii.eqb_spec c sep) as [-> | Hc].
  - destruct (split sep s) as [|h t]; [congruence |].
    cbn [concat]. cbn. now rewrite <- IH.
  - destruct (split sep s) as [|h t]; [congruence |].
    destruct t as [|h' t]; cbn [concat] in *; cbn; now rewrite <- IH.
Qed.



Lemma trimEnd_head (c : ascii) (s : string) :
  isWhiteSpace c = false -> exists t, trimEnd (String c s) = String c t.
Proof.
  intros Hc. cbn [trimEnd]. destruct (trimEnd s) as [|a t].
  - rewrite Hc. now exists "".
  - now exists (String a t).
Qed.


(** ** The state monad *)

Lemma bind_run {A B} (m : M A) (k : A -> M B) (w : World) :
  bind m k w = k (m w).1 (m w).2.
Proof. unfold bind. destruct (m w); reflexivity. Qed.

(** ** Identifiers *)

Section Strings.

Lemma append_assoc (a b c : string) : (a ++ b) ++ c = a ++ (b ++ c).
Proof. induction a as [|x a IH]; simpl; [reflexivity | now rewrite IH]. Qed.

Lemma append_empty_r (a : string) : a ++ "" = a.
Proof. induction a as [|x a IH]; simpl; [reflexivity | now rewrite IH]. Qed.

Lemma length_append (a b : string) :
  String.length (a ++ b) = String.length a + String.length b.
Proof. induction a as [|x a IH]; simpl; [reflexivity | now rewrite IH]. Qed.

Lemma allChars_append f (a b : string) :
  allChars f (a ++ b) = allChars f a && allChars f b.
Proof.
  induction a as [|x a IH]; simpl; [reflexivity |].
  rewrite IH. now rewrite andb_assoc.
Qed.

End Strings.

Lemma parse36_append (a b : string) (acc : N) :
  parse36 acc (a ++ b) = parse36 (parse36 acc a) b.
Proof. revert acc. induction a as [|x a IH]; intros acc; simpl; [reflexivity | apply IH]. Qed.

Lemma N_of_digit36 (d : N) :
  (d < 36)%N -> N_of_ascii (digit36 d) = if (d <? 10)%N then (48 + d)%N else (87 + d)%N.
Proof.
  intros Hd. unfold digit36. apply N_ascii_embedding.
  destruct (N.ltb_spec d 10); lia.
Qed.

Lemma value36_digit36 (d : N) : (d < 36)%N -> value36 (digit36 d) = d.
Proof.
  intros Hd. unfold value36. rewrite (N_of_digit36 d Hd).
  destruct (N.ltb_spec d 10) as [H|H].
  - destruct (N.ltb_spec (48 + d) 58); lia.
  - destruct (N.ltb_spec (87 + d) 58); lia.
Qed.

Lemma radix36_S (f : nat) (n : N) :
  radix36 (S f) n =
    (if (n <? 36)%N then "" else radix36 f (n / 36)) ++ String (digit36 (n mod 36)) "".
Proof. reflexivity. Qed.

Lemma radix36_parse (f : nat) : forall n : N,
  (n < 2 ^ N.of_nat f)%N -> parse36 0 (radix36 (S f) n) = n.
Proof.
  induction f as [|f IH]; intros n Hn.
  - assert (n = 0%N) by (simpl in Hn; lia). subst n. reflexivity.
  - rewrite radix36_S, parse36_append.
    assert (Hm : (n mod 36 < 36)%N) by (apply N.mod_lt; lia).
    cbn [parse36]. rewrite (value36_digit36 _ Hm).
    destruct (N.ltb_spec n 36) as [Hlt|Hge].
    + cbn [parse36]. rewrite N.mod_small by lia. lia.
    + rewrite IH.
      * pose proof (N.div_mod n 36). lia.
      * rewrite Nat2N.inj_succ, N.pow_succ_r' in Hn.
        apply N.Div0.div_lt_upper_bound. lia.
Qed.

Lemma toString36_parse (n : N) : parse36 0 (toString36 n) = n.
Proof.
  unfold toString36. apply radix36_parse.
  rewrite N2Nat.id. apply N.size_gt.
Qed.

Lemma toString36_inj (m n : N) : toString36 m = toString36 n -> m = n.
Proof.
  intros H. rewrite <- (toString36_parse m), <- (toString36_parse n). now rewrite H.
Qed.

Lemma digit36_notDash (d : N) : (d < 36)%N -> notDash (digit36 d) = true.
Proof.
  intros Hd. unfold notDash. apply negb_true_iff, Ascii.eqb_neq.
  intros E. apply (f_equal N_of_ascii) in E.
  rewrite (N_of_digit36 d Hd) in E. simpl in E.
  destruct (N.ltb_spec d 10); lia.
Qed.

Lemma radix36_notDash (f : nat) : forall n : N, allChars notDash (radix36 f n) = true.
Proof.
  induction f as [|f IH]; intros n; [reflexivity |].
  rewrite radix36_S, allChars_append. cbn [allChars].
  rewrite digit36_notDash by (apply N.mod_lt; lia).
  destruct (n <? 36)%N; [reflexivity |]. now rewrite IH.
Qed.

(** A dash-free prefix is determined by the text up to the first dash. *)
Lemma split_at_dash (a a' b b' : string) :
  allChars notDash a = true -> allChars notDash a' = true ->
  a ++ "-" ++ b = a' ++ "-" ++ b' -> a = a' /\ b = b'.
Proof.
  revert a'. induction a as [|x a IH]; intros [|y a'] Ha Ha' E; simpl in *.
  - now inversion E.
  - inversion E; subst y. discriminate.
  - inversion E; subst x. discriminate.
  - apply andb_prop in Ha as [_ Ha]. apply andb_prop in Ha' as [_ Ha'].
    inversion E; subst y. destruct (IH a' Ha Ha' H1) as [-> ->]. now split.
Qed.

Lemma make_id_inj (t t' : N) (r r' : string) :
  make_id t r = make_id t' r' <-> t = t' /\ substr 2 9 r = substr 2 9 r'.
Proof.
  unfold make_id. split.
  - intros E. apply split_at_dash in E as [Ht Hr]; try apply radix36_notDash.
    split; [now apply toString36_inj | exact Hr].
  - intros [-> ->]. reflexivity.
Qed.

Lemma make_id_nonempty (t : N) (r : string) : make_id t r <> "".
Proof.
  unfold make_id, toString36. rewrite radix36_S.
  destruct (t <? 36)%N; [discriminate |].
  destruct (radix36 _ _); discriminate.
Qed.

Lemma generateId_run (w : World) :
  generateId w =
    (make_id (clock w (draws w)) (random w (draws w)),
     {| clock := clock w; random := random w; draws := S (draws w);
        store := store w; console := console w |}).
Proof. reflexivity. Qed.

Lemma generateIds_run (n : nat) : forall w : World,
  generateIds n w =
    (List.map (fun k => make_id (clock w k) (random w k)) (seq (draws w) n),
     {| clock := clock w; random := random w; draws := n + draws w;
        store := store w; console := console w |}).
Proof.
  induction n as [|n IH]; intros w.
  - destruct w; reflexivity.
  - cbn [generateIds]. rewrite bind_run, generateId_run. cbn [fst snd].
    rewrite bind_run, IH. cbn. do 3 f_equal. lia.
Qed.

Lemma NoDup_map_iff {A B C} (f : A -> B) (g : A -> C) (l : list A) :
  (forall x y, f x = f y <-> g x = g y) ->
  NoDup (List.map f l) <-> NoDup (List.map g l).
Proof.
  intros Hfg. induction l as [|a l IH]; cbn [List.map].
  - split; constructor.
  - rewrite !NoDup_cons, IH, !list_elem_of_In, !in_map_iff.
    assert (Hin : (exists x, f x = f a /\ In x l) <-> (exists x, g x = g a /\ In x l)).
    { split; intros (x & E & Hx); exists x; (split; [apply Hfg, E | exact Hx]). }
    tauto.
Qed.

(** Consecutive calls of [generateId]: [n] calls return [n] non-empty
    strings, pairwise distinct exactly when the calls differ pairwise in the
    clock reading or in the nine random characters kept. *)
Lemma generateId_distinct_iff_keys (w : World) (n : nat) :
  let ids := (generateIds n w).1 in
  List.length ids = n
  /\ Forall (fun i => i <> "") ids
  /\ (NoDup ids <-> NoDup (List.map (idKey w) (seq (draws w) n))).
Proof.
  cbn zeta. rewrite generateIds_run. cbn [fst]. split; [|split].
  - now rewrite length_map, length_seq.
  - apply Forall_forall. intros i Hi. apply list_elem_of_In, in_map_iff in Hi as (k & <- & _).
    apply make_id_nonempty.
  - apply NoDup_map_iff. intros x y. unfold idKey. rewrite make_id_inj.
    split; [intros [-> ->]; reflexivity | intros E; now inversion E].
Qed.

(** C8 fails as stated: two images added in the same millisecond, with
    random numbers that differ only after the ninth digit, receive the same
    identifier. *)
Lemma generateId_collision :
  let p : JsObject := {[ "name" := str "a" ]} in
  let w := sameMillisecond in
  let P1 := (Presentation.addImage p Presentation.new w) in
  let P2 := (Presentation.addImage p P1.1 P1.2) in
  random w 0 <> random w 1
  /\ List.map (fun item => get item "id") (Presentation.mediaQueue P2.1)
     = [str "mvoxwmbk-4fzyo82mv"; str "mvoxwmbk-4fzyo82mv"]
  /\ ~ NoDup (generateIds 2 w).1.
Proof.
  cbn zeta. split; [discriminate | split].
  - vm_compute. reflexivity.
  - intros H. vm_compute in H. apply NoDup_cons in H as [Hx _].
    apply Hx. left.
Qed.

(** ** Slides in the store *)

Lemma update_run (f : PresentationSlide -> PresentationSlide) (this : Slide.t) (w : World) :
  Slide.update f this w = (this, with_store (alter f this (store w)) w).
Proof. reflexivity. Qed.

Lemma setBorders_run (calls : list Slide.BorderProps) (this : Slide.t) : forall w : World,
  setBorders calls this w = (this, with_store (alter (borders calls) this (store w)) w).
Proof.
  induction calls as [|p ps IH]; intros w.
  - cbn. unfold ret, with_store. f_equal. destruct w; cbn. f_equal.
    apply map_eq. intros i. rewrite lookup_alter.
    case_decide; [subst i; destruct (store0 !! this) |]; reflexivity.
  - cbn [setBorders]. rewrite bind_run. unfold Slide.setBorder.
    rewrite update_run. cbn [fst snd]. rewrite IH. unfold with_store; cbn.
    do 2 f_equal. rewrite alter_alter_eq. reflexivity.
Qed.

Lemma borders_snoc (calls : list Slide.BorderProps) (p : Slide.BorderProps) (s : PresentationSlide) :
  borders (calls ++ [p])%list s = Slide.assign_border p (borders calls s).
Proof. unfold borders. now rewrite fold_left_app. Qed.

Lemma borders_app (pre post : list Slide.BorderProps) (s : PresentationSlide) :
  borders (pre ++ post)%list s = borders post (borders pre s).
Proof. unfold borders. now rewrite fold_left_app. Qed.

Lemma borders_color_kept (calls : list Slide.BorderProps) : forall s : PresentationSlide,
  Forall noColor calls ->
  borderColor (borders calls s) = borderColor s.
Proof.
  induction calls as [|p ps IH]; intros s H; [reflexivity |].
  apply Forall_cons in H as [Hp Hps]. unfold borders in *. cbn [fold_left].
  rewrite IH by exact Hps. cbn. now rewrite Hp.
Qed.

Lemma borders_width_kept (calls : list Slide.BorderProps) : forall s : PresentationSlide,
  Forall noWidth calls ->
  borderWidth (borders calls s) = borderWidth s.
Proof.
  induction calls as [|p ps IH]; intros s H; [reflexivity |].
  apply Forall_cons in H as [Hp Hps]. unfold borders in *. cbn [fold_left].
  rewrite IH by exact Hps. cbn. now rewrite Hp.
Qed.

Lemma borders_frame (calls : list Slide.BorderProps) : forall s : PresentationSlide,
  slide_id (borders calls s) = slide_id s
  /\ title (borders calls s) = title s
  /\ elements (borders calls s) = elements s
  /\ backgroundColor (borders calls s) = backgroundColor s
  /\ backgroundImageUrl (borders calls s) = backgroundImageUrl s.
Proof.
  induction calls as [|p ps IH]; intros s; [now repeat split |].
  unfold borders in *. cbn [fold_left].
  destruct (IH (Slide.assign_border p s)) as (-> & -> & -> & -> & ->).
  now repeat split.
Qed.

Lemma new_run (title0 : string) (bg : option string) (w : World) :
  Slide.new title0 bg w =
    (fresh (dom (store w)),
     {| clock := clock w; random := random w; draws := S (draws w);
        store :=
          <[fresh (dom (store w)) :=
              {| slide_id := make_id (clock w (draws w)) (random w (draws w));
                 title := title0;
                 elements := [];
                 backgroundColor := Some (default "#FFFFFF" bg);
                 backgroundImageUrl := None;
                 borderStyle := Some border_none;
                 borderColor := None;
                 borderWidth := None |}]> (store w);
        console := console w |}).
Proof. reflexivity. Qed.

(** C7, as amended: in a chain of [setBorder] calls on a slide the style is
    that of the last call; the color is that of the last call carrying a
    non-empty color, the width that of the last call carrying a width other
    than 0 and NaN, and each keeps the value it had before the chain when no
    call carries one.  Nothing else in the slide changes. *)
Theorem setBorder_chain (calls : list Slide.BorderProps) (this : Slide.t)
    (w : World) (s : PresentationSlide) :
  store w !! this = Some s ->
  exists s' : PresentationSlide,
    store (setBorders calls this w).2 !! this = Some s'
    /\ (forall pre p, calls = (pre ++ [p])%list -> borderStyle s' = Slide.style p)
    /\ (forall pre p post, calls = (pre ++ p :: post)%list ->
          Slide.given_color (Slide.color p) = true -> Forall noColor post ->
          borderColor s' = Slide.color p)
    /\ (Forall noColor calls -> borderColor s' = borderColor s)
    /\ (forall pre p post, calls = (pre ++ p :: post)%list ->
          Slide.given_width (Slide.width p) = true -> Forall noWidth post ->
          borderWidth s' = Slide.width p)
    /\ (Forall noWidth calls -> borderWidth s' = borderWidth s)
    /\ title s' = title s /\ elements s' = elements s
    /\ backgroundColor s' = backgroundColor s.
Proof.
  intros Hs. exists (borders calls s). rewrite setBorders_run. cbn [snd with_store store].
  split; [rewrite lookup_alter_eq, Hs; reflexivity |].
  destruct (borders_frame calls s) as (_ & Ht & He & Hb & _).
  repeat split; try assumption.
  - intros pre p ->. now rewrite borders_snoc.
  - intros pre p post -> Hp Hpost.
    change (pre ++ p :: post)%list with (pre ++ [p] ++ post)%list.
    rewrite app_assoc, borders_app, borders_color_kept by exact Hpost.
    rewrite borders_snoc. cbn. now rewrite Hp.
  - apply borders_color_kept.
  - intros pre p post -> Hp Hpost.
    change (pre ++ p :: post)%list with (pre ++ [p] ++ post)%list.
    rewrite app_assoc, borders_app, borders_width_kept by exact Hpost.
    rewrite borders_snoc. cbn. now rewrite Hp.
  - apply borders_width_kept.
Qed.

(** [setBorder({style:"solid"})] then [setBorder({style:"ants"})] on a new
    slide: style "ants", no color, no width. *)
Lemma setBorder_solid_then_ants :
  let made := Slide.new "Title Slide" None emptyWorld in
  exists s' : PresentationSlide,
    store (setBorders [solid None None; ants] made.1 made.2).2 !! made.1 = Some s'
    /\ borderStyle s' = Some border_ants
    /\ borderColor s' = None
    /\ borderWidth s' = None.
Proof.
  intros made.
  assert (Hlive : exists s0, store made.2 !! made.1 = Some s0
                             /\ borderColor s0 = None /\ borderWidth s0 = None).
  { subst made. rewrite new_run. cbn [fst snd store]. eexists.
    split; [apply lookup_insert_eq | split; reflexivity]. }
  destruct Hlive as (s0 & Hs0 & Hc0 & Hw0).
  destruct (setBorder_chain [solid None None; ants] made.1 made.2 s0 Hs0)
    as (s' & Hs' & Hst & _ & Hc & _ & Hw & _).
  exists s'. split; [exact Hs' |]. split; [| split].
  - exact (Hst [solid None None] ants eq_refl).
  - rewrite Hc; [exact Hc0 | repeat constructor].
  - rewrite Hw; [exact Hw0 | repeat constructor].
Defined.

(** C7 fails as stated: a width of 0 carried by a call is not written; the
    width of the earlier call stays. *)
Lemma setBorder_zero_width_kept :
  let made := Slide.new "Title Slide" None emptyWorld in
  let this := made.1 in
  let first := solid None (Some (int 5)) in
  let second := solid None (Some (int 0)) in
  let w1 := (Slide.setBorder first this made.2).2 in
  let w2 := (Slide.setBorder second this w1).2 in
  match store w1 !! this, store w2 !! this with
  | Some before, Some after =>
      borderWidth after = Some (int 5)
      /\ ~ overwritesWhenProvided second before after
  | _, _ => False
  end.
Proof.
  vm_compute. split; [reflexivity |].
  intros (_ & _ & H). discriminate H.
Qed.

(** ** Slide elements *)

Lemma lookup_table (table : list (string * JsVal)) (k : string) :
  (list_to_map table : JsObject) !! k = tableLookup k table.
Proof.
  induction table as [|[k' v] rest IH]; [apply lookup_empty |].
  cbn [list_to_map foldr tableLookup]. cbn. destruct (String.eqb_spec k k') as [->|Hne].
  - apply lookup_insert_eq.
  - rewrite lookup_insert_ne by congruence. exact IH.
Qed.

Lemma element_merged (defaults props : JsObject) (i t : string) :
  mergedOver (fun k => defaults !! k) props (Slide.element defaults props i t) i t.
Proof.
  unfold mergedOver, Slide.element, spread. split; [| split].
  - rewrite lookup_insert_ne by discriminate. apply lookup_insert_eq.
  - apply lookup_insert_eq.
  - intros k Hid Hty. rewrite !lookup_insert_ne by congruence.
    destruct (props !! k) as [v|] eqn:Hk.
    + now apply lookup_union_Some_l.
    + now apply lookup_union_r.
Qed.

Lemma mergedOver_ext (f g : string -> option JsVal) (props e : JsObject) (i t : string) :
  (forall k, f k = g k) -> mergedOver f props e i t -> mergedOver g props e i t.
Proof.
  intros Hfg (Hid & Hty & Hk). repeat split; try assumption.
  intros k H1 H2. rewrite (Hk k H1 H2). destruct (props !! k); [reflexivity | apply Hfg].
Qed.

Section Elements.

Context (props : JsObject) (this : Slide.t) (w : World) (s : PresentationSlide).
Hypothesis live : store w !! this = Some s.

Lemma addElement_appends (e : JsObject) (w0 : World) :
  store w0 = store w ->
  appendsElement w (Slide.addElement e this w0).2 this e.
Proof.
  intros Hst. exists s. split; [exact live |].
  unfold Slide.addElement. rewrite update_run. cbn [snd with_store store].
  rewrite lookup_alter_eq, Hst, live. reflexivity.
Qed.

Lemma build_merged (t : MergedKind) :
  exists e : JsObject,
    appendsElement w (build t props this w).2 this e
    /\ mergedOver (fun k => tableLookup k (tableDefaults t)) props e
         (idAt w (draws w)) (kindName t).
Proof.
  destruct t; cbn [build];
    [ exists (Slide.element Slide.textDefaults props (idAt w (draws w)) "text")
    | exists (Slide.element Slide.imageDefaults props (idAt w (draws w)) "image")
    | exists (Slide.element Slide.mathDefaults props (idAt w (draws w)) "math")
    | exists (Slide.element Slide.shapeDefaults props (idAt w (draws w)) "shape") ];
    (split;
     [ unfold Slide.addText, Slide.addImage, Slide.addMath, Slide.addShape;
       rewrite bind_run, generateId_run; cbn [fst snd];
       now apply addElement_appends
     | eapply mergedOver_ext; [| apply element_merged];
       intros k; apply lookup_table ]).
Qed.

Lemma addCharacter_merged :
  exists e : JsObject,
    appendsElement w (Slide.addCharacter props this w).2 this e
    /\ mergedOver (characterTable (idAt w (draws w))) props e
         (idAt w (S (draws w))) "gamification".
Proof.
  exists (Slide.element (Slide.characterDefaults (idAt w (draws w))) props
            (idAt w (S (draws w))) "gamification").
  split.
  - unfold Slide.addCharacter. rewrite bind_run, generateId_run. cbn [fst snd].
    rewrite bind_run, generateId_run. cbn [fst snd].
    now apply addElement_appends.
  - eapply mergedOver_ext; [| apply element_merged].
    intros k. unfold Slide.characterDefaults, characterTable.
    rewrite lookup_table. cbn [tableLookup tableCharacter].
    destruct (String.eqb k "actions") eqn:Ha.
    + apply String.eqb_eq in Ha as ->. reflexivity.
    + repeat (destruct (String.eqb k _); [reflexivity |]). reflexivity.
Qed.

Lemma givenOr_destructure (k : string) (d : JsVal) :
  givenOr props k d (Slide.destructure props k d).
Proof.
  unfold givenOr, Slide.destructure, get.
  destruct (props !! k) as [[]|]; reflexivity.
Qed.

Lemma addSticker_built :
  exists e : JsObject,
    appendsElement w (Slide.addSticker props this w).2 this e
    /\ stickerOf props e (idAt w (draws w)).
Proof.
  unfold Slide.addSticker. rewrite bind_run, generateId_run. cbn [fst snd].
  eexists. split; [now apply addElement_appends |].
  exists (Slide.destructure props "size" (num 100)),
         (Slide.destructure props "rotation" (num 0)).
  split; [apply givenOr_destructure |]. split; [apply givenOr_destructure |].
  repeat split; rewrite lookup_table; reflexivity.
Qed.

End Elements.

(** C6: every element builder appends one element to its slide.  For
    [addText], [addImage], [addMath] and [addShape] the element has, under
    each property name other than [id] and [type], the caller's value when
    [props] has that property and the default of the table of section 4.2
    otherwise; [addCharacter] does the same over the character defaults, with
    one default action "Hello!"; [addSticker] copies [size] (100 when absent)
    into width, height and fontSize and takes rotation 0 when absent.  In all
    of them [id] is the identifier the builder generates and [type] the
    builder's discriminant, whatever [props] holds under these names. *)
Theorem element_defaults (props : JsObject) (this : Slide.t) (w : World)
    (s : PresentationSlide) :
  store w !! this = Some s ->
  (forall t : MergedKind,
      exists e : JsObject,
        appendsElement w (build t props this w).2 this e
        /\ mergedOver (fun k => tableLookup k (tableDefaults t)) props e
             (idAt w (draws w)) (kindName t))
  /\ (exists e : JsObject,
        appendsElement w (Slide.addCharacter props this w).2 this e
        /\ mergedOver (characterTable (idAt w (draws w))) props e
             (idAt w (S (draws w))) "gamification")
  /\ (exists e : JsObject,
        appendsElement w (Slide.addSticker props this w).2 this e
        /\ stickerOf props e (idAt w (draws w))).
Proof.
  intros live. split; [| split].
  - intros t. exact (build_merged props this w s live t).
  - exact (addCharacter_merged props this w s live).
  - exact (addSticker_built props this w s live).
Qed.

(** [addText] on a new slide with a content, a font size and stray [id]
    and [type] properties. *)
Lemma element_defaults_welcome :
  let made := Slide.new "Title Slide" None emptyWorld in
  exists e : JsObject,
    appendsElement made.2 (Slide.addText welcomeProps made.1 made.2).2 made.1 e
    /\ e !! "id" = Some (str (idAt made.2 1))
    /\ e !! "type" = Some (str "text")
    /\ e !! "content" = Some (str "Welcome")
    /\ e !! "fontSize" = Some (num 60)
    /\ e !! "x" = Some (num 10)
    /\ e !! "height" = Some (num 50)
    /\ e !! "fontFamily" = Some (str "Alegreya").
Proof.
  intros made.
  assert (Hlive : exists s0, store made.2 !! made.1 = Some s0).
  { subst made. rewrite new_run. cbn [fst snd store]. eexists. apply lookup_insert_eq. }
  destruct Hlive as (s0 & Hs0).
  destruct (element_defaults welcomeProps made.1 made.2 s0 Hs0) as (Hmerged & _ & _).
  destruct (Hmerged kind_text) as (e & Happ & Hid & Hty & Hk).
  exists e. split; [exact Happ |]. split; [exact Hid |]. split; [exact Hty |].
  repeat split; (rewrite Hk by discriminate; reflexivity).
Defined.

(** ** The media queue *)

Lemma addMediaItem_run (item : JsObject) (this : Presentation.t) (w : World) :
  Presentation.addMediaItem item this w =
    ({| Presentation.mediaQueue :=
          (Presentation.mediaQueue this ++ [queuedItem item (idAt w (draws w))])%list;
        Presentation.sources := Presentation.sources this |},
     drawn 1 w).
Proof. reflexivity. Qed.

Lemma spread_lookup (base data : JsObject) (k : string) :
  spread base data !! k = match data !! k with
                          | Some v => Some v
                          | None => base !! k
                          end.
Proof.
  unfold spread. destruct (data !! k) as [v|] eqn:Hk.
  - now apply lookup_union_Some_l.
  - now apply lookup_union_r.
Qed.

Lemma get_table (table : list (string * JsVal)) (k : string) :
  get (list_to_map table) k = default VUndef (tableLookup k table).
Proof. unfold get. now rewrite lookup_table. Qed.

Lemma queuedItem_id (item : JsObject) (i : string) :
  queuedItem item i !! "id" = Some (str i).
Proof.
  unfold queuedItem. rewrite lookup_insert_ne by discriminate. apply lookup_insert_eq.
Qed.

Lemma queuedItem_transition (item : JsObject) (i : string) :
  queuedItem item i !! "transition"
  = Some (or_else (get item "transition") (str "fade")).
Proof. apply lookup_insert_eq. Qed.

Lemma queuedItem_other (item : JsObject) (i k : string) :
  k <> "id" -> k <> "transition" -> queuedItem item i !! k = item !! k.
Proof.
  intros H1 H2. unfold queuedItem. now rewrite !lookup_insert_ne by congruence.
Qed.

(** C1, as amended: [addSlide] queues one created-slide item named after
    the slide's title at that moment, and the item's [slide] is the
    reference to the slide object of the builder.  In every later world the
    slide read through the queue is the builder's slide object as it is
    then, so each later assignment to it shows in the queue. *)
Theorem addSlide_queues_reference (slide : Slide.t) (this : Presentation.t)
    (w : World) (s : PresentationSlide) :
  store w !! slide = Some s ->
  let added := Presentation.addSlide slide this w in
  exists item : JsObject,
    Presentation.mediaQueue added.1 = (Presentation.mediaQueue this ++ [item])%list
    /\ store added.2 = store w
    /\ item !! "type" = Some (str "created-slide")
    /\ item !! "name" = Some (str (title s))
    /\ item !! "id" = Some (str (idAt w (draws w)))
    /\ item !! "transition" = Some (str "fade")
    /\ item !! "slide" = Some (VRef slide)
    /\ Presentation.queuedSlide added.2 item = Some s
    /\ (forall w' : World, Presentation.queuedSlide w' item = store w' !! slide)
    /\ (forall (f : PresentationSlide -> PresentationSlide) (w' : World),
          Presentation.queuedSlide (Slide.update f slide w').2 item
          = f <$> Presentation.queuedSlide w' item).
Proof.
  intros live added. subst added. unfold Presentation.addSlide.
  rewrite bind_run. cbn [get_store fst snd]. rewrite addMediaItem_run. cbn [fst snd].
  eexists. split; [reflexivity |].
  assert (Hslide : forall i item0,
             item0 !! "slide" = Some (VRef slide) ->
             queuedItem item0 i !! "slide" = Some (VRef slide)).
  { intros i item0 H. now rewrite queuedItem_other by discriminate. }
  assert (Href : forall w' : World,
             Presentation.queuedSlide w'
               (queuedItem
                  (list_to_map
                     [("type", str "created-slide");
                      ("name", reading (fun s0 => str (title s0))
                                 (store w !! Slide.getSlideObject slide));
                      ("slide", VRef (Slide.getSlideObject slide))])
                  (idAt w (draws w)))
             = store w' !! slide).
  { intros w'. unfold Presentation.queuedSlide.
    rewrite Hslide by (rewrite lookup_table; reflexivity). reflexivity. }
  split; [reflexivity |].
  split; [rewrite queuedItem_other by discriminate; rewrite lookup_table; reflexivity |].
  split; [rewrite queuedItem_other by discriminate; rewrite lookup_table;
          unfold Slide.getSlideObject; rewrite live; reflexivity |].
  split; [apply queuedItem_id |].
  split; [rewrite queuedItem_transition, get_table; reflexivity |].
  split; [apply Hslide; rewrite lookup_table; reflexivity |].
  split; [rewrite Href; exact live |].
  split; [exact Href |].
  intros f w'. rewrite !Href, update_run. cbn [snd with_store store].
  apply lookup_alter_eq.
Qed.

(** A new slide is queued and then given another background: the queue
    shows the new background. *)
Lemma addSlide_then_recolor :
  let made := Slide.new "Title Slide" None emptyWorld in
  let added := Presentation.addSlide made.1 Presentation.new made.2 in
  let later := (Slide.setBackgroundColor "#5B8E7D" made.1 added.2).2 in
  exists item : JsObject,
    Presentation.mediaQueue added.1 = [item]
    /\ item !! "name" = Some (str "Title Slide")
    /\ (backgroundColor <$> Presentation.queuedSlide added.2 item) = Some (Some "#FFFFFF")
    /\ (backgroundColor <$> Presentation.queuedSlide later item) = Some (Some "#5B8E7D").
Proof.
  intros made added later.
  assert (Hlive : exists s0, store made.2 !! made.1 = Some s0
                             /\ title s0 = "Title Slide"
                             /\ backgroundColor s0 = Some "#FFFFFF").
  { subst made. rewrite new_run. cbn [fst snd store]. eexists.
    split; [apply lookup_insert_eq | split; reflexivity]. }
  destruct Hlive as (s0 & Hs0 & Ht0 & Hb0).
  destruct (addSlide_queues_reference made.1 Presentation.new made.2 s0 Hs0)
    as (item & Hq & _ & _ & Hname & _ & _ & _ & Hnow & _ & Hupd).
  exists item. split; [exact Hq |]. split; [now rewrite Hname, Ht0 |]. split.
  - fold added in Hnow. rewrite Hnow. cbn. now rewrite Hb0.
  - subst later. unfold Slide.setBackgroundColor. rewrite Hupd.
    fold added in Hnow. rewrite Hnow. reflexivity.
Defined.

(** C1 fails as stated: after [addSlide], giving the slide another
    background, appending a text or setting a border changes the slide
    found under the queued item. *)
Lemma addSlide_no_snapshot :
  let made := Slide.new "Title Slide" None emptyWorld in
  let added := Presentation.addSlide made.1 Presentation.new made.2 in
  let recolored := (Slide.setBackgroundColor "#5B8E7D" made.1 added.2).2 in
  let extended := (Slide.addText welcomeProps made.1 added.2).2 in
  let bordered := (Slide.setBorder ants made.1 added.2).2 in
  match Presentation.mediaQueue added.1 with
  | [item] =>
      ~ snapshotKept item added.2 recolored
      /\ ~ snapshotKept item added.2 extended
      /\ ~ snapshotKept item added.2 bordered
  | _ => False
  end.
Proof.
  vm_compute. repeat split; intros H; discriminate H.
Qed.

(** C4, as amended: [addQuiz] queues one quiz item whose name is the
    title of the quiz and whose quiz is the input with the identifier
    [generateId] returns put under [id]; every other property of the quiz,
    its questions and their options among them, is the input's own: no
    identifier is given to a question or an option. *)
Theorem addQuiz_assigns_quiz_id_only (quizData : JsObject) (this : Presentation.t)
    (w : World) :
  let added := Presentation.addQuiz quizData this w in
  exists item quiz : JsObject,
    Presentation.mediaQueue added.1 = (Presentation.mediaQueue this ++ [item])%list
    /\ item !! "type" = Some (str "quiz")
    /\ item !! "name" = Some (get quizData "title")
    /\ item !! "id" = Some (str (idAt w (S (draws w))))
    /\ item !! "transition" = Some (str "fade")
    /\ item !! "quiz" = Some (VObj quiz)
    /\ quiz !! "id" = Some (str (idAt w (draws w)))
    /\ (forall k : string, k <> "id" -> quiz !! k = quizData !! k)
    /\ questionsOf quiz = questionsOf quizData.
Proof.
  cbn zeta. unfold Presentation.addQuiz.
  rewrite bind_run, generateId_run. cbn [fst snd].
  rewrite addMediaItem_run. cbn [fst snd].
  eexists. exists (<["id" := str (idAt w (draws w))]> quizData).
  split; [reflexivity |].
  split; [rewrite queuedItem_other by discriminate; rewrite lookup_table; reflexivity |].
  split; [rewrite queuedItem_other by discriminate; rewrite lookup_table; reflexivity |].
  split; [apply queuedItem_id |].
  split; [rewrite queuedItem_transition, get_table; reflexivity |].
  split; [rewrite queuedItem_other by discriminate; rewrite lookup_table; reflexivity |].
  split; [apply lookup_insert_eq |].
  split; [intros k Hk; now rewrite lookup_insert_ne by congruence |].
  unfold questionsOf, get. now rewrite lookup_insert_ne by discriminate.
Qed.

(** C4 fails as stated: the quiz of the README is queued with its question
    and its options still without identifiers. *)
Lemma addQuiz_questions_without_id :
  let added := Presentation.addQuiz popQuiz Presentation.new emptyWorld in
  match Presentation.mediaQueue added.1 with
  | [item] =>
      match item !! "quiz" with
      | Some (VObj quiz) =>
          List.map hasId (questionsOf quiz) = [false]
          /\ List.map (fun q => List.map hasId (optionsOf q)) (questionsOf quiz)
             = [[false; false]]
          /\ fullyIdentified quiz <> true
      | _ => False
      end
  | _ => False
  end.
Proof.
  vm_compute. repeat split. discriminate.
Qed.

(** ** addCsv *)

Section AddCsv.

Import Presentation.

Variable numberToString : JsNum -> string.
Context (csvData : CsvData) (this : Presentation.t) (w : World).

Lemma addCsv_reject :
  from_option str_truthy false (csv_content csvData) = false ->
  csv_rows csvData = None ->
  addCsv numberToString csvData this w
  = (this, warned "CSV item requires either content (raw string) or rows/headers." w).
Proof.
  intros Hc Hr. unfold addCsv. rewrite Hc, Hr. reflexivity.
Qed.

Lemma addCsv_derive (content : string) :
  csv_content csvData = Some content -> content <> "" ->
  csv_headers csvData = None \/ csv_rows csvData = None ->
  addCsv numberToString csvData this w
  = addMediaItem
      (csvItem csvData (csvHeaders (csvLines content)) (csvRows (csvLines content)) content)
      this w.
Proof.
  intros Hc Hne Hmiss. unfold addCsv. rewrite Hc.
  destruct content as [|a rest]; [congruence |].
  destruct Hmiss as [-> | ->]; cbn.
  - reflexivity.
  - now rewrite orb_true_r.
Qed.

End AddCsv.

Lemma nonBlank_eqb (line : string) :
  nonBlank line = negb (String.eqb (trim line) "").
Proof. unfold nonBlank. now destruct (trim line). Qed.

Lemma csvLines_derived (content : string) : csvLines content = derivedLines content.
Proof.
  unfold csvLines, derivedLines. apply List.filter_ext. exact nonBlank_eqb.
Qed.

Lemma cellVal_coerce (cell : string) : cellVal (coerceCell cell) = derivedCell cell.
Proof.
  unfold coerceCell, derivedCell. now destruct (Number (trim cell)).
Qed.

Lemma csvHeaders_derived (content : string) :
  List.map VStr (csvHeaders (csvLines content)) = derivedHeaders content.
Proof.
  unfold csvHeaders, derivedHeaders. rewrite csvLines_derived.
  destruct (derivedLines content); [reflexivity |]. now rewrite List.map_map.
Qed.

Lemma csvRows_derived (content : string) :
  List.map (fun row => VArr (List.map cellVal row)) (csvRows (csvLines content))
  = derivedRows content.
Proof.
  unfold csvRows, derivedRows. rewrite csvLines_derived, List.map_map.
  destruct (derivedLines content) as [|l0 ls]; [reflexivity |]. cbn [skipn List.tl].
  apply List.map_ext. intros line. rewrite List.map_map. f_equal.
  apply List.map_ext. exact cellVal_coerce.
Qed.

Lemma lookup_map {A B} (f : A -> B) (l : list A) (i : nat) :
  List.map f l !! i = f <$> l !! i.
Proof.
  revert i. induction l as [|a l IH]; intros [|i]; cbn; try reflexivity. apply IH.
Qed.

Lemma csvItem_fields (d : Presentation.CsvData) (headers : list string)
    (rows : list (list Cell)) (content i : string) :
  let item := queuedItem (Presentation.csvItem d headers rows content) i in
  item !! "type" = Some (str "csv")
  /\ item !! "name" = Some (str (Presentation.csv_name d))
  /\ item !! "content" = Some (str content)
  /\ item !! "headers" = Some (VArr (List.map VStr headers))
  /\ item !! "rows" = Some (VArr (List.map (fun row => VArr (List.map cellVal row)) rows)).
Proof.
  cbn zeta. unfold Presentation.csvItem.
  repeat split; rewrite queuedItem_other by discriminate; rewrite lookup_table; reflexivity.
Qed.

(** What [addCsv] queues whenever it derives from [content]. *)
Lemma addCsv_derived_item (numberToString : JsNum -> string)
    (d : Presentation.CsvData) (this : Presentation.t) (w : World) (content : string) :
  Presentation.csv_content d = Some content -> content <> "" ->
  Presentation.csv_headers d = None \/ Presentation.csv_rows d = None ->
  exists item : JsObject,
    Presentation.addCsv numberToString d this w = (queued item this, drawn 1 w)
    /\ item !! "type" = Some (str "csv")
    /\ item !! "name" = Some (str (Presentation.csv_name d))
    /\ item !! "content" = Some (str content)
    /\ item !! "headers" = Some (VArr (derivedHeaders content))
    /\ item !! "rows" = Some (VArr (derivedRows content)).
Proof.
  intros Hc Hne Hmiss.
  rewrite (addCsv_derive numberToString d this w content Hc Hne Hmiss), addMediaItem_run.
  eexists. split; [reflexivity |].
  rewrite <- csvHeaders_derived, <- csvRows_derived. apply csvItem_fields.
Qed.

(** C3, as amended: with a content other than the empty string and neither
    headers nor rows, [addCsv] queues one csv item; its headers are the first
    non-blank line of the content split at commas and trimmed, its rows the
    later non-blank lines split at commas, each cell the number it parses as
    (the binary64 value of the literal) and otherwise its trimmed text.  A
    content that is the empty string counts as no content: nothing is queued
    and the warning is written. *)
Theorem addCsv_derives_from_content (numberToString : JsNum -> string)
    (d : Presentation.CsvData) (this : Presentation.t) (w : World) (content : string) :
  Presentation.csv_content d = Some content ->
  Presentation.csv_headers d = None -> Presentation.csv_rows d = None ->
  (content <> "" ->
   exists item : JsObject,
     Presentation.addCsv numberToString d this w = (queued item this, drawn 1 w)
     /\ item !! "type" = Some (str "csv")
     /\ item !! "name" = Some (str (Presentation.csv_name d))
     /\ item !! "content" = Some (str content)
     /\ item !! "headers" = Some (VArr (derivedHeaders content))
     /\ item !! "rows" = Some (VArr (derivedRows content)))
  /\ (content = "" ->
      Presentation.addCsv numberToString d this w
      = (this, warned "CSV item requires either content (raw string) or rows/headers." w)).
Proof.
  intros Hc Hh Hr. split.
  - intros Hne. apply addCsv_derived_item; auto.
  - intros ->. apply addCsv_reject; [now rewrite Hc | exact Hr].
Qed.

(** [addCsv({name:"t", content:"a,b\n1,x\n2,y"})]: headers a, b and rows
    1, "x" and 2, "y". *)
Lemma addCsv_two_rows :
  let d := csvOf "t" (Some (lines3 "a,b" "1,x" "2,y")) None None in
  exists item : JsObject,
    Presentation.mediaQueue
      (Presentation.addCsv (fun _ => "") d Presentation.new emptyWorld).1 = [item]
    /\ item !! "headers" = Some (VArr [VStr "a"; VStr "b"])
    /\ item !! "rows"
       = Some (VArr [VArr [VNum (int 1); VStr "x"]; VArr [VNum (int 2); VStr "y"]]).
Proof.
  intros d.
  destruct (addCsv_derives_from_content (fun _ => "") d Presentation.new emptyWorld
              (lines3 "a,b" "1,x" "2,y") eq_refl eq_refl eq_refl)
    as [Hderive _].
  destruct Hderive as (item & Hrun & _ & _ & _ & Hh & Hr); [discriminate |].
  exists item. rewrite Hrun. split; [reflexivity |]. split; [exact Hh | exact Hr].
Defined.

(** C3 fails as stated: with the empty string as content, and neither
    headers nor rows, there is no queued item to carry the empty headers and
    rows derived from it; the call only writes the warning. *)
Lemma addCsv_empty_content_not_queued :
  let d := csvOf "t" (Some "") None None in
  let r := Presentation.addCsv (fun _ => "") d Presentation.new emptyWorld in
  derivedHeaders "" = [] /\ derivedRows "" = []
  /\ Presentation.mediaQueue r.1 = []
  /\ console r.2 = ["CSV item requires either content (raw string) or rows/headers."]
  /\ ~ queuesDerived (fun _ => "") d Presentation.new emptyWorld "".
Proof.
  cbn zeta. repeat split.
  intros (item & Hq & _). vm_compute in Hq. discriminate Hq.
Qed.

(** C5: with neither content nor rows, [addCsv] returns the presentation
    as it was, writes one warning and does nothing else. *)
Theorem addCsv_without_data (numberToString : JsNum -> string)
    (d : Presentation.CsvData) (this : Presentation.t) (w : World) :
  Presentation.csv_content d = None -> Presentation.csv_rows d = None ->
  Presentation.addCsv numberToString d this w
  = (this, warned "CSV item requires either content (raw string) or rows/headers." w).
Proof.
  intros Hc Hr. apply addCsv_reject; [now rewrite Hc | exact Hr].
Qed.

(** [addCsv({name:"t"})] after a slide was queued: the queue keeps its one
    item and the console has the warning. *)
Lemma addCsv_name_only :
  let made := Slide.new "Title Slide" None emptyWorld in
  let before := Presentation.addSlide made.1 Presentation.new made.2 in
  let after := Presentation.addCsv (fun _ => "") (csvOf "t" None None None) before.1 before.2 in
  Presentation.mediaQueue after.1 = Presentation.mediaQueue before.1
  /\ List.length (Presentation.mediaQueue after.1) = 1
  /\ console after.2 = ["CSV item requires either content (raw string) or rows/headers."]
  /\ draws after.2 = draws before.2.
Proof.
  intros made before after. subst after.
  rewrite (addCsv_without_data (fun _ => "") (csvOf "t" None None None)
             before.1 before.2 eq_refl eq_refl).
  repeat split.
Defined.

(** C9: with a non-empty content and headers or rows missing (one of
    them, or both), [addCsv] does what it does on the content alone: headers
    and rows are both derived from the content, and the headers or the rows
    the caller passed are dropped. *)
Theorem addCsv_rederives_when_one_missing (numberToString : JsNum -> string)
    (d : Presentation.CsvData) (this : Presentation.t) (w : World) (content : string) :
  Presentation.csv_content d = Some content -> content <> "" ->
  Presentation.csv_headers d = None \/ Presentation.csv_rows d = None ->
  Presentation.addCsv numberToString d this w
  = Presentation.addCsv numberToString (contentOnly d) this w
  /\ exists item : JsObject,
       Presentation.addCsv numberToString d this w = (queued item this, drawn 1 w)
       /\ item !! "headers" = Some (VArr (derivedHeaders content))
       /\ item !! "rows" = Some (VArr (derivedRows content)).
Proof.
  intros Hc Hne Hmiss. split.
  - rewrite (addCsv_derive numberToString d this w content Hc Hne Hmiss).
    rewrite (addCsv_derive numberToString (contentOnly d) this w content Hc Hne);
      [reflexivity | now left].
  - destruct (addCsv_derived_item numberToString d this w content Hc Hne Hmiss)
      as (item & Hrun & _ & _ & _ & Hh & Hr).
    exists item. auto.
Qed.

(** Headers p, q passed next to the content a,b / 1,x / 2,y, and rows
    passed next to it: the queue has the headers and rows of the content. *)
Lemma addCsv_headers_dropped :
  let content := lines3 "a,b" "1,x" "2,y" in
  let withHeaders := csvOf "t" (Some content) (Some ["p"; "q"]) None in
  let withRows := csvOf "t" (Some content) None (Some [[CellStr "z"]]) in
  (exists item : JsObject,
     Presentation.mediaQueue
       (Presentation.addCsv (fun _ => "") withHeaders Presentation.new emptyWorld).1 = [item]
     /\ item !! "headers" = Some (VArr [VStr "a"; VStr "b"])
     /\ item !! "rows"
        = Some (VArr [VArr [VNum (int 1); VStr "x"]; VArr [VNum (int 2); VStr "y"]]))
  /\ (exists item : JsObject,
        Presentation.mediaQueue
          (Presentation.addCsv (fun _ => "") withRows Presentation.new emptyWorld).1 = [item]
        /\ item !! "headers" = Some (VArr [VStr "a"; VStr "b"])
        /\ item !! "rows"
           = Some (VArr [VArr [VNum (int 1); VStr "x"]; VArr [VNum (int 2); VStr "y"]])).
Proof.
  intros content withHeaders withRows. split.
  - destruct (addCsv_rederives_when_one_missing (fun _ => "") withHeaders
                Presentation.new emptyWorld content eq_refl)
      as (_ & item & Hrun & Hh & Hr); [discriminate | right; reflexivity |].
    exists item. rewrite Hrun. split; [reflexivity |]. split; [exact Hh | exact Hr].
  - destruct (addCsv_rederives_when_one_missing (fun _ => "") withRows
                Presentation.new emptyWorld content eq_refl)
      as (_ & item & Hrun & Hh & Hr); [discriminate | left; reflexivity |].
    exists item. rewrite Hrun. split; [reflexivity |]. split; [exact Hh | exact Hr].
Defined.

Lemma derivedCell_empty (cell : string) :
  trim cell = "" -> derivedCell cell = VNum (int 0).
Proof. intros H. unfold derivedCell. now rewrite H. Qed.

(** C10: whenever [addCsv] derives rows from the content, a cell that is
    empty once trimmed is the number 0 in the rows, since [Number("")] is 0. *)
Theorem addCsv_empty_cell_is_zero (numberToString : JsNum -> string)
    (d : Presentation.CsvData) (this : Presentation.t) (w : World) (content : string) :
  Presentation.csv_content d = Some content -> content <> "" ->
  Presentation.csv_headers d = None \/ Presentation.csv_rows d = None ->
  exists (item : JsObject) (rows : list JsVal),
    Presentation.addCsv numberToString d this w = (queued item this, drawn 1 w)
    /\ item !! "rows" = Some (VArr rows)
    /\ forall (i j : nat) (line cell : string),
         List.tl (derivedLines content) !! i = Some line ->
         split "," line !! j = Some cell ->
         trim cell = "" ->
         exists row : list JsVal,
           rows !! i = Some (VArr row) /\ row !! j = Some (VNum (int 0)).
Proof.
  intros Hc Hne Hmiss.
  destruct (addCsv_derived_item numberToString d this w content Hc Hne Hmiss)
    as (item & Hrun & _ & _ & _ & _ & Hr).
  exists item, (derivedRows content). split; [exact Hrun |]. split; [exact Hr |].
  intros i j line cell Hline Hcell Hempty.
  exists (List.map derivedCell (split "," line)). split.
  - unfold derivedRows. now rewrite lookup_map, Hline.
  - rewrite lookup_map, Hcell. cbn. now rewrite derivedCell_empty.
Qed.

(** The content a,b,c / 1,,3 / x, ,: the cell between the two commas of
    the first row and the blank cell of the second are 0. *)
Lemma addCsv_adjacent_commas :
  let d := csvOf "t" (Some (lines3 "a,b,c" "1,,3" "x, ,")) None None in
  exists (item : JsObject) (rows row1 row2 : list JsVal),
    Presentation.mediaQueue
      (Presentation.addCsv (fun _ => "") d Presentation.new emptyWorld).1 = [item]
    /\ item !! "rows" = Some (VArr rows)
    /\ rows !! 0 = Some (VArr row1) /\ row1 !! 1 = Some (VNum (int 0))
    /\ rows !! 1 = Some (VArr row2) /\ row2 !! 1 = Some (VNum (int 0)).
Proof.
  intros d.
  destruct (addCsv_empty_cell_is_zero (fun _ => "") d Presentation.new emptyWorld
              (lines3 "a,b,c" "1,,3" "x, ,") eq_refl)
    as (item & rows & Hrun & Hr & Hzero); [discriminate | now left |].
  destruct (Hzero 0 1 "1,,3" "" eq_refl eq_refl eq_refl) as (row1 & H1 & H1').
  destruct (Hzero 1 1 "x, ," " " eq_refl eq_refl eq_refl) as (row2 & H2 & H2').
  exists item, rows, row1, row2. rewrite Hrun. repeat split; assumption.
Defined.

(** ** The matcher and the language of a regular expression *)

Lemma consumed_append (m rest : string) : consumed (m ++ rest) rest = m.
Proof.
  unfold consumed. rewrite length_append.
  replace (String.length m + String.length rest - String.length rest)
    with (String.length m) by lia.
  induction m as [|a m IH]; cbn.
  - now destruct rest.
  - now rewrite IH.
Qed.

Lemma in_times (step : MatchState -> list MatchState)
    (lang : string -> option string -> option string -> Prop) :
  (forall st st', In st' (step st) <->
     exists m, st.1 = m ++ st'.1 /\ lang m st.2 st'.2) ->
  forall (n : nat) (st st' : MatchState),
    In st' (times n step st) <->
    exists m, st.1 = m ++ st'.1 /\ repeated lang n m st.2 st'.2.
Proof.
  intros Hstep. induction n as [|n IH]; intros st st'; cbn [times repeated].
  - split.
    + intros [<- | []]. exists "". now repeat split.
    + intros (m & Hm & -> & Hc). left. destruct st, st'; cbn in *. now subst.
  - rewrite in_flat_map. split.
    + intros (st1 & H1 & H2). apply Hstep in H1 as (m1 & E1 & L1).
      apply IH in H2 as (m2 & E2 & L2).
      exists (m1 ++ m2). split; [now rewrite append_assoc, <- E2 |].
      now exists m1, m2, st1.2.
    + intros (m & E & m1 & m2 & c1 & -> & L1 & L2).
      exists (m2 ++ st'.1, c1). split.
      * apply Hstep. exists m1. split; [now rewrite E, append_assoc | exact L1].
      * apply IH. now exists m2.
Qed.

(** The matcher enumerates exactly the matches of the language that start
    where it is started. *)
Lemma run_matchedBy (r : Regex) : forall st st' : MatchState,
  In st' (run r st) <-> exists m, st.1 = m ++ st'.1 /\ matchedBy r m st.2 st'.2.
Proof.
  induction r as [|c|f|r1 IH1 r2 IH2|r1 IH1 r2 IH2|r1 IH1|n r1 IH1|r1 IH1];
    intros [s cap] [s' cap']; cbn [run matchedBy fst snd].
  - split.
    + intros [E | []]. inversion E; subst. exists "". now repeat split.
    + intros (m & -> & -> & ->). now left.
  - split.
    + destruct s as [|a s0]; [intros [] |].
      destruct (Ascii.eqb_spec a c) as [-> | Hne]; [| intros []].
      intros [E | []]. inversion E; subst. exists (String c ""). now repeat split.
    + intros (m & -> & -> & ->). cbn. rewrite Ascii.eqb_refl. now left.
  - split.
    + destruct s as [|a s0]; [intros [] |].
      destruct (f a) eqn:Hf; [| intros []].
      intros [E | []]. inversion E; subst. exists (String a "").
      split; [reflexivity |]. now exists a.
    + intros (m & -> & a & Hf & -> & ->). cbn. rewrite Hf. now left.
  - rewrite in_flat_map. split.
    + intros (st1 & H1 & H2). apply IH1 in H1 as (m1 & E1 & L1).
      apply IH2 in H2 as (m2 & E2 & L2). cbn [fst snd] in *.
      exists (m1 ++ m2). split; [now rewrite append_assoc, <- E2 |].
      now exists m1, m2, st1.2.
    + intros (m & -> & m1 & m2 & c1 & -> & L1 & L2).
      exists (m2 ++ s', c1). split.
      * apply IH1. exists m1. split; [apply append_assoc | exact L1].
      * apply IH2. now exists m2.
  - rewrite in_app_iff, IH1, IH2. cbn [fst snd]. split.
    + intros [(m & E & L) | (m & E & L)]; exists m; auto.
    + intros (m & E & [L | L]); [left | right]; now exists m.
  - rewrite in_app_iff, IH1. cbn [fst snd]. split.
    + intros [(m & E & L) | [E | []]].
      * exists m; auto.
      * inversion E; subst. exists "". auto.
    + intros (m & E & [L | [-> ->]]).
      * left. now exists m.
      * right. left. now rewrite E.
  - apply (in_times (run r1) (matchedBy r1) IH1 n (s, cap) (s', cap')).
  - rewrite in_map_iff. split.
    + intros (st1 & E & H1). apply IH1 in H1 as (m & Em & L). cbn [fst snd] in *.
      inversion E; subst. exists m. split; [reflexivity |].
      exists st1.2. split; [exact L |]. now rewrite consumed_append.
    + intros (m & -> & c1 & L & ->). exists (s', c1). split.
      * cbn [fst snd]. now rewrite consumed_append.
      * apply IH1. now exists m.
Qed.

Lemma matchedBy_lit (l m : string) (c c' : option string) :
  matchedBy (lit l) m c c' <-> m = l /\ c' = c.
Proof.
  revert m c. induction l as [|a l IH]; intros m c; cbn [lit matchedBy].
  - reflexivity.
  - split.
    + intros (m1 & m2 & c1 & -> & [-> ->] & H). apply IH in H as [-> ->]. now split.
    + intros [-> ->]. exists (String a ""), l, c. repeat split. now apply IH.
Qed.

Lemma repeated_cls (f : ascii -> bool) (n : nat) : forall (m : string) (c c' : option string),
  repeated (matchedBy (Cls f)) n m c c' <->
  String.length m = n /\ allChars f m = true /\ c' = c.
Proof.
  induction n as [|n IH]; intros m c c'; cbn [repeated matchedBy].
  - split.
    + intros [-> ->]. now repeat split.
    + intros (Hlen & _ & ->). destruct m; [now split | discriminate].
  - split.
    + intros (m1 & m2 & c1 & -> & (a & Hf & -> & ->) & H).
      apply IH in H as (Hlen & Hall & ->). cbn. rewrite Hf, Hall, Hlen. now repeat split.
    + intros (Hlen & Hall & ->). destruct m as [|a m]; [discriminate |].
      cbn in Hlen, Hall. apply andb_prop in Hall as [Hf Hall].
      exists (String a ""), m, c. split; [reflexivity |]. split.
      * now exists a.
      * apply IH. repeat split; [lia | exact Hall].
Qed.

(** The prefixes the regular expression lets through before the marker. *)
Lemma youtubeRegex_sound (m : string) (cap' : option string) :
  matchedBy youtubeRegex m None cap' ->
  exists pre shape v : string,
    m = pre ++ shape ++ v
    /\ In pre [""; "www."; "http://"; "http://www."; "https://"; "https://www."]
    /\ In shape youtubeShapes
    /\ String.length v = 11 /\ allChars idChar v = true /\ cap' = Some v.
Proof.
  unfold youtubeRegex. cbn [matchedBy].
  intros (m1 & m2 & c1 & -> & Hscheme & m3 & m4 & c2 & -> & Hwww
          & m5 & m6 & c3 & -> & Hshape & c4 & Hid & ->).
  apply repeated_cls in Hid as (Hlen & Hall & _).
  exists (m1 ++ m3), m5, m6. rewrite append_assoc.
  split; [reflexivity |].
  split; [| split; [| now repeat split]].
  - assert (H1 : m1 = "" \/ m1 = "http://" \/ m1 = "https://").
    { destruct Hscheme as [(a & b & c & -> & Ha & (d & e & g & -> & Hs & Hd)) | [-> _]];
        [| now left].
      apply matchedBy_lit in Ha as [-> _]. apply matchedBy_lit in Hd as [-> _].
      destruct Hs as [[-> _] | [-> _]]; [right; right | right; left]; reflexivity. }
    assert (H3 : m3 = "" \/ m3 = "www.").
    { destruct Hwww as [H | [-> _]]; [| now left].
      apply matchedBy_lit in H as [-> _]. now right. }
    destruct H1 as [-> | [-> | ->]], H3 as [-> | ->]; cbn; tauto.
  - destruct Hshape as [(a & b & c & -> & Ha & Hb) | H].
    + apply matchedBy_lit in Ha as [-> _].
      destruct Hb as [H | [H | H]]; apply matchedBy_lit in H as [-> _]; cbn; tauto.
    + apply matchedBy_lit in H as [-> _]. cbn; tauto.
Qed.

Lemma youtubeRegex_complete (shape v : string) :
  In shape youtubeShapes -> String.length v = 11 -> allChars idChar v = true ->
  matchedBy youtubeRegex (shape ++ v) None (Some v).
Proof.
  intros Hshape Hlen Hall. unfold youtubeRegex. cbn [matchedBy].
  exists "", (shape ++ v), None. split; [reflexivity |]. split; [now right |].
  exists "", (shape ++ v), None. split; [reflexivity |]. split; [now right |].
  exists shape, v, None. split; [reflexivity |]. split.
  - cbn in Hshape. destruct Hshape as [<- | [<- | [<- | [<- | []]]]].
    + left. exists "youtube.com/", "watch?v=", None.
      split; [reflexivity |]. split; [now apply matchedBy_lit |].
      left. now apply matchedBy_lit.
    + left. exists "youtube.com/", "embed/", None.
      split; [reflexivity |]. split; [now apply matchedBy_lit |].
      right. left. now apply matchedBy_lit.
    + left. exists "youtube.com/", "v/", None.
      split; [reflexivity |]. split; [now apply matchedBy_lit |].
      right. right. now apply matchedBy_lit.
    + right. now apply matchedBy_lit.
  - exists None. split; [| reflexivity]. apply repeated_cls. now repeat split.
Qed.

Lemma search_Some (r : Regex) (url : string) (cap : option string) :
  search r url = Some cap ->
  exists (before s : string) (st' : MatchState) (others : list MatchState),
    url = before ++ s /\ run r (s, None) = st' :: others /\ st'.2 = cap
    /\ forall b t : string, before ++ s = b ++ t ->
         String.length b < String.length before -> run r (t, None) = [].
Proof.
  induction url as [|a url IH]; cbn [search].
  - destruct (run r ("", None)) as [|st' others] eqn:Hrun; [discriminate |].
    intros [= <-]. exists "", "", st', others. repeat split; try assumption.
    cbn. lia.
  - destruct (run r (String a url, None)) as [|st' others] eqn:Hrun.
    + intros H. apply IH in H as (before & s & st' & others & -> & Hs & Hc & Hearly).
      exists (String a before), s, st', others. repeat split; try assumption.
      intros [|a' b] t E Hlt.
      * cbn in E. subst t. exact Hrun.
      * cbn in E. injection E as -> E. apply (Hearly b t E). cbn in Hlt. lia.
    + intros [= <-]. exists "", (String a url), st', others.
      repeat split; try assumption. cbn. lia.
Qed.

Lemma search_None (r : Regex) (url : string) :
  search r url = None ->
  forall before s : string, url = before ++ s -> run r (s, None) = [].
Proof.
  induction url as [|a url IH]; cbn [search].
  - destruct (run r ("", None)) eqn:Hrun; [| discriminate].
    intros _ [|b before] s E; [| discriminate]. cbn in E. now subst s.
  - destruct (run r (String a url, None)) eqn:Hrun; [| discriminate].
    intros H [|b before] s E.
    + cbn in E. now subst s.
    + cbn in E. injection E as -> E. now apply (IH H before s).
Qed.

Lemma append_split (before s b t : string) :
  before ++ s = b ++ t -> String.length before <= String.length b ->
  exists x : string, b = before ++ x /\ s = x ++ t.
Proof.
  revert b. induction before as [|a before IH]; intros b E Hle.
  - exists b. now split.
  - destruct b as [|a' b]; [cbn in Hle; lia |].
    cbn in E. injection E as -> E. cbn in Hle.
    destruct (IH b E ltac:(lia)) as (x & -> & ->). exists x. now split.
Qed.

Lemma shape_starts_with_y (shape rest : string) :
  In shape youtubeShapes -> String.get 0 (shape ++ rest) = Some "y"%char.
Proof.
  cbn. intros [<- | [<- | [<- | [<- | []]]]]; reflexivity.
Qed.

Lemma prefix_has_no_y (pre : string) (k : nat) :
  In pre [""; "www."; "http://"; "http://www."; "https://"; "https://www."] ->
  k < String.length pre -> String.get k pre <> Some "y"%char.
Proof.
  cbn. intros [<- | [<- | [<- | [<- | [<- | [<- | []]]]]]] Hk; cbn in Hk;
    do 13 (destruct k as [|k]; [discriminate |]); lia.
Qed.

(** A marker cannot begin inside the scheme or the www prefix. *)
Lemma no_marker_in_prefix (pre x rest shape rest' : string) :
  In pre [""; "www."; "http://"; "http://www."; "https://"; "https://www."] ->
  In shape youtubeShapes ->
  pre ++ rest = x ++ shape ++ rest' ->
  String.length pre <= String.length x.
Proof.
  intros Hpre Hshape E.
  destruct (Nat.le_gt_cases (String.length pre) (String.length x)) as [H | H];
    [exact H | exfalso].
  apply (prefix_has_no_y pre (String.length x) Hpre H).
  rewrite (append_correct1 pre rest _ H), E.
  pose proof (append_correct2 x (shape ++ rest') 0) as Hget.
  rewrite Nat.add_0_l in Hget. rewrite <- Hget.
  now apply shape_starts_with_y.
Qed.

Lemma run_at_marker (shape v after : string) :
  In shape youtubeShapes -> String.length v = 11 -> allChars idChar v = true ->
  In (after, Some v) (run youtubeRegex (shape ++ v ++ after, None)).
Proof.
  intros Hshape Hlen Hall. apply run_matchedBy. exists (shape ++ v). cbn [fst snd].
  split; [now rewrite append_assoc | now apply youtubeRegex_complete].
Qed.

(** [getYouTubeEmbedUrl] in terms of the markers of the address. *)
Lemma getYouTubeEmbedUrl_first (url : string) :
  match getYouTubeEmbedUrl url with
  | Some e =>
      exists v : string,
        firstRecognized url v /\ e = "https://www.youtube-nocookie.com/embed/" ++ v
  | None => forall v : string, ~ recognizedYouTube url v
  end.
Proof.
  unfold getYouTubeEmbedUrl. destruct (search youtubeRegex url) as [cap|] eqn:Hsearch.
  - apply search_Some in Hsearch
      as (before & s & st' & others & -> & Hrun & <- & Hearly).
    assert (Hin : In st' (run youtubeRegex (s, None))) by (rewrite Hrun; now left).
    apply run_matchedBy in Hin as (m & Em & L). cbn [fst snd] in Em, L.
    apply youtubeRegex_sound in L
      as (pre & shape & v & -> & Hpre & Hshape & Hlen & Hall & Hcap).
    rewrite Hcap. destruct v as [|a v]; [discriminate |]. cbn [str_truthy].
    exists (String a v). split; [| reflexivity].
    exists (String.length (before ++ pre)). split.
    + exists (before ++ pre), shape, st'.1. rewrite Em.
      split; [now rewrite !append_assoc | now repeat split].
    + intros pos' v' (b' & shape' & after' & E & <- & Hshape' & Hlen' & Hall').
      destruct (Nat.le_gt_cases (String.length before) (String.length b')) as [Hle | Hlt].
      * destruct (append_split before s b' _ E Hle) as (x & -> & Es).
        rewrite Em, !append_assoc in Es.
        pose proof (no_marker_in_prefix pre x _ shape' _ Hpre Hshape' Es).
        rewrite !length_append. lia.
      * exfalso. pose proof (run_at_marker shape' v' after' Hshape' Hlen' Hall') as Hin.
        rewrite (Hearly b' _ E Hlt) in Hin. destruct Hin.
  - intros v (pos & b & shape & after & E & _ & Hshape & Hlen & Hall).
    pose proof (run_at_marker shape v after Hshape Hlen Hall) as Hin.
    rewrite (search_None youtubeRegex url Hsearch b _ E) in Hin. destruct Hin.
Qed.

Lemma append_same_length (a b a' b' : string) :
  a ++ b = a' ++ b' -> String.length a = String.length a' -> a = a' /\ b = b'.
Proof.
  revert a'. induction a as [|x a IH]; intros [|y a'] E Hlen; try discriminate.
  - now split.
  - cbn in E, Hlen. injection E as -> E.
    destruct (IH a' E ltac:(lia)) as [-> ->]. now split.
Qed.

Lemma firstRecognized_unique (url v v' : string) :
  firstRecognized url v -> firstRecognized url v' -> v = v'.
Proof.
  intros (pos & Hocc & Hmin) (pos' & Hocc' & Hmin').
  assert (pos = pos') by (pose proof (Hmin _ _ Hocc'); pose proof (Hmin' _ _ Hocc); lia).
  subst pos'.
  destruct Hocc as (b & shape & after & -> & Hb & Hshape & Hlen & _).
  destruct Hocc' as (b' & shape' & after' & E & Hb' & Hshape' & Hlen' & _).
  apply append_same_length in E as [_ E]; [| congruence].
  assert (Hsame : shape = shape').
  { cbn in Hshape, Hshape'.
    destruct Hshape as [<- | [<- | [<- | [<- | []]]]],
             Hshape' as [<- | [<- | [<- | [<- | []]]]];
      try reflexivity; cbn in E; discriminate E. }
  subst shape'. apply String.app_inj in E.
  apply append_same_length in E as [-> _]; [reflexivity | congruence].
Qed.

Lemma youTubeObject_lookup (props : Presentation.YouTubeProps) (k : string) :
  k <> "url" ->
  Presentation.youTubeObject props !! k = Presentation.yt_others props !! k.
Proof.
  intros Hk. unfold Presentation.youTubeObject. now rewrite lookup_insert_ne by congruence.
Qed.

(** The item [addYouTube] queues once it has an embed address. *)
Lemma youTubeItem_fields (props : Presentation.YouTubeProps) (e i : string) :
  let others := Presentation.yt_others props in
  let item :=
    queuedItem
      (spread (list_to_map [("type", str "youtube"); ("embedUrl", str e)])
              (Presentation.youTubeObject props)) i in
  item !! "type" = Some (default (str "youtube") (others !! "type"))
  /\ item !! "embedUrl" = Some (default (str e) (others !! "embedUrl"))
  /\ item !! "url" = Some (str (Presentation.yt_url props))
  /\ item !! "id" = Some (str i)
  /\ item !! "transition" = Some (or_else (get others "transition") (str "fade"))
  /\ forall k : string, ~ In k youTubeKeys -> item !! k = others !! k.
Proof.
  cbn zeta. repeat split.
  - rewrite queuedItem_other, spread_lookup, youTubeObject_lookup by discriminate.
    destruct (Presentation.yt_others props !! "type"); [reflexivity |].
    now rewrite lookup_table.
  - rewrite queuedItem_other, spread_lookup, youTubeObject_lookup by discriminate.
    destruct (Presentation.yt_others props !! "embedUrl"); [reflexivity |].
    now rewrite lookup_table.
  - rewrite queuedItem_other, spread_lookup by discriminate.
    unfold Presentation.youTubeObject. now rewrite lookup_insert_eq.
  - apply queuedItem_id.
  - rewrite queuedItem_transition. f_equal. f_equal. unfold get.
    rewrite spread_lookup, youTubeObject_lookup by discriminate.
    destruct (Presentation.yt_others props !! "transition"); [reflexivity |].
    now rewrite lookup_table.
  - intros k Hk. cbn [youTubeKeys In] in Hk.
    assert (k <> "type" /\ k <> "embedUrl" /\ k <> "url" /\ k <> "id"
            /\ k <> "transition") as (H1 & H2 & H3 & H4 & H5)
      by (repeat split; intros ->; apply Hk; auto 10).
    rewrite queuedItem_other, spread_lookup, youTubeObject_lookup by assumption.
    destruct (Presentation.yt_others props !! k); [reflexivity |].
    rewrite lookup_table. cbn [tableLookup].
    apply String.eqb_neq in H1, H2. now rewrite H1, H2.
Qed.

(** C2, as amended: [addYouTube] looks for the leftmost marker
    ([youtube.com/watch?v=], [youtube.com/embed/], [youtube.com/v/] or
    [youtu.be/]) that eleven id characters follow.  With such an id [v] it
    queues exactly one item; the item is of kind youtube and its [embedUrl] is
    the nocookie embed address of [v], unless the argument carries a [type] or
    an [embedUrl] of its own, which is then queued in its place, like every
    other property of the argument.  An address with some marker and id has a
    leftmost one.  Without any, the presentation is returned as it was and one
    warning naming the address is written. *)
Theorem addYouTube_embeds_or_skips (props : Presentation.YouTubeProps)
    (this : Presentation.t) (w : World) :
  let url := Presentation.yt_url props in
  let others := Presentation.yt_others props in
  (forall v : string, firstRecognized url v ->
     exists item : JsObject,
       Presentation.addYouTube props this w = (queued item this, drawn 1 w)
       /\ item !! "type" = Some (default (str "youtube") (others !! "type"))
       /\ item !! "embedUrl"
          = Some (default (str ("https://www.youtube-nocookie.com/embed/" ++ v))
                          (others !! "embedUrl"))
       /\ item !! "url" = Some (str url)
       /\ item !! "id" = Some (str (idAt w (draws w)))
       /\ item !! "transition" = Some (or_else (get others "transition") (str "fade"))
       /\ forall k : string, ~ In k youTubeKeys -> item !! k = others !! k)
  /\ (forall v : string, recognizedYouTube url v -> exists v0, firstRecognized url v0)
  /\ ((forall v : string, ~ recognizedYouTube url v) ->
      Presentation.addYouTube props this w
      = (this, warned ("Invalid YouTube URL provided, skipping: " ++ url) w)).
Proof.
  cbn zeta. pose proof (getYouTubeEmbedUrl_first (Presentation.yt_url props)) as Hget.
  unfold Presentation.addYouTube.
  destruct (getYouTubeEmbedUrl (Presentation.yt_url props)) as [e|].
  - destruct Hget as (v0 & Hfirst & ->). split; [| split].
    + intros v Hv. rewrite (firstRecognized_unique _ _ _ Hv Hfirst).
      rewrite addMediaItem_run. eexists. split; [reflexivity |].
      apply youTubeItem_fields.
    + intros _ _. now exists v0.
    + intros Hnone. destruct Hfirst as (pos & Hocc & _).
      exfalso. apply (Hnone v0). now exists pos.
  - split; [| split].
    + intros v (pos & Hocc & _). exfalso. apply (Hget v). now exists pos.
    + intros v Hv. exfalso. exact (Hget v Hv).
    + intros _. reflexivity.
Qed.

Lemma firstRecognized_watchUrl : firstRecognized watchUrl "dQw4w9WgXcQ".
Proof.
  pose proof (getYouTubeEmbedUrl_first watchUrl) as H.
  change (getYouTubeEmbedUrl watchUrl)
    with (Some "https://www.youtube-nocookie.com/embed/dQw4w9WgXcQ") in H.
  destruct H as (v & Hv & E).
  change "https://www.youtube-nocookie.com/embed/dQw4w9WgXcQ"
    with ("https://www.youtube-nocookie.com/embed/" ++ "dQw4w9WgXcQ") in E.
  apply String.app_inj in E. now rewrite E.
Qed.

(** [addYouTube] on the address [https://www.youtube.com/watch?v=dQw4w9WgXcQ]
    and on [not-a-url], each with a name and nothing else. *)
Lemma addYouTube_watch_url :
  (exists item : JsObject,
     Presentation.mediaQueue
       (Presentation.addYouTube (youTube watchUrl) Presentation.new emptyWorld).1 = [item]
     /\ item !! "type" = Some (str "youtube")
     /\ item !! "embedUrl"
        = Some (str "https://www.youtube-nocookie.com/embed/dQw4w9WgXcQ")
     /\ item !! "name" = Some (str "Next.js Conf"))
  /\ (let skipped :=
        Presentation.addYouTube (youTube "not-a-url") Presentation.new emptyWorld in
      Presentation.mediaQueue skipped.1 = []
      /\ console skipped.2 = ["Invalid YouTube URL provided, skipping: not-a-url"]).
Proof.
  split.
  - destruct (addYouTube_embeds_or_skips (youTube watchUrl) Presentation.new emptyWorld)
      as (Hadd & _ & _).
    destruct (Hadd _ firstRecognized_watchUrl)
      as (item & Hrun & Hty & Hembed & _ & _ & _ & Hother).
    exists item. rewrite Hrun. split; [reflexivity |].
    split; [exact Hty | split; [exact Hembed |]].
    rewrite Hother; [reflexivity |].
    cbn [youTubeKeys In]. intros [E | [E | [E | [E | [E | []]]]]]; discriminate E.
  - destruct (addYouTube_embeds_or_skips (youTube "not-a-url") Presentation.new emptyWorld)
      as (_ & _ & Hskip).
    cbn zeta. rewrite Hskip; [split; reflexivity |].
    pose proof (getYouTubeEmbedUrl_first "not-a-url") as H. exact H.
Defined.

(** C2 fails as stated: the address of the README is recognized, but passed
    in an object that has a [type] and an [embedUrl] of its own it is queued
    as a video with the caller's player address. *)
Lemma addYouTube_own_embedUrl :
  firstRecognized (Presentation.yt_url ownPlayer) "dQw4w9WgXcQ"
  /\ List.map (fun item => (get item "type", get item "embedUrl"))
       (Presentation.mediaQueue
          (Presentation.addYouTube ownPlayer Presentation.new emptyWorld).1)
     = [(str "video", str "https://example.com/player")]
  /\ ~ embedsVideo ownPlayer Presentation.new emptyWorld "dQw4w9WgXcQ".
Proof.
  split; [exact firstRecognized_watchUrl | split].
  - vm_compute. reflexivity.
  - intros (item & Hq & Hty & _). vm_compute in Hq.
    injection Hq as <-. vm_compute in Hty. discriminate Hty.
Qed.

(** * Further properties *)

(** ** Chains of calls on a slide *)

(** What one call does to the slide it is made on. *)
Lemma callSlide_run (c : SlideCall) (this : Slide.t) (w : World) :
  exists (f : PresentationSlide -> PresentationSlide) (news : list JsObject),
    callSlide c this w = (this, slideStep (idsDrawn c) f this w)
    /\ List.map typeOf news = List.map (fun t => Some (str t)) (option_list (builtType c))
    /\ forall s : PresentationSlide,
         title (f s) = title s /\ slide_id (f s) = slide_id s
         /\ elements (f s) = (elements s ++ news)%list
         /\ (builtType c <> None -> appearance (f s) = appearance s).
Proof.
  destruct c.
  1-6: eexists (Slide.push_element ?[e]), [?e]; split;
       [ unfold callSlide, Slide.addText, Slide.addImage, Slide.addSticker,
           Slide.addMath, Slide.addShape, Slide.addCharacter;
         repeat (rewrite bind_run, generateId_run; cbn [fst snd]);
         cbv zeta; unfold Slide.addElement; rewrite update_run; reflexivity
       | split;
         [ unfold typeOf, Slide.element; simpl; f_equal;
           first [ apply lookup_insert_eq | rewrite lookup_table; reflexivity ]
         | intros s; repeat split ] ].
  all: eexists _, []; split; [reflexivity |]; split; [reflexivity |];
       intros s; cbn; rewrite app_nil_r; repeat split; congruence.
Qed.

Lemma slideStep_compose (n1 n2 : nat) (f1 f2 : PresentationSlide -> PresentationSlide)
    (this : Slide.t) (w : World) :
  slideStep n2 f2 this (slideStep n1 f1 this w) = slideStep (n1 + n2) (f2 ∘ f1) this w.
Proof.
  unfold slideStep. cbn. f_equal; [lia | apply alter_alter_eq].
Qed.

(** A chain of calls as one step on the slide. *)
Lemma chainSlide_run (calls : list SlideCall) (this : Slide.t) : forall w : World,
  exists (f : PresentationSlide -> PresentationSlide) (news : list JsObject),
    chainSlide calls this w
    = (this, slideStep (list_sum (List.map idsDrawn calls)) f this w)
    /\ List.map typeOf news = List.map (fun t => Some (str t)) (omap builtType calls)
    /\ forall s : PresentationSlide,
         title (f s) = title s /\ slide_id (f s) = slide_id s
         /\ elements (f s) = (elements s ++ news)%list
         /\ (Forall (fun c => builtType c <> None) calls -> appearance (f s) = appearance s).
Proof.
  induction calls as [|c calls IH]; intros w.
  - exists (fun s => s), []. split; [| split; [reflexivity |]].
    + cbn. unfold ret, slideStep. f_equal. destruct w as [ck rd dr st co]; cbn. f_equal.
      apply map_eq. intros i. rewrite lookup_alter.
      case_decide; [subst i; destruct (st !! this) |]; reflexivity.
    + intros s. rewrite app_nil_r. now repeat split.
  - destruct (callSlide_run c this w) as (f1 & news1 & Hrun1 & Hty1 & Hf1).
    destruct (IH (slideStep (idsDrawn c) f1 this w)) as (f2 & news2 & Hrun2 & Hty2 & Hf2).
    exists (f2 ∘ f1), (news1 ++ news2)%list. split; [| split].
    + cbn [chainSlide]. rewrite bind_run, Hrun1. cbn [fst snd].
      rewrite Hrun2, slideStep_compose. reflexivity.
    + rewrite List.map_app, Hty1, Hty2. cbn [omap list_omap].
      destruct (builtType c); reflexivity.
    + intros s. destruct (Hf1 s) as (Ht1 & Hi1 & He1 & Ha1).
      destruct (Hf2 (f1 s)) as (Ht2 & Hi2 & He2 & Ha2). cbn.
      repeat split; try congruence.
      * now rewrite He2, He1, app_assoc.
      * intros Hall. apply Forall_cons in Hall as [Hc Hall].
        now rewrite Ha2, Ha1.
Qed.

(** X1: A chain of calls on a slide returns that slide, writes nothing to the
    console, draws one identifier per element (two per character) and leaves
    every other slide of the store as it was; on a location that holds no
    slide it leaves the whole store as it was. *)
Theorem chainSlide_frame (calls : list SlideCall) (this : Slide.t) (w : World) :
  let r := chainSlide calls this w in
  r.1 = this
  /\ console r.2 = console w
  /\ draws r.2 = list_sum (List.map idsDrawn calls) + draws w
  /\ (forall l : loc, l <> this -> store r.2 !! l = store w !! l)
  /\ (store w !! this = None -> store r.2 = store w).
Proof.
  cbn zeta. destruct (chainSlide_run calls this w) as (f & news & -> & _ & _).
  cbn [fst snd slideStep console draws store]. repeat split.
  - intros l Hl. now apply lookup_alter_ne.
  - intros Hnone. apply map_eq. intros i. rewrite lookup_alter.
    case_decide; [subst i; now rewrite Hnone | reflexivity].
Qed.

(** X2: A chain of calls on a slide appends to its elements, in call order,
    one element per builder call, each with the discriminant of its builder;
    the elements the slide had stay first, and the title and the identifier
    of the slide never change.  Builder calls leave background and border as
    they were. *)
Theorem chainSlide_elements (calls : list SlideCall) (this : Slide.t) (w : World)
    (s : PresentationSlide) :
  store w !! this = Some s ->
  exists (news : list JsObject) (s' : PresentationSlide),
    store (chainSlide calls this w).2 !! this = Some s'
    /\ elements s' = (elements s ++ news)%list
    /\ List.map typeOf news = List.map (fun t => Some (str t)) (omap builtType calls)
    /\ title s' = title s /\ slide_id s' = slide_id s
    /\ (Forall (fun c => builtType c <> None) calls -> appearance s' = appearance s).
Proof.
  intros live. destruct (chainSlide_run calls this w) as (f & news & -> & Hty & Hf).
  exists news, (f s). cbn [snd slideStep store].
  split; [now rewrite lookup_alter_eq, live |].
  destruct (Hf s) as (Ht & Hi & He & Ha). now repeat split.
Qed.

(** The title slide of the README: background, border, a text and a
    sticker. *)
Lemma chainSlide_readme :
  let made := Slide.new "Title Slide" None emptyWorld in
  exists (news : list JsObject) (s' : PresentationSlide),
    store (chainSlide readmeChain made.1 made.2).2 !! made.1 = Some s'
    /\ elements s' = news
    /\ List.map typeOf news = [Some (str "text"); Some (str "sticker")]
    /\ title s' = "Title Slide".
Proof.
  intros made.
  assert (Hlive : exists s0, store made.2 !! made.1 = Some s0
                             /\ elements s0 = [] /\ title s0 = "Title Slide").
  { subst made. rewrite new_run. cbn [fst snd store]. eexists.
    split; [apply lookup_insert_eq | split; reflexivity]. }
  destruct Hlive as (s0 & Hs0 & He0 & Ht0).
  destruct (chainSlide_elements readmeChain made.1 made.2 s0 Hs0)
    as (news & s' & Hs' & He & Hty & Ht & _).
  exists news, s'. rewrite He0 in He. rewrite Ht0 in Ht. now repeat split.
Defined.

(** ** Appearance and content of a slide *)

(** The element a builder call appends depends on the identifiers drawn,
    not on the store. *)
Lemma builder_run (b : SlideCall) (this : Slide.t) (w : World) :
  builtType b <> None ->
  exists e : JsObject,
    forall h : gmap loc PresentationSlide,
      callSlide b this (with_store h w)
      = (this, slideStep (idsDrawn b) (Slide.push_element e) this (with_store h w)).
Proof.
  intros Hb. destruct b; try (now contradiction Hb);
    eexists; intros h;
    unfold callSlide, Slide.addText, Slide.addImage, Slide.addSticker,
      Slide.addMath, Slide.addShape, Slide.addCharacter;
    repeat (rewrite bind_run, generateId_run; cbn [fst snd]);
    cbv zeta; unfold Slide.addElement; rewrite update_run;
    unfold with_store; cbn [clock random draws store console]; reflexivity.
Qed.

Lemma setter_run (c : SlideCall) (this : Slide.t) :
  builtType c = None ->
  exists g : PresentationSlide -> PresentationSlide,
    (forall w : World, callSlide c this w = (this, slideStep 0 g this w))
    /\ forall (e : JsObject) (s : PresentationSlide),
         g (Slide.push_element e s) = Slide.push_element e (g s).
Proof.
  intros Hc. destruct c; try discriminate Hc; eexists; split;
    try (intros w; reflexivity); intros e s; reflexivity.
Qed.

Lemma alter_pointwise {A} (f g : A -> A) (i : loc) (m : gmap loc A) :
  (forall x, f x = g x) -> alter f i m = alter g i m.
Proof.
  intros H. apply map_eq. intros j. rewrite !lookup_alter.
  case_decide; [| reflexivity]. destruct (m !! i); cbn; [now rewrite H | reflexivity].
Qed.

(** X3: Setting the appearance of a slide before or after adding an element
    gives the same slide: the setters touch background and border only, the
    builders the elements only. *)
Theorem appearance_commutes_with_builders (c b : SlideCall) (this : Slide.t) (w : World) :
  builtType c = None -> builtType b <> None ->
  chainSlide [c; b] this w = chainSlide [b; c] this w.
Proof.
  intros Hc Hb.
  destruct (setter_run c this Hc) as (g & Hg & Hcomm).
  destruct (builder_run b this w Hb) as (e & He).
  assert (Hb0 : callSlide b this w
                = (this, slideStep (idsDrawn b) (Slide.push_element e) this w)).
  { specialize (He (store w)).
    replace (with_store (store w) w) with w in He by (now destruct w). exact He. }
  cbn [chainSlide]. rewrite !bind_run, Hg. cbn [fst snd].
  change (slideStep 0 g this w) with (with_store (alter g this (store w)) w).
  rewrite He, Hb0. cbn [fst snd]. rewrite Hg. unfold ret. f_equal.
  unfold slideStep, with_store. cbn. f_equal.
  rewrite !alter_alter_eq. apply alter_pointwise. intros s. cbn. symmetry. apply Hcomm.
Qed.

(** A border set before or after a text is added to a new slide. *)
Lemma border_then_text :
  let made := Slide.new "Title Slide" None emptyWorld in
  chainSlide [call_setBorder ants; call_addText welcomeProps] made.1 made.2
  = chainSlide [call_addText welcomeProps; call_setBorder ants] made.1 made.2.
Proof.
  intros made.
  apply (appearance_commutes_with_builders (call_setBorder ants)
           (call_addText welcomeProps) made.1 made.2); [reflexivity | discriminate].
Defined.


(** ** New slides *)

(** X5: [new Slide] takes a location that held no slide and leaves every
    other slide as it was; the slide starts without elements, with the
    background given (white when none is) and the border style "none".  A
    slide made later is another object: no chain of calls on it changes the
    first. *)
Theorem new_slide_is_separate (title0 : string) (bg : option string) (w : World) :
  let made := Slide.new title0 bg w in
  store w !! made.1 = None
  /\ (forall l : loc, l <> made.1 -> store made.2 !! l = store w !! l)
  /\ (exists s : PresentationSlide,
        store made.2 !! made.1 = Some s
        /\ title s = title0 /\ elements s = []
        /\ appearance s
           = (Some (default "#FFFFFF" bg), None, Some border_none, None, None))
  /\ forall (title1 : string) (bg1 : option string) (calls : list SlideCall),
       let other := Slide.new title1 bg1 made.2 in
       other.1 <> made.1
       /\ store (chainSlide calls other.1 other.2).2 !! made.1 = store made.2 !! made.1.
Proof.
  cbn zeta. rewrite new_run. cbn [fst snd store].
  assert (Hfresh : store w !! fresh (dom (store w)) = None)
    by (apply not_elem_of_dom, is_fresh).
  split; [exact Hfresh |]. split; [| split].
  - intros l Hl. now rewrite lookup_insert_ne.
  - eexists. split; [apply lookup_insert_eq | now repeat split].
  - intros title1 bg1 calls. rewrite new_run. cbn [fst snd store].
    set (l0 := fresh (dom (store w))).
    set (h1 := <[l0 := _]> (store w)).
    assert (Hne : fresh (dom h1) <> l0).
    { intros E. pose proof (is_fresh (dom h1)) as Hf. rewrite E in Hf.
      apply Hf. subst h1. rewrite dom_insert. set_solver. }
    split; [exact Hne |].
    destruct (chainSlide_run calls (fresh (dom h1))
                {| clock := clock w; random := random w; draws := S (S (draws w));
                   store := <[fresh (dom h1) :=
                     {| slide_id := make_id (clock w (S (draws w))) (random w (S (draws w)));
                        title := title1; elements := [];
                        backgroundColor := Some (default "#FFFFFF" bg1);
                        backgroundImageUrl := None; borderStyle := Some border_none;
                        borderColor := None; borderWidth := None |}]> h1;
                   console := console w |})
      as (f & news & Hrun & _).
    cbn [clock random draws store console] in *. rewrite Hrun.
    cbn [snd slideStep store]. rewrite lookup_alter_ne by exact Hne.
    now rewrite lookup_insert_ne by exact Hne.
Qed.

(** ** Items of the media queue *)

Lemma or_else_truthy (v d : JsVal) : truthy d = true -> truthy (or_else v d) = true.
Proof. intros Hd. unfold or_else. now destruct (truthy v) eqn:Hv. Qed.

(** X6: [addMediaItem] queues its argument with two properties written over
    it: [id], always the generated identifier, and [transition], kept when
    truthy and "fade" otherwise.  Everything else in the argument is queued
    as given; the items queued before, the sources and the slides are not
    touched. *)
Theorem addMediaItem_overrides_id_and_transition (item : JsObject)
    (this : Presentation.t) (w : World) :
  exists q : JsObject,
    Presentation.addMediaItem item this w = (queued q this, drawn 1 w)
    /\ q !! "id" = Some (str (idAt w (draws w)))
    /\ (truthy (get item "transition") = true -> q !! "transition" = item !! "transition")
    /\ (truthy (get item "transition") = false -> q !! "transition" = Some (str "fade"))
    /\ forall k : string, k <> "id" -> k <> "transition" -> q !! k = item !! k.
Proof.
  rewrite addMediaItem_run. eexists. split; [reflexivity |].
  split; [apply queuedItem_id |]. split; [| split].
  - intros Ht. rewrite queuedItem_transition. unfold or_else. rewrite Ht.
    unfold get in *. destruct (item !! "transition"); [reflexivity | discriminate].
  - intros Ht. rewrite queuedItem_transition. unfold or_else. now rewrite Ht.
  - intros k H1 H2. now apply queuedItem_other.
Qed.

(** X7: The wrappers [addPdf], [addImage], [addVideo], [addOfficeFile],
    [addUrl], [addCodeFile] and [addQrCode] queue one item in which every
    property of the argument wins over the base the wrapper writes, [type]
    included; only [id] is out of the caller's reach.  A property the
    argument lacks has the value of the base: the kind, page 1 of a pdf,
    start 0 and no timestamps of a video, the name of a code file, the title
    of a QR code as its name and its four defaults. *)
Theorem wrappers_caller_wins (kind : WrapperKind) (data : JsObject)
    (this : Presentation.t) (w : World) :
  exists q : JsObject,
    wrapper kind data this w = (queued q this, drawn 1 w)
    /\ q !! "id" = Some (str (idAt w (draws w)))
    /\ q !! "transition" = Some (or_else (get data "transition") (str "fade"))
    /\ forall k : string, k <> "id" -> k <> "transition" ->
         q !! k = match data !! k with
                  | Some v => Some v
                  | None => tableLookup k (wrapperBase kind data)
                  end.
Proof.
  assert (Hgen : forall base : list (string * JsVal),
             tableLookup "transition" base = None ->
             exists q : JsObject,
               Presentation.addMediaItem (spread (list_to_map base) data) this w
               = (queued q this, drawn 1 w)
               /\ q !! "id" = Some (str (idAt w (draws w)))
               /\ q !! "transition" = Some (or_else (get data "transition") (str "fade"))
               /\ forall k : string, k <> "id" -> k <> "transition" ->
                    q !! k = match data !! k with
                             | Some v => Some v
                             | None => tableLookup k base
                             end).
  { intros base Hbase. rewrite addMediaItem_run. eexists. split; [reflexivity |].
    split; [apply queuedItem_id |]. split.
    - rewrite queuedItem_transition. do 2 f_equal. unfold get.
      rewrite spread_lookup, lookup_table, Hbase. now destruct (data !! "transition").
    - intros k H1 H2. rewrite queuedItem_other by assumption.
      now rewrite spread_lookup, lookup_table. }
  destruct kind; cbn [wrapper wrapperBase];
    unfold Presentation.addPdf, Presentation.addImage, Presentation.addVideo,
      Presentation.addOfficeFile, Presentation.addUrl, Presentation.addCodeFile,
      Presentation.addQrCode.
  1, 3, 6: now apply Hgen.
  1-3: rewrite <- (insert_empty (M := gmap string)); now apply (Hgen [(_, _)]).
  (* addQrCode spreads its defaults between the base and the argument *)
  destruct (Hgen (wrapperBase wrap_qrCode data) eq_refl) as (q & Hrun & Hid & Htr & Hk).
  exists q. split; [| now repeat split].
  rewrite <- Hrun. reflexivity.
Qed.

(** X8: [addCodeProject] draws two identifiers, the first for the project and
    the second for the queued item; the project is the argument with that
    identifier written over any [id] of its own, its files as given; the item
    is named after the title and opens in the "overview" mode. *)
Theorem addCodeProject_identifies_project (projectData : JsObject)
    (this : Presentation.t) (w : World) :
  exists item project : JsObject,
    Presentation.addCodeProject projectData this w = (queued item this, drawn 2 w)
    /\ item !! "type" = Some (str "code-project")
    /\ item !! "name" = Some (get projectData "title")
    /\ item !! "viewMode" = Some (str "overview")
    /\ item !! "transition" = Some (str "fade")
    /\ item !! "id" = Some (str (idAt w (S (draws w))))
    /\ item !! "project" = Some (VObj project)
    /\ project !! "id" = Some (str (idAt w (draws w)))
    /\ forall k : string, k <> "id" -> project !! k = projectData !! k.
Proof.
  unfold Presentation.addCodeProject.
  rewrite bind_run, generateId_run. cbn [fst snd]. rewrite addMediaItem_run.
  eexists. exists (<["id" := str (idAt w (draws w))]> projectData).
  split; [reflexivity |].
  split; [rewrite queuedItem_other by discriminate; rewrite lookup_table; reflexivity |].
  split; [rewrite queuedItem_other by discriminate; rewrite lookup_table; reflexivity |].
  split; [rewrite queuedItem_other by discriminate; rewrite lookup_table; reflexivity |].
  split; [rewrite queuedItem_transition, get_table; reflexivity |].
  split; [apply queuedItem_id |].
  split; [rewrite queuedItem_other by discriminate; rewrite lookup_table; reflexivity |].
  split; [apply lookup_insert_eq |].
  intros k Hk. now rewrite lookup_insert_ne by congruence.
Qed.

(** [addSource] appends the source to the source list with the generated
    identifier written over any [id] of its own and nothing else added or
    changed; the media queue is not touched. *)
Theorem addSource_appends_source (source : JsObject) (this : Presentation.t) (w : World) :
  exists src : JsObject,
    Presentation.addSource source this w = (sourced src this, drawn 1 w)
    /\ src !! "id" = Some (str (idAt w (draws w)))
    /\ forall k : string, k <> "id" -> src !! k = source !! k.
Proof.
  exists (<["id" := str (idAt w (draws w))]> source).
  split; [reflexivity |]. split; [apply lookup_insert_eq |].
  intros k Hk. now rewrite lookup_insert_ne by congruence.
Qed.

(** ** Chains of calls on a presentation *)

Lemma queuedItem_wellFormed (item : JsObject) (w : World) (k : nat) :
  wellFormedItem (queuedItem item (idAt w k)).
Proof.
  split.
  - exists (idAt w k). split; [apply queuedItem_id | apply make_id_nonempty].
  - unfold get. rewrite queuedItem_transition. now apply or_else_truthy.
Qed.

Lemma addMediaItem_outcome (item : JsObject) (this : Presentation.t) (w : World) (n : nat) :
  Outcome this w (Presentation.addMediaItem item this (drawn n w)).
Proof.
  rewrite addMediaItem_run.
  change (drawn 1 (drawn n w)) with (drawn (S n) w).
  apply outcome_item. apply (queuedItem_wellFormed item (drawn n w)).
Qed.

Lemma drawn_0 (w : World) : drawn 0 w = w.
Proof. now destruct w. Qed.

Lemma callPresentation_outcome (numberToString : JsNum -> string) (c : Call)
    (this : Presentation.t) (w : World) :
  Outcome this w (callPresentation numberToString c this w).
Proof.
  pose proof (fun item => addMediaItem_outcome item this w 0) as H0.
  rewrite drawn_0 in H0.
  destruct c; cbn [callPresentation]; try apply H0.
  - unfold Presentation.addYouTube.
    destruct (getYouTubeEmbedUrl _); [apply H0 | apply outcome_warning].
  - unfold Presentation.addSource. rewrite bind_run, generateId_run. cbn [fst snd].
    apply (outcome_source this w (<["id" := str (idAt w (draws w))]> source)).
    exists (idAt w (draws w)). split; [apply lookup_insert_eq | apply make_id_nonempty].
  - unfold Presentation.addQuiz. rewrite bind_run, generateId_run. cbn [fst snd].
    apply (addMediaItem_outcome _ this w 1).
  - unfold Presentation.addCodeProject. rewrite bind_run, generateId_run. cbn [fst snd].
    apply (addMediaItem_outcome _ this w 1).
  - unfold Presentation.addCsv.
    repeat match goal with
           | |- context [if ?b then _ else _] => destruct b
           end; try apply H0.
    apply outcome_warning.
Qed.

(** X9: Whatever the calls of a script on a presentation are, each of them
    either queues exactly one item, lists exactly one source or writes
    exactly one warning: the queue and the source list only grow at their
    end, in call order; every item queued carries a non-empty identifier and
    a truthy transition, every source a non-empty identifier; and no call
    changes a slide. *)
Theorem chainPresentation_accounting (numberToString : JsNum -> string)
    (calls : list Call) (this : Presentation.t) (w : World) :
  let r := chainPresentation numberToString calls this w in
  exists (items sources : list JsObject) (warnings : list string),
    Presentation.mediaQueue r.1 = (Presentation.mediaQueue this ++ items)%list
    /\ Presentation.sources r.1 = (Presentation.sources this ++ sources)%list
    /\ console r.2 = (console w ++ warnings)%list
    /\ List.length items + List.length sources + List.length warnings = List.length calls
    /\ Forall wellFormedItem items
    /\ Forall identified sources
    /\ store r.2 = store w.
Proof.
  cbn zeta. revert this w. induction calls as [|c calls IH]; intros this w.
  - exists [], [], []. cbn. rewrite !app_nil_r. now repeat split.
  - cbn [chainPresentation]. rewrite bind_run.
    destruct (callPresentation_outcome numberToString c this w)
      as [item n Hitem | source Hsrc | msg];
      cbn [fst snd];
      match goal with
      | |- context [chainPresentation _ _ ?p ?w'] =>
          destruct (IH p w') as (items & srcs & msgs & Hq & Hs & Hc & Hlen & Hi & Hsr & Hst)
      end.
    + exists (item :: items), srcs, msgs. rewrite Hq, Hs, Hc, Hst. cbn.
      rewrite <- app_assoc. repeat split; try assumption; [lia | now constructor].
    + exists items, (source :: srcs), msgs. rewrite Hq, Hs, Hc, Hst. cbn.
      rewrite <- app_assoc. repeat split; try assumption; [lia | now constructor].
    + exists items, srcs, (msg :: msgs). rewrite Hq, Hs, Hc, Hst. cbn.
      rewrite <- app_assoc. repeat split; try assumption. lia.
Qed.

(** A script run from beginning to end: three items, one source and two
    warnings come of six calls. *)
Example sampleScript_outcome :
  let r := chainPresentation (fun _ => "") sampleScript Presentation.new emptyWorld in
  List.map (fun item => get item "type") (Presentation.mediaQueue r.1)
  = [str "image"; str "youtube"; str "quiz"]
  /\ List.length (Presentation.sources r.1) = 1
  /\ console r.2
     = ["Invalid YouTube URL provided, skipping: not-a-url";
        "CSV item requires either content (raw string) or rows/headers."].
Proof. vm_compute. repeat split. Qed.

(** ** Splitting what was joined *)

Lemma split_without (sep : ascii) (s : string) :
  noneOf sep s = true -> split sep s = [s].
Proof.
  induction s as [|a s IH]; [reflexivity |]. cbn [noneOf allChars split].
  intros H. apply andb_prop in H as [Ha Hs]. apply negb_true_iff in Ha.
  rewrite Ha. unfold noneOf in IH. now rewrite IH.
Qed.

Lemma split_append (sep : ascii) (a b : string) :
  noneOf sep a = true -> split sep (a ++ String sep b) = a :: split sep b.
Proof.
  induction a as [|x a IH]; cbn [noneOf allChars].
  - intros _. cbn. now rewrite Ascii.eqb_refl.
  - intros H. apply andb_prop in H as [Hx Ha]. apply negb_true_iff in Hx.
    cbn. rewrite Hx. unfold noneOf in IH. now rewrite IH.
Qed.

(** [split] undoes [join] on pieces free of the separator. *)
Lemma split_join (sep : ascii) (l : list string) :
  l <> [] -> forallb (noneOf sep) l = true ->
  split sep (join (String sep "") l) = l.
Proof.
  unfold join. induction l as [|a l IH]; [congruence |]. intros _ H.
  cbn [forallb] in H. apply andb_prop in H as [Ha Hl].
  destruct l as [|b l]; [now apply split_without |].
  change (String.concat (String sep "") (a :: b :: l))
    with (a ++ String sep (String.concat (String sep "") (b :: l))).
  rewrite split_append by exact Ha. f_equal. now apply IH.
Qed.

Lemma noneOf_append (c : ascii) (a b : string) :
  noneOf c (a ++ b) = noneOf c a && noneOf c b.
Proof. apply allChars_append. Qed.

Lemma noneOf_join (c sep : ascii) (l : list string) :
  Ascii.eqb sep c = false -> forallb (noneOf c) l = true ->
  noneOf c (join (String sep "") l) = true.
Proof.
  intros Hsep. unfold join. induction l as [|a l IH]; [reflexivity |].
  cbn [forallb]. intros H. apply andb_prop in H as [Ha Hl].
  destruct l as [|b l]; [exact Ha |].
  change (String.concat (String sep "") (a :: b :: l))
    with (a ++ String sep (String.concat (String sep "") (b :: l))).
  rewrite noneOf_append, Ha. cbn [noneOf allChars andb]. rewrite Hsep. cbn.
  now apply IH.
Qed.

(** ** Trimmed texts and blank lines *)

Lemma length_trimStart (s : string) : String.length (trimStart s) <= String.length s.
Proof.
  induction s as [|a s IH]; cbn [trimStart]; [lia |].
  destruct (isWhiteSpace a); cbn; lia.
Qed.

Lemma length_trimEnd (s : string) : String.length (trimEnd s) <= String.length s.
Proof.
  induction s as [|a s IH]; cbn [trimEnd]; [lia |].
  destruct (trimEnd s); [destruct (isWhiteSpace a) |]; cbn in *; lia.
Qed.

(** A text that trimming leaves alone does not begin with white space. *)
Lemma trimmed_head (a : ascii) (r : string) :
  trim (String a r) = String a r -> isWhiteSpace a = false.
Proof.
  intros H. destruct (isWhiteSpace a) eqn:Ha; [exfalso | reflexivity].
  apply (f_equal String.length) in H. unfold trim in H. cbn [trimStart] in H.
  rewrite Ha in H. pose proof (length_trimEnd (trimStart r)).
  pose proof (length_trimStart r). cbn in H. lia.
Qed.

(** A line that begins with something else than white space is not blank. *)
Lemma nonBlank_head (a : ascii) (r : string) :
  isWhiteSpace a = false -> nonBlank (String a r) = true.
Proof.
  intros Ha. unfold nonBlank, trim. cbn [trimStart]. rewrite Ha.
  destruct (trimEnd_head a r Ha) as (t & ->). reflexivity.
Qed.

Lemma cleanText_spec (s : string) :
  cleanText s = true ->
  trim s = s /\ noneOf "," s = true /\ noneOf newline s = true
  /\ exists a r, s = String a r /\ isWhiteSpace a = false.
Proof.
  unfold cleanText. intros H.
  apply andb_prop in H as [H Hnl]. apply andb_prop in H as [H Hco].
  apply andb_prop in H as [Htr Hne]. apply String.eqb_eq in Htr.
  repeat split; try assumption.
  destruct s as [|a r]; [discriminate |]. exists a, r.
  split; [reflexivity | now apply (trimmed_head a r)].
Qed.

Lemma join_head (sep : ascii) (a : ascii) (r : string) (l : list string) :
  exists t, join (String sep "") (String a r :: l) = String a t.
Proof.
  unfold join. destruct l as [|b l]; [now exists r |].
  now exists (r ++ String sep (String.concat (String sep "") (b :: l))).
Qed.

(** A line of clean texts joined with commas can be split again, holds no
    line feed and is not blank. *)
Lemma line_of_clean_texts (l : list string) :
  given (head l) = true -> forallb cleanText l = true ->
  split "," (join "," l) = l
  /\ noneOf newline (join "," l) = true
  /\ nonBlank (join "," l) = true.
Proof.
  intros Hne Hall.
  assert (Hspec : forall s, In s l -> cleanText s = true)
    by (now apply forallb_forall).
  split; [| split].
  - apply split_join; [now destruct l |].
    apply forallb_forall. intros s Hs. now apply (cleanText_spec s (Hspec s Hs)).
  - apply noneOf_join; [reflexivity |].
    apply forallb_forall. intros s Hs. now apply (cleanText_spec s (Hspec s Hs)).
  - destruct l as [|c l]; [discriminate |].
    destruct (cleanText_spec c (Hspec c (or_introl eq_refl)))
      as (_ & _ & _ & a & r & -> & Ha).
    destruct (join_head "," a r l) as (t & ->). now apply nonBlank_head.
Qed.

Lemma filter_all {A} (f : A -> bool) (l : list A) :
  forallb f l = true -> List.filter f l = l.
Proof.
  induction l as [|a l IH]; [reflexivity |]. cbn. intros H.
  apply andb_prop in H as [-> Hl]. now rewrite IH.
Qed.

Lemma map_fixed {A} (f : A -> A) (l : list A) :
  (forall a, In a l -> f a = a) -> List.map f l = l.
Proof.
  induction l as [|a l IH]; [reflexivity |]. intros H. cbn.
  rewrite H by now left. rewrite IH; [reflexivity |]. intros b Hb. apply H. now right.
Qed.

(** ** Tables given as rows *)

Section Rows.

Import Presentation.

Variable numberToString : JsNum -> string.

Lemma cellToString_text (row : list string) :
  List.map (cellToString numberToString) (List.map CellStr row) = row.
Proof. rewrite List.map_map. cbn. apply List.map_id. Qed.

Lemma coerceCell_text (c : string) : textCell c = true -> coerceCell c = CellStr c.
Proof.
  unfold textCell. intros H. apply andb_prop in H as [Hc Hn].
  destruct (cleanText_spec c Hc) as (Htrim & _).
  unfold coerceCell. now rewrite Htrim, Hn.
Qed.

Lemma textCell_clean (row : list string) :
  forallb textCell row = true -> forallb cleanText row = true.
Proof.
  intros H. apply forallb_forall. intros c Hc.
  apply (proj1 (forallb_forall _ _) H) in Hc. unfold textCell in Hc.
  now apply andb_prop in Hc as [Hc _].
Qed.

(** The content written for a table of texts, read again. *)
Lemma derive_textTable (headers : list string) (rows : list (list string)) :
  textTable headers rows = true ->
  let content := csvContent numberToString headers (List.map (List.map CellStr) rows) in
  content <> ""
  /\ csvHeaders (csvLines content) = headers
  /\ csvRows (csvLines content) = List.map (List.map CellStr) rows.
Proof.
  unfold textTable. intros H. apply andb_prop in H as [H Hrows].
  apply andb_prop in H as [Hhne Hh].
  destruct (line_of_clean_texts headers Hhne Hh) as (Hsplit0 & Hnl0 & Hnb0).
  assert (Hrow : forall row, In row rows ->
             split "," (join "," row) = row
             /\ noneOf newline (join "," row) = true
             /\ nonBlank (join "," row) = true
             /\ List.map coerceCell row = List.map CellStr row).
  { intros row Hin. apply (proj1 (forallb_forall _ _) Hrows) in Hin.
    apply andb_prop in Hin as [Hne Hcells].
    destruct (line_of_clean_texts row Hne (textCell_clean row Hcells)) as (? & ? & ?).
    repeat split; try assumption.
    apply List.map_ext_in. intros c Hc. apply coerceCell_text.
    now apply (proj1 (forallb_forall _ _) Hcells). }
  cbn zeta. unfold csvContent. rewrite List.map_map.
  rewrite (List.map_ext _ (join ",") (fun row => f_equal (join ",") (cellToString_text row))).
  set (lines := join "," headers :: List.map (join ",") rows).
  assert (Hlines : csvLines (join (String newline "") lines) = lines).
  { unfold csvLines. rewrite split_join.
    - apply filter_all. subst lines. cbn [forallb]. rewrite Hnb0. cbn.
      apply forallb_forall. intros l Hl. apply in_map_iff in Hl as (row & <- & Hin).
      now apply Hrow.
    - discriminate.
    - subst lines. cbn [forallb]. rewrite Hnl0. cbn.
      apply forallb_forall. intros l Hl. apply in_map_iff in Hl as (row & <- & Hin).
      now apply Hrow. }
  rewrite Hlines. subst lines. split; [| split].
  - unfold join at 1. destruct headers as [|h hs]; [discriminate |].
    destruct (cleanText_spec h) as (_ & _ & _ & a & r & -> & _).
    { cbn [forallb] in Hh. now apply andb_prop in Hh as [Hh _]. }
    destruct (join_head "," a r hs) as (t & ->).
    destruct (List.map _ rows); discriminate.
  - cbn [csvHeaders]. rewrite Hsplit0. apply map_fixed. intros h Hin.
    apply (proj1 (forallb_forall _ _) Hh) in Hin. now apply cleanText_spec.
  - unfold csvRows. cbn [skipn]. rewrite skipn_O, List.map_map.
    apply List.map_ext_in. intros row Hin.
    destruct (Hrow row Hin) as (-> & _ & _ & ->). reflexivity.
Qed.

End Rows.

(** X10: With rows, [addCsv] always queues an item that holds the rows and the
    headers as given (no headers when none are given).  Without a content it
    writes one itself, the headers and then each row joined with commas, line
    by line; but for an empty list of rows the content stays empty.  With a
    content and headers it queues all three as given, consistent or not. *)
Theorem addCsv_from_rows (numberToString : JsNum -> string)
    (d : Presentation.CsvData) (this : Presentation.t) (w : World)
    (rows : list (list Cell)) :
  Presentation.csv_rows d = Some rows ->
  let headers := default [] (Presentation.csv_headers d) in
  (Presentation.csv_content d = None \/ Presentation.csv_content d = Some "" ->
   exists item : JsObject,
     Presentation.addCsv numberToString d this w = (queued item this, drawn 1 w)
     /\ item !! "headers" = Some (headersVal headers)
     /\ item !! "rows" = Some (rowsVal rows)
     /\ item !! "content"
        = Some (str (match rows with
                     | [] => ""
                     | _ => Presentation.csvContent numberToString headers rows
                     end)))
  /\ (forall content : string,
        Presentation.csv_content d = Some content -> content <> "" ->
        Presentation.csv_headers d <> None ->
        exists item : JsObject,
          Presentation.addCsv numberToString d this w = (queued item this, drawn 1 w)
          /\ item !! "headers" = Some (headersVal headers)
          /\ item !! "rows" = Some (rowsVal rows)
          /\ item !! "content" = Some (str content)).
Proof.
  intros Hr. cbn zeta. unfold Presentation.addCsv. rewrite Hr. split.
  - intros Hc.
    assert (Hfalsy : from_option str_truthy false (Presentation.csv_content d) = false
                     /\ default "" (Presentation.csv_content d) = "")
      by (destruct Hc as [-> | ->]; now split).
    destruct Hfalsy as [-> ->].
    destruct rows as [|row rows];
      cbn -[Presentation.addMediaItem Presentation.csvItem Presentation.csvContent];
      rewrite addMediaItem_run; eexists; (split; [reflexivity |]);
      match goal with
      | |- context [queuedItem (Presentation.csvItem ?d0 ?h ?r ?c) ?i] =>
          destruct (csvItem_fields d0 h r c i) as (_ & _ & Hcontent & Hh & Hrows)
      end;
      repeat split; assumption.
  - intros content Hc Hne Hh. rewrite Hc.
    destruct content as [|a content]; [congruence |].
    destruct (Presentation.csv_headers d) as [hs|]; [| congruence].
    cbn -[Presentation.addMediaItem Presentation.csvItem Presentation.csvContent].
    rewrite andb_false_r, addMediaItem_run. eexists. split; [reflexivity |].
    destruct (csvItem_fields d hs rows (String a content) (idAt w (draws w)))
      as (_ & _ & Hcontent & Hhs & Hrows).
    repeat split; assumption.
Qed.

(** Rows without headers and without content, and an empty list of rows. *)
Lemma addCsv_rows_only :
  let d := csvOf "t" None None (Some [[CellStr "Ada"; CellNum (int 36)]]) in
  let none := csvOf "t" None None (Some []) in
  (exists item : JsObject,
     Presentation.mediaQueue
       (Presentation.addCsv (fun _ => "36") d Presentation.new emptyWorld).1 = [item]
     /\ item !! "headers" = Some (VArr [])
     /\ item !! "content" = Some (str (String newline "Ada,36")))
  /\ (exists item : JsObject,
        Presentation.mediaQueue
          (Presentation.addCsv (fun _ => "36") none Presentation.new emptyWorld).1 = [item]
        /\ item !! "rows" = Some (VArr [])
        /\ item !! "content" = Some (str "")).
Proof.
  intros d none. split.
  - destruct (addCsv_from_rows (fun _ => "36") d Presentation.new emptyWorld _ eq_refl)
      as [Hfrom _].
    destruct Hfrom as (item & Hrun & Hh & _ & Hc); [now left |].
    exists item. rewrite Hrun. now repeat split.
  - destruct (addCsv_from_rows (fun _ => "36") none Presentation.new emptyWorld _ eq_refl)
      as [Hfrom _].
    destruct Hfrom as (item & Hrun & _ & Hr & Hc); [now left |].
    exists item. rewrite Hrun. now repeat split.
Defined.

(** X11: A table of texts queued from headers and rows can be read back from
    the content [addCsv] writes for it: the same call on that content alone
    queues the same headers, rows and content.  The texts must be trimmed,
    not empty, free of commas and line feeds, and the cells must not read as
    numbers; there must be a header and a row. *)
Theorem addCsv_table_round_trip (numberToString : JsNum -> string)
    (name0 : string) (headers : list string) (rows : list (list string))
    (this : Presentation.t) (w : World) :
  textTable headers rows = true -> rows <> [] ->
  exists (item : JsObject) (content : string),
    Presentation.addCsv numberToString
      (csvOf name0 None (Some headers) (Some (List.map (List.map CellStr) rows))) this w
    = (queued item this, drawn 1 w)
    /\ item !! "content" = Some (str content)
    /\ item !! "headers" = Some (headersVal headers)
    /\ item !! "rows" = Some (rowsVal (List.map (List.map CellStr) rows))
    /\ forall (this' : Presentation.t) (w' : World),
         exists item' : JsObject,
           Presentation.addCsv numberToString (csvOf name0 (Some content) None None) this' w'
           = (queued item' this', drawn 1 w')
           /\ item' !! "content" = item !! "content"
           /\ item' !! "headers" = item !! "headers"
           /\ item' !! "rows" = item !! "rows".
Proof.
  intros Htable Hrows.
  destruct (derive_textTable numberToString headers rows Htable) as (Hne & Hh & Hr).
  set (cells := List.map (List.map CellStr) rows) in *.
  set (content := Presentation.csvContent numberToString headers cells) in *.
  assert (Hfirst : Presentation.addCsv numberToString
                     (csvOf name0 None (Some headers) (Some cells)) this w
                   = Presentation.addMediaItem
                       (Presentation.csvItem (csvOf name0 None (Some headers) (Some cells))
                          headers cells content) this w).
  { unfold Presentation.addCsv.
    cbn -[Presentation.addMediaItem Presentation.csvItem Presentation.csvContent].
    destruct cells eqn:E; [| reflexivity].
    subst cells. destruct rows; [congruence | discriminate]. }
  rewrite Hfirst, addMediaItem_run. eexists. exists content.
  split; [reflexivity |].
  pose proof (csvItem_fields (csvOf name0 None (Some headers) (Some cells))
                headers cells content (idAt w (draws w))) as Hf.
  cbn zeta in Hf. destruct Hf as (_ & _ & Hc & Hhs & Hrs).
  split; [exact Hc |]. split; [exact Hhs |]. split; [exact Hrs |].
  intros this' w'.
  rewrite (addCsv_derive numberToString (csvOf name0 (Some content) None None)
             this' w' content eq_refl Hne (or_introl eq_refl)).
  rewrite addMediaItem_run. eexists. split; [reflexivity |].
  pose proof (csvItem_fields (csvOf name0 (Some content) None None)
                (csvHeaders (csvLines content)) (csvRows (csvLines content))
                content (idAt w' (draws w'))) as Hf.
  cbn zeta in Hf. destruct Hf as (_ & _ & Hc' & Hhs' & Hrs').
  rewrite Hc', Hhs', Hrs', Hc, Hhs, Hrs, Hh, Hr. now repeat split.
Qed.

(** The table of people, queued from rows and read back from its content. *)
Lemma addCsv_people_round_trip :
  exists (item : JsObject) (content : string),
    Presentation.addCsv (fun _ => "")
      (csvOf "people" None (Some peopleHeaders)
         (Some (List.map (List.map CellStr) peopleRows))) Presentation.new emptyWorld
    = (queued item Presentation.new, drawn 1 emptyWorld)
    /\ item !! "content" = Some (str content)
    /\ exists item' : JsObject,
         Presentation.addCsv (fun _ => "") (csvOf "people" (Some content) None None)
           Presentation.new emptyWorld
         = (queued item' Presentation.new, drawn 1 emptyWorld)
         /\ item' !! "headers" = Some (headersVal peopleHeaders)
         /\ item' !! "rows" = Some (rowsVal (List.map (List.map CellStr) peopleRows)).
Proof.
  destruct (addCsv_table_round_trip (fun _ => "") "people" peopleHeaders peopleRows
              Presentation.new emptyWorld eq_refl)
    as (item & content & Hrun & Hc & Hh & Hr & Hback); [discriminate |].
  exists item, content. split; [exact Hrun |]. split; [exact Hc |].
  destruct (Hback Presentation.new emptyWorld) as (item' & Hrun' & _ & Hh' & Hr').
  exists item'. split; [exact Hrun' |]. now rewrite Hh', Hr'.
Defined.

(** ** Embed addresses *)

Lemma shape_not_id (shape : string) :
  In shape youtubeShapes -> forall a b : string, allChars idChar (a ++ shape ++ b) = false.
Proof.
  intros Hshape a b. rewrite !allChars_append.
  assert (allChars idChar shape = false)
    by (cbn in Hshape; destruct Hshape as [<- | [<- | [<- | [<- | []]]]]; reflexivity).
  rewrite H. cbn. apply andb_false_r.
Qed.

(** No marker occurs in an embed address. *)
Lemma no_marker_in_embed (v : string) :
  allChars idChar v = true ->
  forall before shape rest : string,
    In shape youtubeShapes -> embedPrefix ++ v <> before ++ shape ++ rest.
Proof.
  intros Hv before shape rest Hshape E. unfold embedPrefix in E.
  do 39 (destruct before as [|? before];
         [ cbn in Hshape; destruct Hshape as [<- | [<- | [<- | [<- | []]]]];
           cbn in E; discriminate E
         | cbn in E; injection E as _ E ]).
  rewrite E, (shape_not_id shape Hshape) in Hv. discriminate.
Qed.

(** X12: The address [getYouTubeEmbedUrl] returns is the prefix of the
    privacy-enhanced player followed by eleven id characters, fifty
    characters in all, and it is not itself an address the function accepts:
    [addYouTube] given an embed address it produced skips it. *)
Theorem embedUrl_is_not_accepted_again (url e : string) :
  getYouTubeEmbedUrl url = Some e ->
  (exists v : string,
     e = embedPrefix ++ v /\ String.length v = 11 /\ allChars idChar v = true)
  /\ String.length e = 50
  /\ getYouTubeEmbedUrl e = None.
Proof.
  intros He. pose proof (getYouTubeEmbedUrl_first url) as H. rewrite He in H.
  destruct H as (v & (pos & (b & sh & a & _ & _ & _ & Hlen & Hall) & _) & ->).
  split; [now exists v |]. split.
  - change "https://www.youtube-nocookie.com/embed/" with embedPrefix.
    rewrite length_append, Hlen. reflexivity.
  - pose proof (getYouTubeEmbedUrl_first ("https://www.youtube-nocookie.com/embed/" ++ v))
      as H.
    clear He.
    destruct (getYouTubeEmbedUrl _) as [e'|]; [exfalso | reflexivity].
    destruct H as (v' & (pos' & (b' & sh' & a' & E & _ & Hsh' & _) & _) & _).
    now apply (no_marker_in_embed v Hall b' sh' (v' ++ a') Hsh').
Qed.

(** The address of the README and the embed address made from it. *)
Lemma embedUrl_of_watchUrl :
  getYouTubeEmbedUrl watchUrl = Some "https://www.youtube-nocookie.com/embed/dQw4w9WgXcQ"
  /\ getYouTubeEmbedUrl "https://www.youtube-nocookie.com/embed/dQw4w9WgXcQ" = None.
Proof.
  split; [reflexivity |].
  now apply (embedUrl_is_not_accepted_again watchUrl _ eq_refl).
Defined.

(** ** The shape of an identifier *)

Lemma digit36_isBase36 (d : N) : (d < 36)%N -> isBase36 (digit36 d) = true.
Proof.
  intros Hd. unfold isBase36. rewrite (N_of_digit36 d Hd).
  destruct (N.ltb_spec d 10).
  - replace (48 <=? 48 + d)%N with true by (symmetry; apply N.leb_le; lia).
    replace (48 + d <=? 57)%N with true by (symmetry; apply N.leb_le; lia).
    reflexivity.
  - replace (97 <=? 87 + d)%N with true by (symmetry; apply N.leb_le; lia).
    replace (87 + d <=? 122)%N with true by (symmetry; apply N.leb_le; lia).
    apply orb_true_r.
Qed.

Lemma radix36_isBase36 (f : nat) : forall n : N, allChars isBase36 (radix36 f n) = true.
Proof.
  induction f as [|f IH]; intros n; [reflexivity |].
  rewrite radix36_S, allChars_append. cbn [allChars].
  rewrite digit36_isBase36 by (apply N.mod_lt; lia).
  destruct (n <? 36)%N; [reflexivity |]. now rewrite IH.
Qed.

Lemma length_substring (n m : nat) (s : string) : String.length (substring n m s) <= m.
Proof.
  revert n m. induction s as [|a s IH]; intros [|n] [|m]; cbn; try lia.
  - specialize (IH 0 m). lia.
  - apply (IH n 0).
  - apply (IH n (S m)).
Qed.

(** X13: An identifier is the clock reading in base 36, a dash, and at most nine
    characters of the random number: the text before the dash is made of
    digits of base 36 only and reads back as the clock reading. *)
Theorem generateId_encodes_clock (w : World) :
  exists t sfx : string,
    generateId w = (t ++ "-" ++ sfx, drawn 1 w)
    /\ t <> "" /\ allChars isBase36 t = true
    /\ parse36 0 t = clock w (draws w)
    /\ String.length sfx <= 9.
Proof.
  exists (toString36 (clock w (draws w))), (substr 2 9 (random w (draws w))).
  split; [reflexivity |]. split; [| split; [| split]].
  - unfold toString36. rewrite radix36_S. destruct (_ <? 36)%N; [discriminate |].
    destruct (radix36 _ _); discriminate.
  - apply radix36_isBase36.
  - apply toString36_parse.
  - apply length_substring.
Qed.

(** ** One slide queued twice *)

Lemma addSlide_item (slide : Slide.t) (this : Presentation.t) (w : World)
    (s : PresentationSlide) :
  store w !! slide = Some s ->
  exists item : JsObject,
    Presentation.addSlide slide this w = (queued item this, drawn 1 w)
    /\ item !! "slide" = Some (VRef slide)
    /\ item !! "name" = Some (str (title s)).
Proof.
  intros live. unfold Presentation.addSlide.
  rewrite bind_run. cbn [get_store fst snd]. rewrite addMediaItem_run.
  eexists. split; [reflexivity |].
  split; rewrite queuedItem_other by discriminate; rewrite lookup_table;
    [reflexivity |].
  unfold Slide.getSlideObject. now rewrite live.
Qed.

(** X14: A slide queued twice is one slide object under two items: after any
    chain of calls on the slide both items show the same slide, the one the
    builder holds, and both are still named after its title, which no call
    changes. *)
Theorem slide_queued_twice_is_shared (slide : Slide.t) (this : Presentation.t)
    (w : World) (s : PresentationSlide) :
  store w !! slide = Some s ->
  let once := Presentation.addSlide slide this w in
  let twice := Presentation.addSlide slide once.1 once.2 in
  exists item1 item2 : JsObject,
    Presentation.mediaQueue twice.1
    = (Presentation.mediaQueue this ++ [item1; item2])%list
    /\ forall calls : list SlideCall,
         let later := (chainSlide calls slide twice.2).2 in
         exists s' : PresentationSlide,
           store later !! slide = Some s'
           /\ Presentation.queuedSlide later item1 = Some s'
           /\ Presentation.queuedSlide later item2 = Some s'
           /\ item1 !! "name" = Some (str (title s'))
           /\ item2 !! "name" = Some (str (title s')).
Proof.
  intros live. cbn zeta.
  destruct (addSlide_item slide this w s live) as (item1 & Hrun1 & Hs1 & Hn1).
  rewrite Hrun1. cbn [fst snd].
  destruct (addSlide_item slide (queued item1 this) (drawn 1 w) s live)
    as (item2 & Hrun2 & Hs2 & Hn2).
  rewrite Hrun2. cbn [fst snd].
  exists item1, item2. split; [cbn; now rewrite <- app_assoc |].
  intros calls.
  destruct (chainSlide_run calls slide (drawn 1 (drawn 1 w))) as (f & news & -> & _ & Hf).
  exists (f s). cbn [snd slideStep store drawn].
  unfold Presentation.queuedSlide. rewrite Hs1, Hs2. cbn [store].
  rewrite !lookup_alter_eq, live. cbn.
  destruct (Hf s) as (Ht & _). rewrite Ht.
  repeat split; try assumption;
    (etransitivity; [apply lookup_alter_eq | now rewrite live]).
Qed.

(** The title slide of the README queued twice, then given its border and
    a text. *)
Lemma title_slide_queued_twice :
  let made := Slide.new "Title Slide" None emptyWorld in
  let once := Presentation.addSlide made.1 Presentation.new made.2 in
  let twice := Presentation.addSlide made.1 once.1 once.2 in
  let later := (chainSlide readmeChain made.1 twice.2).2 in
  exists (item1 item2 : JsObject) (s' : PresentationSlide),
    Presentation.mediaQueue twice.1 = [item1; item2]
    /\ Presentation.queuedSlide later item1 = Some s'
    /\ Presentation.queuedSlide later item2 = Some s'
    /\ item1 !! "name" = Some (str "Title Slide")
    /\ item2 !! "name" = Some (str "Title Slide").
Proof.
  intros made once twice later.
  assert (Hlive : exists s0, store made.2 !! made.1 = Some s0).
  { subst made. rewrite new_run. cbn [fst snd store]. eexists. apply lookup_insert_eq. }
  destruct Hlive as (s0 & Hs0).
  destruct (slide_queued_twice_is_shared made.1 Presentation.new made.2 s0 Hs0)
    as (item1 & item2 & Hq & Hlater).
  destruct (Hlater readmeChain) as (s' & _ & H1 & H2 & Hn1 & Hn2).
  exists item1, item2, s'. split; [exact Hq |]. split; [exact H1 |]. split; [exact H2 |].
  assert (Ht : title s' = "Title Slide").
  { fold once twice later in H1.
    assert (E : Presentation.queuedSlide later item1 = Some s') by exact H1.
    clear - E Hq. subst later twice once made. vm_compute in Hq.
    injection Hq as <- _. vm_compute in E. injection E as <-. reflexivity. }
  rewrite <- Ht. now split.
Defined.

(** ** The shape of a derived table *)




(** ** Carriage returns *)

Lemma trimEnd_snoc (c : ascii) (s : string) :
  isWhiteSpace c = true -> trimEnd (s ++ String c "") = trimEnd s.
Proof.
  intros Hc. induction s as [|a s IH]; cbn [String.append trimEnd].
  - now rewrite Hc.
  - now rewrite IH.
Qed.

Lemma trimStart_snoc (c : ascii) (s : string) :
  isWhiteSpace c = true ->
  trimStart (s ++ String c "")
  = match trimStart s with
    | EmptyString => EmptyString
    | t => t ++ String c ""
    end.
Proof.
  intros Hc. induction s as [|a s IH]; cbn [String.append trimStart].
  - now rewrite Hc.
  - destruct (isWhiteSpace a); [exact IH | reflexivity].
Qed.

(** White space added at the end of a text does not change what [trim]
    gives. *)
Lemma trim_snoc (c : ascii) (s : string) :
  isWhiteSpace c = true -> trim (s ++ String c "") = trim s.
Proof.
  intros Hc. unfold trim. rewrite trimStart_snoc by exact Hc.
  destruct (trimStart s) as [|a t]; [reflexivity |]. now apply trimEnd_snoc.
Qed.

Lemma split_snoc (sep c : ascii) (s : string) :
  Ascii.eqb c sep = false ->
  split sep (s ++ String c "") = mapLast (fun p => p ++ String c "") (split sep s).
Proof.
  intros Hc. induction s as [|a s IH]; cbn [String.append split].
  - now rewrite Hc.
  - pose proof (split_not_nil sep s) as Hne. rewrite IH.
    destruct (Ascii.eqb a sep).
    + destruct (split sep s) as [|h t]; [congruence | reflexivity].
    + destruct (split sep s) as [|h t]; [congruence |].
      destruct t as [|h' t]; reflexivity.
Qed.

Lemma map_mapLast {A B} (g : A -> B) (f : A -> A) (l : list A) :
  (forall x, g (f x) = g x) -> List.map g (mapLast f l) = List.map g l.
Proof.
  intros H. induction l as [|x l IH]; [reflexivity |].
  destruct l as [|y l]; cbn [mapLast List.map] in *; [now rewrite H | now rewrite IH].
Qed.

Lemma split_crlf (s : string) :
  split newline (crlf s)
  = mapInit (fun l => l ++ String carriageReturn "") (split newline s).
Proof.
  induction s as [|a s IH]; [reflexivity |]. cbn [crlf split].
  pose proof (split_not_nil newline s) as Hne.
  destruct (Ascii.eqb a newline) eqn:Ha.
  - cbn [split]. change (Ascii.eqb carriageReturn newline) with false.
    rewrite Ascii.eqb_refl, IH. cbv iota.
    destruct (split newline s) as [|h t]; [congruence | reflexivity].
  - cbn [split]. rewrite Ha, IH.
    destruct (split newline s) as [|h t]; [congruence |].
    destruct t as [|h' t]; reflexivity.
Qed.

(** A line and the line with a carriage return at its end: blank alike, and
    the same cells once trimmed. *)
Lemma line_with_carriageReturn (line : string) :
  nonBlank (line ++ String carriageReturn "") = nonBlank line
  /\ trimmedCells (line ++ String carriageReturn "") = trimmedCells line.
Proof.
  split.
  - unfold nonBlank. now rewrite trim_snoc.
  - unfold trimmedCells. rewrite split_snoc by reflexivity.
    apply map_mapLast. intros x. now apply trim_snoc.
Qed.

Lemma trimmedCells_mapInit (f : string -> string) (lines : list string) :
  (forall l, nonBlank (f l) = nonBlank l /\ trimmedCells (f l) = trimmedCells l) ->
  List.map trimmedCells (List.filter nonBlank (mapInit f lines))
  = List.map trimmedCells (List.filter nonBlank lines).
Proof.
  intros H. induction lines as [|x lines IH]; [reflexivity |].
  destruct lines as [|y lines]; [reflexivity |].
  change (mapInit f (x :: y :: lines)) with (f x :: mapInit f (y :: lines)).
  cbn [List.filter]. destruct (H x) as [-> Hx].
  destruct (nonBlank x); cbn [List.map]; rewrite IH; [now rewrite Hx | reflexivity].
Qed.

Lemma coerceCell_trimmed (cell : string) : coerceCell cell = coerceTrimmed (trim cell).
Proof. reflexivity. Qed.

(** Headers and rows are functions of the trimmed cells of the non-blank
    lines. *)
Lemma derived_from_trimmedCells (lines : list string) :
  csvHeaders lines = List.hd [] (List.map trimmedCells lines)
  /\ csvRows lines
     = List.map (List.map coerceTrimmed) (List.tl (List.map trimmedCells lines)).
Proof.
  split.
  - now destruct lines.
  - unfold csvRows. destruct lines as [|l0 ls]; [reflexivity |]. cbn [skipn List.map List.tl].
    rewrite skipn_O, List.map_map. apply List.map_ext. intros line.
    unfold trimmedCells. now rewrite List.map_map.
Qed.

(** X16: Windows line ends make no difference to the table [addCsv] derives:
    the content with a carriage return before every line feed gives the same
    headers and the same rows. *)
Theorem addCsv_ignores_carriage_returns (numberToString : JsNum -> string)
    (name0 content : string) (this : Presentation.t) (w : World) :
  content <> "" ->
  exists item item' : JsObject,
    Presentation.addCsv numberToString (csvOf name0 (Some content) None None) this w
    = (queued item this, drawn 1 w)
    /\ Presentation.addCsv numberToString (csvOf name0 (Some (crlf content)) None None) this w
       = (queued item' this, drawn 1 w)
    /\ item' !! "headers" = item !! "headers"
    /\ item' !! "rows" = item !! "rows".
Proof.
  intros Hne.
  assert (Hne' : crlf content <> "").
  { destruct content as [|a s]; [congruence |]. cbn [crlf].
    destruct (Ascii.eqb a newline); discriminate. }
  rewrite (addCsv_derive numberToString (csvOf name0 (Some content) None None)
             this w content eq_refl Hne (or_introl eq_refl)).
  rewrite (addCsv_derive numberToString (csvOf name0 (Some (crlf content)) None None)
             this w (crlf content) eq_refl Hne' (or_introl eq_refl)).
  rewrite !addMediaItem_run. eexists. eexists.
  split; [reflexivity |]. split; [reflexivity |].
  assert (Hcells : List.map trimmedCells (csvLines (crlf content))
                   = List.map trimmedCells (csvLines content)).
  { unfold csvLines. rewrite split_crlf.
    apply trimmedCells_mapInit. exact line_with_carriageReturn. }
  destruct (derived_from_trimmedCells (csvLines content)) as [Hh Hr].
  destruct (derived_from_trimmedCells (csvLines (crlf content))) as [Hh' Hr'].
  rewrite Hcells in Hh', Hr'. rewrite <- Hh in Hh'. rewrite <- Hr in Hr'.
  match goal with
  | |- queuedItem (Presentation.csvItem ?d1 ?h1 ?r1 ?c1) ?i !! _ = _ /\ _ =>
      destruct (csvItem_fields d1 h1 r1 c1 i) as (_ & _ & _ & -> & ->)
  end.
  match goal with
  | |- _ = queuedItem (Presentation.csvItem ?d1 ?h1 ?r1 ?c1) ?i !! _ /\ _ =>
      destruct (csvItem_fields d1 h1 r1 c1 i) as (_ & _ & _ & -> & ->)
  end.
  now rewrite Hh', Hr'.
Qed.

(** The content a,b / 1,x / 2,y with either kind of line end. *)
Lemma addCsv_windows_line_ends :
  let content := lines3 "a,b" "1,x" "2,y" in
  exists item item' : JsObject,
    Presentation.addCsv (fun _ => "") (csvOf "t" (Some content) None None)
      Presentation.new emptyWorld
    = (queued item Presentation.new, drawn 1 emptyWorld)
    /\ Presentation.addCsv (fun _ => "") (csvOf "t" (Some (crlf content)) None None)
         Presentation.new emptyWorld
       = (queued item' Presentation.new, drawn 1 emptyWorld)
    /\ String.length (crlf content) = String.length content + 2
    /\ item' !! "rows" = item !! "rows".
Proof.
  intros content.
  destruct (addCsv_ignores_carriage_returns (fun _ => "") "t" content
              Presentation.new emptyWorld)
    as (item & item' & Hrun & Hrun' & _ & Hr); [discriminate |].
  exists item, item'. repeat split; assumption.
Defined.

(** ** Stickers *)

(** X17: A sticker has its nine properties and no other: whatever else [props]
    holds is dropped, a width or a height of its own included, so that width,
    height and fontSize are always the same value. *)
Theorem addSticker_keeps_its_own_properties (props : JsObject) (this : Slide.t)
    (w : World) (s : PresentationSlide) :
  store w !! this = Some s ->
  exists e : JsObject,
    appendsElement w (Slide.addSticker props this w).2 this e
    /\ (forall k : string, is_Some (e !! k) <-> In k stickerKeys)
    /\ e !! "width" = e !! "fontSize"
    /\ e !! "height" = e !! "fontSize".
Proof.
  intros live. unfold Slide.addSticker. rewrite bind_run, generateId_run. cbn [fst snd].
  eexists. split; [now apply (addElement_appends this w s live) |].
  split; [| split; rewrite !lookup_table; reflexivity].
  intros k. rewrite lookup_table. cbn [tableLookup stickerKeys In].
  split.
  - intros [v Hv]. revert Hv.
    repeat (destruct (String.eqb k _) eqn:E;
            [apply String.eqb_eq in E as ->; intros _;
             repeat first [left; reflexivity | right] | clear E]).
    discriminate.
  - intros Hin.
    repeat (destruct Hin as [<- | Hin]; [cbn; eauto |]). destruct Hin.
Qed.

(** A sticker passed a width, a height and an animation. *)
Lemma addSticker_wideRocket :
  let made := Slide.new "Title Slide" None emptyWorld in
  exists e : JsObject,
    appendsElement made.2 (Slide.addSticker wideRocket made.1 made.2).2 made.1 e
    /\ e !! "animation" = None
    /\ e !! "width" = e !! "fontSize".
Proof.
  intros made.
  assert (Hlive : exists s0, store made.2 !! made.1 = Some s0).
  { subst made. rewrite new_run. cbn [fst snd store]. eexists. apply lookup_insert_eq. }
  destruct Hlive as (s0 & Hs0).
  destruct (addSticker_keeps_its_own_properties wideRocket made.1 made.2 s0 Hs0)
    as (e & Happ & Hkeys & Hw & _).
  exists e. split; [exact Happ |]. split; [| exact Hw].
  destruct (e !! "animation") eqn:Ha; [exfalso | reflexivity].
  assert (Hin : In "animation" stickerKeys) by (apply Hkeys; rewrite Ha; eauto).
  cbn in Hin. repeat (destruct Hin as [Hin | Hin]; [discriminate Hin |]). exact Hin.
Defined.

(** * Identifiers across a script *)

Lemma newElements_push (e : JsObject) (l : loc) (w w' : World) :
  store w' = alter (Slide.push_element e) l (store w) ->
  newElements l w w' = match store w !! l with Some _ => [e] | None => [] end.
Proof.
  intros Hst. unfold newElements. rewrite Hst, lookup_alter_eq.
  destruct (store w !! l) as [s|]; [| reflexivity].
  cbn. apply drop_app_length.
Qed.

Lemma newElements_kept (f : PresentationSlide -> PresentationSlide) (l : loc)
    (w w' : World) :
  store w' = alter f l (store w) ->
  (forall s, elements (f s) = elements s) ->
  newElements l w w' = [].
Proof.
  intros Hst Hf. unfold newElements. rewrite Hst, lookup_alter_eq.
  destruct (store w !! l) as [s|]; [| reflexivity].
  cbn. rewrite Hf. apply drop_all.
Qed.

Lemma idOf_element (defaults props : JsObject) (i t : string) :
  idOf (Slide.element defaults props i t) = str i.
Proof.
  unfold idOf, get, Slide.element.
  now rewrite lookup_insert_ne, lookup_insert_eq by discriminate.
Qed.

Lemma idOf_queuedItem (item : JsObject) (i : string) : idOf (queuedItem item i) = str i.
Proof. unfold idOf, get. now rewrite queuedItem_id. Qed.

(** The element of a builder call and the identifiers in it. *)
Lemma builder_ids (b : SlideCall) (l : loc) (w : World) :
  builtType b <> None ->
  exists e : JsObject,
    callSlide b l w = (l, slideStep (idsDrawn b) (Slide.push_element e) l w)
    /\ idOf e = str (idAt w (pred (idsDrawn b) + draws w))
    /\ forall props : JsObject,
         b = call_addCharacter props -> props !! "actions" = None ->
         List.map idOf (objectsOf (get e "actions")) = [str (idAt w (draws w))].
Proof.
  intros Hb. destruct b; try (now contradiction Hb);
    (eexists; split;
     [ unfold callSlide, Slide.addText, Slide.addImage, Slide.addSticker,
         Slide.addMath, Slide.addShape, Slide.addCharacter;
       repeat (rewrite bind_run, generateId_run; cbn [fst snd]);
       cbv zeta; unfold Slide.addElement; rewrite update_run; reflexivity
     | split; [| intros props0 E; try discriminate E] ]).
  1,2,4,5,6: apply idOf_element.
  - unfold idOf. rewrite get_table. reflexivity.
  - injection E as <-. intros Hnone.
    unfold get, Slide.element.
    rewrite !lookup_insert_ne by discriminate.
    rewrite spread_lookup, Hnone. unfold Slide.characterDefaults.
    rewrite lookup_table. reflexivity.
Qed.

Lemma sorted_one (k : nat) : StronglySorted lt [k].
Proof. repeat constructor. Qed.

Lemma sorted_two (k : nat) : StronglySorted lt [k; S k].
Proof. repeat constructor. Qed.

Lemma newItems_queued (item : JsObject) (this : Presentation.t) :
  newItems this (queued item this) = [item].
Proof. apply drop_app_length. Qed.

Lemma newSources_queued (item : JsObject) (this : Presentation.t) :
  newSources this (queued item this) = [].
Proof. apply drop_all. Qed.

Lemma newItems_same (this : Presentation.t) : newItems this this = [].
Proof. apply drop_all. Qed.

Lemma newSources_same (this : Presentation.t) : newSources this this = [].
Proof. apply drop_all. Qed.

Lemma addMediaItem_queued (item : JsObject) (this : Presentation.t) (w : World) :
  Presentation.addMediaItem item this w
  = (queued (queuedItem item (idAt w (draws w))) this, drawn 1 w).
Proof. reflexivity. Qed.

Lemma drawnBy_none (w w' : World) : DrawnBy w w' [].
Proof. exists []. repeat constructor. Qed.

Lemma drawnBy_one (w w' : World) (n : nat) :
  draws w' = S n + draws w -> DrawnBy w w' [str (idAt w (n + draws w))].
Proof.
  intros Hd. exists [n + draws w]. split; [reflexivity |]. split; [apply sorted_one |].
  repeat constructor; lia.
Qed.

Lemma drawnBy_two (w w' : World) :
  draws w' = 2 + draws w ->
  DrawnBy w w' [str (idAt w (draws w)); str (idAt w (S (draws w)))].
Proof.
  intros Hd. exists [draws w; S (draws w)]. split; [reflexivity |].
  split; [apply sorted_two |]. repeat constructor; lia.
Qed.

Section ScriptIds.

Variable numberToString : JsNum -> string.

Lemma assigned_item (c : Call) (item : JsObject) (this : Presentation.t) (w : World) :
  (forall q, c <> call_addQuiz q) -> (forall p, c <> call_addCodeProject p) ->
  callPresentation numberToString c this w
  = Presentation.addMediaItem item this w ->
  DrawnBy w (callPresentation numberToString c this w).2
    (assigned numberToString (on_Presentation c) this w).
Proof.
  intros Hq Hp Hrun. unfold assigned, construct. rewrite Hrun, addMediaItem_queued.
  cbn [snd].
  replace (match c with call_addQuiz _ => _ | _ => _ end)
    with [idOf (queuedItem item (idAt w (draws w)))].
  - rewrite idOf_queuedItem. now apply (drawnBy_one w _ 0).
  - destruct c; try (now rewrite newItems_queued, newSources_queued);
      [destruct (Hq quizData eq_refl) | destruct (Hp projectData eq_refl)].
Qed.

Lemma addCsv_cases (d : Presentation.CsvData) (this : Presentation.t) (w : World) :
  (exists msg : string, Presentation.addCsv numberToString d this w = (this, warned msg w))
  \/ exists item : JsObject,
       Presentation.addCsv numberToString d this w
       = Presentation.addMediaItem item this w.
Proof.
  unfold Presentation.addCsv.
  repeat match goal with
         | |- context [if ?b then _ else _] => destruct b
         end; try (right; eexists; reflexivity).
  left. eexists. reflexivity.
Qed.

Lemma construct_world (op : Construction) (this : Presentation.t) (w : World) :
  let w' := (construct numberToString op this w).2 in
  clock w' = clock w /\ random w' = random w /\ draws w <= draws w'.
Proof.
  cbn zeta. destruct op as [title0 bg | l c | c]; unfold construct.
  - rewrite bind_run, new_run. cbn. repeat split. lia.
  - destruct (callSlide_run c l w) as (f & news & Hrun & _).
    rewrite bind_run, Hrun. cbn. repeat split. lia.
  - destruct (callPresentation_outcome numberToString c this w); cbn; repeat split; lia.
Qed.

(** What one operation assigns. *)
Lemma construct_assigned (op : Construction) (this : Presentation.t) (w : World) :
  DrawnBy w (construct numberToString op this w).2 (assigned numberToString op this w).
Proof.
  destruct op as [title0 bg | l c | c].
  - unfold assigned, construct. rewrite bind_run, new_run. cbn [fst snd ret store].
    rewrite lookup_insert_eq. now apply (drawnBy_one w _ 0).
  - destruct (builtType c) as [t|] eqn:Hb.
    + destruct (builder_ids c l w) as (e & Hrun & Hid & Hact); [congruence |].
      unfold assigned, construct. rewrite bind_run, Hrun. cbn [fst snd ret].
      assert (Hnew := newElements_push e l w (slideStep (idsDrawn c) (Slide.push_element e) l w)
                        eq_refl).
      destruct c; try discriminate Hb; rewrite Hnew;
        (destruct (store w !! l); [| apply drawnBy_none]).
      1-5: cbn [List.map]; rewrite Hid; now apply (drawnBy_one w _ 0).
      cbn [flat_map]. rewrite app_nil_r, Hid.
      destruct (props !! "actions") eqn:Hgiven; cbn [given].
      * now apply (drawnBy_one w _ 1).
      * rewrite (Hact props eq_refl Hgiven). now apply drawnBy_two.
    + destruct (callSlide_run c l w) as (f & news & Hrun & Hty & Hf).
      rewrite Hb in Hty. destruct news; [| discriminate Hty].
      unfold assigned, construct. rewrite bind_run, Hrun. cbn [fst snd ret].
      assert (Hnew : newElements l w (slideStep (idsDrawn c) f l w) = []).
      { apply (newElements_kept f); [reflexivity |].
        intros s. destruct (Hf s) as (_ & _ & -> & _). apply app_nil_r. }
      destruct c; try discriminate Hb; rewrite Hnew; apply drawnBy_none.
  - destruct c.
    1-3, 5-8, 12, 14:
      eapply assigned_item; [intros q; discriminate | intros q; discriminate | reflexivity].
    + destruct (getYouTubeEmbedUrl (Presentation.yt_url props)) as [e|] eqn:E.
      * eapply assigned_item; [intros q; discriminate | intros q; discriminate |].
        cbn [callPresentation]. unfold Presentation.addYouTube. rewrite E. reflexivity.
      * unfold assigned, construct. cbn [callPresentation].
        unfold Presentation.addYouTube. rewrite E. cbn.
        rewrite newItems_same, newSources_same. apply drawnBy_none.
    + unfold assigned, construct. cbn [callPresentation].
      unfold Presentation.addSource. rewrite bind_run, generateId_run.
      cbn [fst snd ret].
      change (newItems this _) with (newItems this (sourced (<["id" := str (idAt w (draws w))]> source) this)).
      change (newSources this _) with (newSources this (sourced (<["id" := str (idAt w (draws w))]> source) this)).
      unfold newItems, newSources, sourced. cbn [Presentation.mediaQueue Presentation.sources].
      rewrite drop_all, drop_app_length. cbn [List.map app].
      unfold idOf, get. rewrite lookup_insert_eq. now apply (drawnBy_one w _ 0).
    + unfold assigned, construct. cbn [callPresentation].
      unfold Presentation.addQuiz. rewrite bind_run, generateId_run. cbn [fst snd].
      rewrite addMediaItem_queued. cbn [snd]. rewrite newItems_queued. cbn [flat_map].
      rewrite app_nil_r, idOf_queuedItem. unfold idUnder.
      rewrite queuedItem_other, lookup_table by discriminate. cbn [tableLookup String.eqb Ascii.eqb Bool.eqb].
      unfold idOf at 1, get. rewrite lookup_insert_eq. now apply drawnBy_two.
    + unfold assigned, construct. cbn [callPresentation].
      unfold Presentation.addCodeProject. rewrite bind_run, generateId_run. cbn [fst snd].
      rewrite addMediaItem_queued. cbn [snd]. rewrite newItems_queued. cbn [flat_map].
      rewrite app_nil_r, idOf_queuedItem. unfold idUnder.
      rewrite queuedItem_other, lookup_table by discriminate. cbn [tableLookup String.eqb Ascii.eqb Bool.eqb].
      unfold idOf at 1, get. rewrite lookup_insert_eq. now apply drawnBy_two.
    + destruct (addCsv_cases csvData this w) as [(msg & Hrun) | (item & Hrun)].
      * unfold assigned, construct. cbn [callPresentation]. rewrite Hrun.
        rewrite newItems_same, newSources_same. apply drawnBy_none.
      * eapply assigned_item; [intros q; discriminate | intros q; discriminate |].
        exact Hrun.
Qed.

End ScriptIds.

Lemma sorted_app (ks1 ks2 : list nat) (d : nat) :
  StronglySorted lt ks1 -> StronglySorted lt ks2 ->
  Forall (fun k => k < d) ks1 -> Forall (fun k => d <= k) ks2 ->
  StronglySorted lt (ks1 ++ ks2).
Proof.
  intros H1 H2 Hlt Hge. induction H1 as [|k ks1 Hs IH Hk]; [exact H2 |].
  apply Forall_cons in Hlt as [Hkd Hlt]. cbn. constructor; [now apply IH |].
  apply Forall_app. split; [exact Hk |].
  eapply Forall_impl; [exact Hge |]. cbn. intros; lia.
Qed.

Lemma idAt_ext (w w' : World) (k : nat) :
  clock w' = clock w -> random w' = random w -> idAt w' k = idAt w k.
Proof. intros Hc Hr. unfold idAt. now rewrite Hc, Hr. Qed.

Lemma wellFormedId_every (w : World) (k : nat) : wellFormedId w k.
Proof.
  split; [apply make_id_nonempty | split; [reflexivity | apply length_substring]].
Qed.

Section Scripts.

Variable numberToString : JsNum -> string.

Lemma script_world (ops : list Construction) : forall (this : Presentation.t) (w : World),
  let w' := (script numberToString ops this w).2 in
  clock w' = clock w /\ random w' = random w /\ draws w <= draws w'.
Proof.
  cbn zeta. induction ops as [|op ops IH]; intros this w; [now repeat split |].
  cbn [script]. rewrite bind_run.
  pose proof (construct_world numberToString op this w) as Hop. cbn zeta in Hop.
  destruct (construct numberToString op this w) as [p w1]. cbn [fst snd] in *.
  destruct Hop as (Hc & Hr & Hd). destruct (IH p w1) as (Hc' & Hr' & Hd').
  repeat split; [congruence | congruence | lia].
Qed.

Lemma script_assigned (ops : list Construction) : forall (this : Presentation.t) (w : World),
  DrawnBy w (script numberToString ops this w).2 (assignedBy numberToString ops this w).
Proof.
  induction ops as [|op ops IH]; intros this w; [apply drawnBy_none |].
  cbn [script assignedBy]. rewrite bind_run.
  pose proof (construct_world numberToString op this w) as Hop. cbn zeta in Hop.
  pose proof (construct_assigned numberToString op this w) as (ks1 & -> & Hs1 & Hb1).
  destruct (construct numberToString op this w) as [p w1]. cbn [fst snd] in *.
  destruct Hop as (Hc & Hr & Hd).
  destruct (IH p w1) as (ks2 & -> & Hs2 & Hb2).
  pose proof (script_world ops p w1) as (_ & _ & Hd2). cbn zeta in Hd2.
  exists (ks1 ++ ks2)%list. split; [| split].
  - rewrite List.map_app. f_equal. apply List.map_ext. intros k.
    now rewrite (idAt_ext w w1) by assumption.
  - apply (sorted_app ks1 ks2 (draws w1)); try assumption.
    + eapply Forall_impl; [exact Hb1 |]. cbn. intros; lia.
    + eapply Forall_impl; [exact Hb2 |]. cbn. intros; lia.
  - apply Forall_app. split.
    + eapply Forall_impl; [exact Hb1 |]. cbn. intros; lia.
    + eapply Forall_impl; [exact Hb2 |]. cbn. intros; lia.
Qed.

End Scripts.

(** C8, as amended: whatever the construction operations of a script are
    (new slides, elements, media items, sources, quizzes, code projects), the
    identifiers they assign are identifiers [generateId] returned during the
    script, each draw assigned at most once and in the order of the draws.
    Each identifier is a non-empty string: the clock reading in base 36, a
    dash, and at most nine characters of the random number.  They are pairwise
    distinct exactly when the draws differ pairwise in the clock reading or
    in the nine characters kept of the random number: nothing in the library
    excludes two draws that agree on both. *)
Theorem constructions_distinct_iff_keys (numberToString : JsNum -> string)
    (ops : list Construction) (this : Presentation.t) (w : World) :
  let ids := assignedBy numberToString ops this w in
  exists ks : list nat,
    ids = List.map (fun k => str (idAt w k)) ks
    /\ StronglySorted lt ks
    /\ Forall (fun k => draws w <= k < draws (script numberToString ops this w).2) ks
    /\ Forall (wellFormedId w) ks
    /\ (NoDup ids <-> NoDup (List.map (idKey w) ks)).
Proof.
  cbn zeta. destruct (script_assigned numberToString ops this w) as (ks & Hids & Hs & Hb).
  exists ks. split; [exact Hids |]. split; [exact Hs |]. split; [exact Hb |]. split.
  - apply Forall_forall. intros k _. apply wellFormedId_every.
  - rewrite Hids. apply NoDup_map_iff. intros x y. unfold idKey, idAt, str.
    split.
    + intros E. injection E as E. apply make_id_inj in E as [E1 E2]. now rewrite E1, E2.
    + intros E. injection E as E1 E2. f_equal. apply make_id_inj. now split.
Qed.

(** The identifiers of the tour, one per object built: with a clock that
    ticks at every draw they are twelve distinct strings, and the draw of
    the character whose actions the caller gave is not among them. *)
Example tour_ids :
  List.map (fun i => match i with VStr s => substr 0 8 s | _ => "" end)
    (assignedBy (fun _ => "") tour Presentation.new tickingWorld)
  = ["mvoxwmbk"; "mvoxwmbl"; "mvoxwmbm"; "mvoxwmbn"; "mvoxwmbp"; "mvoxwmbq";
     "mvoxwmbr"; "mvoxwmbs"; "mvoxwmbt"; "mvoxwmbu"; "mvoxwmbv"; "mvoxwmbw"]
  /\ draws (script (fun _ => "") tour Presentation.new tickingWorld).2 = 13.
Proof. vm_compute. split; reflexivity. Qed.
